(** * Noon post processor: a shallow embedding of [working/post_processor.py]

    The development follows the source file top to bottom: Python strings
    and the few [str] methods the pipeline calls, the cells and tables of
    pandas that it manipulates, the JSON codec used for [all_images], then
    [split_breadcrumbs], [combine_images], [process_csv] and
    [run_post_processor]; after them the paths of a run and the entry
    point of [working/main.py], which calls the post processor; and
    finally the properties of the pipeline. *)

From Stdlib Require Import String Ascii.
From stdpp Require Import gmap list sorting pretty.

Local Open Scope N_scope.

(** ** Python [str]

    A Python [str] is a sequence of Unicode code points; a code point is
    kept as its number. *)

Module PyStr.

Definition pystr : Type := list N.

(** The literals of the source, all of them ASCII, are written [py "..."]. *)
Definition py (s : string) : pystr := N_of_ascii <$> list_ascii_of_string s.

(** [str.isspace] on one code point: the characters that [str.strip()]
    removes when called without argument. *)
Definition is_space (c : N) : bool :=
  ((9 <=? c) && (c <=? 13)) || ((28 <=? c) && (c <=? 32))
  || (c =? 133) || (c =? 160) || (c =? 5760)
  || ((8192 <=? c) && (c <=? 8202))
  || (c =? 8232) || (c =? 8233) || (c =? 8239) || (c =? 8287) || (c =? 12288).

Fixpoint lstrip (s : pystr) : pystr :=
  match s with
  | [] => []
  | c :: s' => if is_space c then lstrip s' else s
  end.

Fixpoint rstrip (s : pystr) : pystr :=
  match s with
  | [] => []
  | c :: s' =>
      match rstrip s' with
      | [] => if is_space c then [] else [c]
      | t => c :: t
      end
  end.

(** [s.strip()] *)
Definition strip (s : pystr) : pystr := rstrip (lstrip s).

(** [s.split(sep)] for a one-character separator: every occurrence cuts,
    adjacent separators give empty segments, and the result is never the
    empty list. *)
Fixpoint split (sep : N) (s : pystr) : list pystr :=
  match s with
  | [] => [[]]
  | c :: s' =>
      if c =? sep then [] :: split sep s'
      else match split sep s' with
           | seg :: segs => (c :: seg) :: segs
           | [] => [[c]]
           end
  end.

(** [sep.join(segs)] for a one-character separator. *)
Fixpoint join (sep : N) (segs : list pystr) : pystr :=
  match segs with
  | [] => []
  | [seg] => seg
  | seg :: segs' => seg ++ sep :: join sep segs'
  end.

(** [s.startswith(p)] *)
Fixpoint startswith (s p : pystr) : bool :=
  match p, s with
  | [], _ => true
  | _ :: _, [] => false
  | a :: p', b :: s' => (a =? b) && startswith s' p'
  end.

(** [s.endswith(p)] *)
Definition endswith (s p : pystr) : bool := startswith (rev s) (rev p).

(** [a < b] on strings: code point by code point, a proper prefix first. *)
Fixpoint str_ltb (a b : pystr) : bool :=
  match a, b with
  | _, [] => false
  | [], _ :: _ => true
  | x :: a', y :: b' =>
      if x <? y then true else if y <? x then false else str_ltb a' b'
  end.

(** The order [sorted] arranges by: [a] may stand before [b] when
    [b < a] does not hold. *)
Definition str_le (a b : pystr) : Prop := str_ltb b a = false.

#[global] Instance str_le_dec a b : Decision (str_le a b).
Proof. unfold str_le. apply _. Defined.

(** Truth value of a string: [if s] holds for the non-empty ones. *)
Definition truthy (s : pystr) : bool :=
  match s with [] => false | _ :: _ => true end.

End PyStr.
Export PyStr.

(** ** The JSON codec of the standard library, as [combine_images] and
    [process_csv] use it

    [json.dumps] is applied to a list of strings with the default options
    ([ensure_ascii=True], item separator [", "]); [json.loads] is applied to
    such a document, so the decoder below reads arrays of strings and
    answers [None] on every other document. *)

Module Json.

Definition quote : N := 34.       (* the double quote *)
Definition backslash : N := 92.
Definition lbracket : N := 91.
Definition rbracket : N := 93.
Definition comma : N := 44.
Definition space : N := 32.
Definition letter_u : N := 117.

(** One digit of ['{0:04x}'.format]. *)
Definition hex_char (d : N) : N := if d <? 10 then 48 + d else 87 + d.

(** ['\\u{0:04x}'.format(n)] for [n < 0x10000]. *)
Definition u_escape (n : N) : pystr :=
  [backslash; letter_u;
   hex_char (n / 4096 mod 16); hex_char (n / 256 mod 16);
   hex_char (n / 16 mod 16); hex_char (n mod 16)].

(** [ESCAPE_DCT] and the [replace] callback of
    [py_encode_basestring_ascii]: what one code point becomes. *)
Definition escape_char (c : N) : pystr :=
  if c =? quote then [backslash; quote]
  else if c =? backslash then [backslash; backslash]
  else if c =? 8 then [backslash; 98]
  else if c =? 12 then [backslash; 102]
  else if c =? 10 then [backslash; 110]
  else if c =? 13 then [backslash; 114]
  else if c =? 9 then [backslash; 116]
  else if (32 <=? c) && (c <=? 126) then [c]
  else if c <? 65536 then u_escape c
  else
    let n := c - 65536 in
    let s1 := N.lor 55296 (N.land (N.shiftr n 10) 1023) in
    let s2 := N.lor 56320 (N.land n 1023) in
    u_escape s1 ++ u_escape s2.

Definition escape (s : pystr) : pystr := s ≫= escape_char.

(** [py_encode_basestring_ascii] *)
Definition encode_string (s : pystr) : pystr := quote :: escape s ++ [quote].

(** [', '.join(items)] *)
Fixpoint join_items (items : list pystr) : pystr :=
  match items with
  | [] => []
  | [x] => x
  | x :: rest => x ++ comma :: space :: join_items rest
  end.

(** [json.dumps(images)] *)
Definition dumps (l : list pystr) : pystr :=
  lbracket :: join_items (encode_string <$> l) ++ [rbracket].

(** Decoder. *)

Definition hex_val (c : N) : option N :=
  if (48 <=? c) && (c <=? 57) then Some (c - 48)
  else if (97 <=? c) && (c <=? 102) then Some (c - 87)
  else if (65 <=? c) && (c <=? 70) then Some (c - 55)
  else None.

(** [_decode_uXXXX] on the four characters after [\u]. *)
Definition decode_hex4 (a b c d : N) : option N :=
  h3 ← hex_val a; h2 ← hex_val b; h1 ← hex_val c; h0 ← hex_val d;
  Some (4096 * h3 + 256 * h2 + 16 * h1 + h0).

(** The [BACKSLASH] table. *)
Definition unescape_short (e : N) : option N :=
  if e =? quote then Some quote
  else if e =? backslash then Some backslash
  else if e =? 47 then Some 47
  else if e =? 98 then Some 8
  else if e =? 102 then Some 12
  else if e =? 110 then Some 10
  else if e =? 114 then Some 13
  else if e =? 116 then Some 9
  else None.

Definition is_high_surrogate (u : N) : bool := (55296 <=? u) && (u <=? 56319).
Definition is_low_surrogate (u : N) : bool := (56320 <=? u) && (u <=? 57343).

Definition cons_out (c : N) (r : option (pystr * pystr)) : option (pystr * pystr) :=
  match r with
  | Some (out, rest) => Some (c :: out, rest)
  | None => None
  end.

(** [py_scanstring] in strict mode, started just after the opening quote:
    the decoded string and the text after the closing quote. *)
Fixpoint scanstring (s : pystr) : option (pystr * pystr) :=
  match s with
  | [] => None
  | c :: s1 =>
      if c =? quote then Some ([], s1)
      else if c =? backslash then
        match s1 with
        | [] => None
        | e :: s2 =>
            if e =? letter_u then
              match s2 with
              | a :: b :: c' :: d :: s3 =>
                  match decode_hex4 a b c' d with
                  | None => None
                  | Some uni =>
                      if is_high_surrogate uni then
                        match s3 with
                        | b1 :: u1 :: s4 =>
                            if (b1 =? backslash) && (u1 =? letter_u) then
                              match s4 with
                              | a2 :: b2 :: c2 :: d2 :: s5 =>
                                  match decode_hex4 a2 b2 c2 d2 with
                                  | None => None
                                  | Some uni2 =>
                                      if is_low_surrogate uni2 then
                                        cons_out
                                          (65536 + N.lor (N.shiftl (uni - 55296) 10)
                                                         (uni2 - 56320))
                                          (scanstring s5)
                                      else cons_out uni (scanstring s3)
                                  end
                              | _ => None
                              end
                            else cons_out uni (scanstring s3)
                        | _ => cons_out uni (scanstring s3)
                        end
                      else cons_out uni (scanstring s3)
                  end
              | _ => None
              end
            else
              match unescape_short e with
              | Some ch => cons_out ch (scanstring s2)
              | None => None
              end
        end
      else if c <? 32 then None
      else cons_out c (scanstring s1)
  end.

(** The [WHITESPACE] pattern of the decoder. *)
Definition is_json_ws (c : N) : bool :=
  (c =? 32) || (c =? 9) || (c =? 10) || (c =? 13).

Fixpoint skip_ws (s : pystr) : pystr :=
  match s with
  | c :: s' => if is_json_ws c then skip_ws s' else s
  | [] => []
  end.

(** [JSONArray] after the opening bracket, at the first character of an
    item. The fuel bounds the number of items; the length of the text is
    always enough. *)
Fixpoint parse_items (fuel : nat) (s : pystr) : option (list pystr * pystr) :=
  match fuel with
  | O => None
  | S fuel' =>
      match s with
      | c :: s1 =>
          if c =? quote then
            match scanstring s1 with
            | None => None
            | Some (item, r) =>
                match skip_ws r with
                | c2 :: r' =>
                    if c2 =? rbracket then Some ([item], r')
                    else if c2 =? comma then
                      match parse_items fuel' (skip_ws r') with
                      | Some (items, r'') => Some (item :: items, r'')
                      | None => None
                      end
                    else None
                | [] => None
                end
            end
          else None
      | [] => None
      end
  end.

(** [json.loads(x)] *)
Definition loads (x : pystr) : option (list pystr) :=
  match skip_ws x with
  | c :: s1 =>
      if c =? lbracket then
        match skip_ws s1 with
        | c2 :: r =>
            if c2 =? rbracket then
              match skip_ws r with [] => Some [] | _ :: _ => None end
            else
              match parse_items (length s1) (c2 :: r) with
              | Some (items, r') =>
                  match skip_ws r' with [] => Some items | _ :: _ => None end
              | None => None
              end
        | [] => None
        end
      else None
  | [] => None
  end.

End Json.

(** ** Cells, rows and tables of pandas *)

Module Frame.

(** A cell that is not null. A [float64] other than NaN is kept as the
    text that [str] gives for it. Cells are compared as values of this
    type, which is how pandas compares text. Numbers are not followed
    through the conversions of pandas: a column of integers turns into
    floats when it is combined with floats or with missing cells, and
    then 5 and 5.0 are one key. The properties that compare cells, or
    that follow a cell from a file to the output, therefore take the
    cells they speak of to be text ([text_cell] below). *)
Inductive value :=
| VStr (s : pystr)
| VInt (z : Z)
| VFloat (repr : pystr)
| VBool (b : bool).

#[global] Instance value_eq_dec : EqDecision value.
Proof. solve_decision. Defined.

(** [str(v)] *)
Definition py_str (v : value) : pystr :=
  match v with
  | VStr s => s
  | VInt z => py (pretty z)
  | VFloat repr => repr
  | VBool true => py "True"
  | VBool false => py "False"
  end.

(** A row maps column names to cells; a null cell (NaN or [None], the
    two that [pd.isna] accepts) is a name without entry. Which columns
    exist is recorded by the table. *)
Abbreviation row := (gmap pystr value).

Record DataFrame := { columns : list pystr; rows : list row }.

(** One row as [df.apply(f, axis=1)] hands it to [f]: a Series indexed by
    the columns of the table. The cells are those of the table, as
    pandas hands them over whenever the table has a column of text;
    of a table whose columns are all numeric it hands the integers
    over as floats when one of the columns holds floats. *)
Record Series := { index : list pystr; cells : row }.

Definition iterrows (df : DataFrame) : list Series :=
  (λ r, {| index := columns df; cells := r |}) <$> rows df.

(** [len(df)] *)
Definition len (df : DataFrame) : nat := length (rows df).

(** [df[c]] as the list of its cells. *)
Definition column (c : pystr) (df : DataFrame) : list (option value) :=
  (.!! c) <$> rows df.

(** [df[c].notna()] *)
Definition notna (c : pystr) (df : DataFrame) : list bool :=
  (λ x : option value, bool_decide (is_Some x)) <$> column c df.

(** [df[cols]]: the listed columns, in the listed order. *)
Definition project (cols : list pystr) (df : DataFrame) : DataFrame :=
  {| columns := cols;
     rows := filter (λ kv : pystr * value, kv.1 ∈ cols) <$> rows df |}.

Definition set_cell (c : pystr) (x : option value) (r : row) : row :=
  partial_alter (λ _, x) c r.

(** [df[c] = series], the series having one cell per row: a new column
    goes last. *)
Definition set_column (c : pystr) (series : list (option value)) (df : DataFrame)
  : DataFrame :=
  {| columns := if bool_decide (c ∈ columns df) then columns df
                else columns df ++ [c];
     rows := zip_with (set_cell c) series (rows df) |}.

(** [df[c] = x] for a scalar [x]. *)
Definition set_column_scalar (c : pystr) (x : option value) (df : DataFrame)
  : DataFrame :=
  set_column c (replicate (len df) x) df.

(** Union of column indexes in order of first appearance. *)
Fixpoint union_columns (seen : list pystr) (cs : list pystr) : list pystr :=
  match cs with
  | [] => []
  | c :: cs' =>
      if bool_decide (c ∈ seen) then union_columns seen cs'
      else c :: union_columns (c :: seen) cs'
  end.

(** [pd.concat(dfs, ignore_index=True)]: the columns in the order of
    their first appearance, the rows of one table after those of the
    other. A text cell and a null cell are what they were; the numbers
    of a column that pandas brings to one dtype are left as they were
    read. *)
Definition concat (dfs : list DataFrame) : DataFrame :=
  {| columns := union_columns [] (dfs ≫= columns);
     rows := dfs ≫= rows |}.

(** [df[mask]] for a boolean mask with one entry per row. *)
Fixpoint select_rows (mask : list bool) (rs : list row) : list row :=
  match mask, rs with
  | b :: mask', r :: rs' =>
      if b then r :: select_rows mask' rs' else select_rows mask' rs'
  | _, _ => []
  end.

Definition select (mask : list bool) (df : DataFrame) : DataFrame :=
  {| columns := columns df; rows := select_rows mask (rows df) |}.

(** [Series.duplicated(keep='first')]: an entry is marked when an equal
    one stands before it. Null entries count as equal to each other,
    and the other entries are compared as cells are: exactly, which is
    the comparison of pandas on text. *)
Fixpoint duplicated_after (earlier : list (option value)) (keys : list (option value))
  : list bool :=
  match keys with
  | [] => []
  | k :: keys' =>
      bool_decide (k ∈ earlier) :: duplicated_after (k :: earlier) keys'
  end.

Definition duplicated (c : pystr) (df : DataFrame) : list bool :=
  duplicated_after [] (column c df).

(** [df.drop_duplicates(subset=[c], keep='first')] *)
Definition drop_duplicates (c : pystr) (df : DataFrame) : DataFrame :=
  select (negb <$> duplicated c df) df.

(** [df.drop(columns=cs)] *)
Definition drop_columns (cs : list pystr) (df : DataFrame) : DataFrame :=
  {| columns := filter (λ c, c ∉ cs) (columns df);
     rows := filter (λ kv : pystr * value, kv.1 ∉ cs) <$> rows df |}.

(** [df[c].notna().sum()] *)
Definition notna_sum (c : pystr) (df : DataFrame) : nat :=
  length (filter (λ b : bool, b) (notna c df)).

End Frame.
Export Frame.

(** ** Exceptions, console and disk *)

Module Effects.

(** An instance of [Exception], with the text that [str(e)] gives. *)
Inductive exn := Exception (msg : pystr).

Inductive result (A : Type) :=
| Ok (a : A)
| Raise (e : exn).
Arguments Ok {A} a.
Arguments Raise {A} e.

(** What [pd.read_csv] does on one path of the input directory: with
    [nrows=1] (only the column index is used), and on the whole file. *)
Record csv_source := {
  read_head : result (list pystr);
  read_full : result DataFrame
}.

(** The input directory as [os.path.exists] and [os.listdir] see it. *)
Inductive dir_state :=
| NoSuchPath
| ListingFails (e : exn)
| Entries (names : list pystr).

Record world := {
  input_dir : dir_state;
  files : pystr → csv_source;
  (** [os.makedirs] or [to_csv] failing on the output path *)
  write_error : option exn
}.

(** The messages printed, named after the statement that prints them and
    carrying the values it formats. *)
Inductive event :=
| Banner
| InputDirNotFound
| NoCsvFilesFound
| Found (names : list pystr)
| DetectedImageColumns (n : nat)
| ProcessingFiles
| Processing (name : pystr)
| Rows (n : nat)
| ErrorProcessing (name : pystr) (e : exn)
| NoDataProcessed
| Combining (total : nat)
| DuplicatesRemovedVariant (n : nat)
| DuplicatesRemovedSku (n : nat)
| RemovedEmptyColumns (cs : list pystr)
| Complete (products ncolumns : nat)
| ColumnSummary.

Record state := {
  stdout : list event;
  (** the table written to the output file during the run, if any *)
  output_file : option DataFrame
}.

Definition initial : state := {| stdout := []; output_file := None |}.

Definition io (A : Type) : Type := state → state * result A.

#[global] Instance io_ret : MRet io := λ A a st, (st, Ok a).

#[global] Instance io_bind : MBind io := λ A B f m st,
  match m st with
  | (st', Ok a) => f a st'
  | (st', Raise e) => (st', Raise e)
  end.

Definition raise {A} (e : exn) : io A := λ st, (st, Raise e).

Definition lift {A} (r : result A) : io A := λ st, (st, r).

Definition print (ev : event) : io unit := λ st,
  ({| stdout := stdout st ++ [ev]; output_file := output_file st |}, Ok ()).

(** [try: body  except Exception as e: handler e] *)
Definition try_except {A} (body : io A) (handler : exn → io A) : io A := λ st,
  match body st with
  | (st', Raise e) => handler e st'
  | r => r
  end.

(** [os.makedirs(...)] then [df.to_csv(output_file, ...)] *)
Definition to_csv (w : world) (df : DataFrame) : io unit := λ st,
  match write_error w with
  | Some e => (st, Raise e)
  | None => ({| stdout := stdout st; output_file := Some df |}, Ok ())
  end.

End Effects.
Export Effects.

(** ** The post processor *)

Module PostProcessor.

Definition COLUMNS_TO_KEEP : list pystr := py <$> [
  "sku"; "name"; "brand"; "url_slug"; "product_url";
  "price"; "sale_price"; "discount_percentage";
  "rating_value"; "rating_count"; "is_buyable"; "is_bestseller";
  "deal_tag_text"; "flags"; "estimated_delivery_date";
  "detail_product_title"; "detail_brand"; "detail_feature_bullets";
  "detail_breadcrumbs";
  "detail_category_code"; "detail_all_specifications_json"; "detail_all_images_json";
  "detail_brand_rating"; "detail_is_collection_eligible";
  "detail_available_colors"; "detail_color_variants_json"; "detail_variant_sku"; "detail_size";
  "detail_fbt_count"; "detail_fbt_products_json";
  "detail_price"; "detail_currency"; "detail_sale_price"; "detail_stock";
  "detail_is_buyable"; "detail_is_bestseller";
  "detail_store_name"; "detail_partner_code"; "detail_seller_rating";
  "detail_seller_rating_count"; "detail_seller_positive_rating";
  "detail_seller_as_described_rate";
  "detail_estimated_delivery"; "detail_estimated_delivery_date";
  "detail_shipping_fee_message"; "detail_is_marketplace";
  "detail_is_global"; "detail_is_free_delivery";
  "detail_flags_json"; "detail_bnpl_available"; "detail_cashback_available"
]%string.

Definition IMAGE_COLUMNS : list pystr := py <$> [
  "image_1"; "image_2"; "image_3"; "image_4"; "image_5";
  "image_6"; "image_7"; "image_8"; "image_9"; "image_10";
  "detail_image_1"; "detail_image_2"; "detail_image_3";
  "detail_image_4"; "detail_image_5"
]%string.

(** *** [split_breadcrumbs] *)

(** The dictionary with the keys [category_1] to [category_4]. *)
Record categories := {
  category_1 : option pystr;
  category_2 : option pystr;
  category_3 : option pystr;
  category_4 : option pystr
}.

Definition no_categories : categories :=
  {| category_1 := None; category_2 := None;
     category_3 := None; category_4 := None |}.

(** [categories[f'category_{i}'] = part]; the loop only reaches [i] from
    1 to 4. *)
Definition set_category (i : nat) (part : pystr) (cats : categories) : categories :=
  match i with
  | 1%nat => {| category_1 := Some part; category_2 := category_2 cats;
                category_3 := category_3 cats; category_4 := category_4 cats |}
  | 2%nat => {| category_1 := category_1 cats; category_2 := Some part;
                category_3 := category_3 cats; category_4 := category_4 cats |}
  | 3%nat => {| category_1 := category_1 cats; category_2 := category_2 cats;
                category_3 := Some part; category_4 := category_4 cats |}
  | 4%nat => {| category_1 := category_1 cats; category_2 := category_2 cats;
                category_3 := category_3 cats; category_4 := Some part |}
  | _ => cats
  end.

(** [enumerate(l, start)] *)
Fixpoint enumerate {A} (start : nat) (l : list A) : list (nat * A) :=
  match l with
  | [] => []
  | x :: l' => (start, x) :: enumerate (S start) l'
  end.

Definition gt_sign : N := 62.

Definition split_breadcrumbs (breadcrumb_str : option value) : categories :=
  let categories := no_categories in
  match breadcrumb_str with
  | None => categories
  | Some v =>
      if negb (truthy (strip (py_str v))) then categories
      else
        let parts := strip <$> split gt_sign (py_str v) in
        let parts := take 4 (drop 1 parts) in
        foldl (λ cats ip, set_category ip.1 ip.2 cats) categories
              (enumerate 1 parts)
  end.

(** *** [combine_images] *)

(** One turn of the loop over [image_cols]. *)
Definition combine_images_step (row : Series) (acc : list pystr * gset pystr)
           (col : pystr) : list pystr * gset pystr :=
  let '(images, seen) := acc in
  if bool_decide (col ∈ index row) then
    match cells row !! col with
    | Some v =>
        let url := strip (py_str v) in
        if truthy url && bool_decide (url ∉ seen)
        then (images ++ [url], {[url]} ∪ seen)
        else (images, seen)
    | None => (images, seen)
    end
  else (images, seen).

Definition combine_images (row : Series) (image_cols : list pystr) : option pystr :=
  let '(images, seen) := foldl (combine_images_step row) ([], ∅) image_cols in
  match images with
  | [] => None
  | _ :: _ => Some (Json.dumps images)
  end.

(** *** [process_csv] *)

(** [len(json.loads(x)) if pd.notna(x) else 0]; an undecodable text makes
    [json.loads] raise. *)
Definition image_count_of (x : option value) : result (option value) :=
  match x with
  | None => Ok (Some (VInt 0))
  | Some v =>
      match Json.loads (py_str v) with
      | Some l => Ok (Some (VInt (Z.of_nat (length l))))
      | None => Raise (Exception (py "JSONDecodeError"))
      end
  end.

(** [series.apply(f)] for an [f] that may raise. *)
Fixpoint apply {A B} (f : A → result B) (series : list A) : result (list B) :=
  match series with
  | [] => Ok []
  | x :: series' =>
      match f x with
      | Raise e => Raise e
      | Ok y =>
          match apply f series' with
          | Raise e => Raise e
          | Ok ys => Ok (y :: ys)
          end
      end
  end.

Definition process_csv (w : world) (name : pystr) (image_cols : list pystr)
  : io DataFrame :=
  print (Processing name);;
  df ← lift (read_full (files w name));
  print (Rows (len df));;
  let cols := filter (λ c, c ∈ columns df) COLUMNS_TO_KEEP in
  let df_out := project cols df in
  let df_out :=
    set_column (py "all_images")
               ((λ row, VStr <$> combine_images row image_cols) <$> iterrows df)
               df_out in
  counts ← lift (apply image_count_of (column (py "all_images") df_out));
  let df_out := set_column (py "image_count") counts df_out in
  if bool_decide (py "detail_breadcrumbs" ∈ columns df) then
    let cats := (λ r, split_breadcrumbs (r !! py "detail_breadcrumbs")) <$> rows df in
    match cats with
    | [] =>
        (* [pd.DataFrame([])] has no column: [cats['category_1']] *)
        raise (Exception (py "'category_1'"))
    | _ :: _ =>
        let df_out := set_column (py "category_1") ((λ c, VStr <$> category_1 c) <$> cats) df_out in
        let df_out := set_column (py "category_2") ((λ c, VStr <$> category_2 c) <$> cats) df_out in
        let df_out := set_column (py "category_3") ((λ c, VStr <$> category_3 c) <$> cats) df_out in
        let df_out := set_column (py "category_4") ((λ c, VStr <$> category_4 c) <$> cats) df_out in
        mret df_out
    end
  else
    let df_out := set_column_scalar (py "category_1") None df_out in
    let df_out := set_column_scalar (py "category_2") None df_out in
    let df_out := set_column_scalar (py "category_3") None df_out in
    let df_out := set_column_scalar (py "category_4") None df_out in
    mret df_out.

(** *** [run_post_processor] *)

(** The condition of the comprehension over [os.listdir(input_dir)]. *)
Definition is_input_csv (f : pystr) : bool :=
  endswith f (py ".csv")
  && negb (bool_decide (f = py "audit_table.csv"))
  && negb (startswith f (py "progress")).

(** [sorted([Path(input_dir) / f for f in ... if ...])]: the paths share
    their directory, so they sort as their names do (as strings, the
    comparison of POSIX paths). *)
Definition discover (names : list pystr) : list pystr :=
  merge_sort str_le (filter (λ f, is_input_csv f) names).

(** The loop over [csv_files] with its [try] ... [except Exception]. *)
Fixpoint process_files (w : world) (image_cols : list pystr)
         (csv_files : list pystr) (all_dfs : list DataFrame)
  : io (list DataFrame) :=
  match csv_files with
  | [] => mret all_dfs
  | f :: csv_files' =>
      all_dfs ← try_except
                  (df ← process_csv w f image_cols; mret (all_dfs ++ [df]))
                  (λ e, print (ErrorProcessing f e);; mret all_dfs);
      process_files w image_cols csv_files' all_dfs
  end.

(** The deduplication block. *)
Definition remove_duplicates (combined : DataFrame) : io DataFrame :=
  if bool_decide (py "detail_variant_sku" ∈ columns combined) then
    let before := len combined in
    let has_variant_sku := notna (py "detail_variant_sku") combined in
    let df_with_sku :=
      drop_duplicates (py "detail_variant_sku") (select has_variant_sku combined) in
    let df_without_sku := select (negb <$> has_variant_sku) combined in
    let combined := concat [df_with_sku; df_without_sku] in
    print (DuplicatesRemovedVariant (before - len combined));;
    mret combined
  else if bool_decide (py "sku" ∈ columns combined) then
    let before := len combined in
    let combined := drop_duplicates (py "sku") combined in
    print (DuplicatesRemovedSku (before - len combined));;
    mret combined
  else mret combined.

(** The block that removes the completely empty columns. *)
Definition remove_empty_columns (combined : DataFrame) : io DataFrame :=
  let empty_cols := filter (λ c, notna_sum c combined = 0%nat) (columns combined) in
  match empty_cols with
  | [] => mret combined
  | _ :: _ =>
      let combined := drop_columns empty_cols combined in
      print (RemovedEmptyColumns empty_cols);;
      mret combined
  end.

(** The column summary: [count / len(combined) * 100] divides by the
    number of rows for every column there is. *)
Definition column_summary (combined : DataFrame) : io unit :=
  match columns combined, rows combined with
  | _ :: _, [] => raise (Exception (py "division by zero"))
  | _, _ =>
      print ColumnSummary
  end.

(** The two paths are taken as resolved: [w] tells what is found at the
    input path and whether the output path can be written. *)
Definition run_post_processor (w : world) : io (option DataFrame) :=
  print Banner;;
  match input_dir w with
  | NoSuchPath => print InputDirNotFound;; mret None
  | ListingFails e => raise e
  | Entries names =>
      let csv_files := discover names in
      match csv_files with
      | [] => print NoCsvFilesFound;; mret None
      | first :: _ =>
          print (Found csv_files);;
          first_df_columns ← lift (read_head (files w first));
          let image_cols := filter (λ c, c ∈ first_df_columns) IMAGE_COLUMNS in
          print (DetectedImageColumns (length image_cols));;
          print ProcessingFiles;;
          all_dfs ← process_files w image_cols csv_files [];
          match all_dfs with
          | [] => print NoDataProcessed;; mret None
          | _ :: _ =>
              let combined := concat all_dfs in
              print (Combining (len combined));;
              combined ← remove_duplicates combined;
              combined ← remove_empty_columns combined;
              to_csv w combined;;
              print (Complete (len combined) (length (columns combined)));;
              column_summary combined;;
              mret (Some combined)
          end
      end
  end.

(** A run from an empty console and an output path not yet written. *)
Definition run (w : world) : state * result (option DataFrame) :=
  run_post_processor w initial.

End PostProcessor.
Export PostProcessor.

(** ** Notions the properties are stated with *)

Module Spec.

(** A string without white space at either end. *)
Definition trimmed (s : pystr) : Prop :=
  (∀ c, head s = Some c → is_space c = false)
  ∧ (∀ c, last s = Some c → is_space c = false).

(** A string made of white space only (the empty one included). *)
Definition blank (s : pystr) : Prop := Forall (λ c, is_space c = true) s.

(** The four slots of a [categories] dictionary, in order. *)
Definition slots (c : categories) : list (option pystr) :=
  [category_1 c; category_2 c; category_3 c; category_4 c].

(** Code points that text decoded from a UTF-8 file is made of: the
    Unicode scalar values. *)
Definition scalar_value (c : N) : Prop :=
  c < 55296 ∨ (57343 < c ∧ c < 1114112).

Definition well_formed (s : pystr) : Prop := Forall scalar_value s.

(** The values the image consolidator looks at: the trimmed text of the
    cells that are present and not null, in the order of the candidate
    fields. *)
Definition candidate_urls (row : Series) (image_cols : list pystr) : list pystr :=
  omap (λ col, if bool_decide (col ∈ index row)
               then strip ∘ py_str <$> cells row !! col else None)
       image_cols.

(** First occurrence wins, later duplicates are dropped, the relative
    order is kept. *)
Fixpoint first_occurrences (l : list pystr) : list pystr :=
  match l with
  | [] => []
  | x :: l' => x :: filter (λ y, y ≠ x) (first_occurrences l')
  end.

(** The consolidated image list of a record. *)
Definition consolidated (row : Series) (image_cols : list pystr) : list pystr :=
  first_occurrences (filter (λ u, u ≠ []) (candidate_urls row image_cols)).

(** A computation that only prints: from every state it appends the same
    messages to the console, leaves the output file alone and ends in
    the same way. *)
Definition prints {A} (m : io A) (evs : list event) (r : result A) : Prop :=
  ∀ st, m st = ({| stdout := stdout st ++ evs; output_file := output_file st |}, r).

Definition only_prints {A} (m : io A) : Prop := ∃ evs r, prints m evs r.

(** How the File Transformer ends on one selected file. *)
Definition transform_outcome (w : world) (image_cols : list pystr) (f : pystr)
  : result DataFrame :=
  (process_csv w f image_cols initial).2.

(** The table of a file whose transform returns. *)
Definition transformed (w : world) (image_cols : list pystr) (f : pystr)
  : option DataFrame :=
  match transform_outcome w image_cols f with
  | Ok df => Some df
  | Raise _ => None
  end.

(** The message for a file whose transform raises. *)
Definition transform_error (w : world) (image_cols : list pystr) (f : pystr)
  : option event :=
  match transform_outcome w image_cols f with
  | Ok _ => None
  | Raise e => Some (ErrorProcessing f e)
  end.

(** The combined table after the deduplication block. *)
Definition deduplicated (combined : DataFrame) : DataFrame :=
  match (remove_duplicates combined initial).2 with
  | Ok d => d
  | Raise _ => combined
  end.

(** The table after the block that removes the empty columns. *)
Definition pruned (combined : DataFrame) : DataFrame :=
  match (remove_empty_columns combined initial).2 with
  | Ok d => d
  | Raise _ => combined
  end.

(** What the pipeline makes of the per-file tables. *)
Definition final_table (all_dfs : list DataFrame) : DataFrame :=
  pruned (deduplicated (concat all_dfs)).

(** The dedup key of a combined table: the detail-level variant
    identifier when that column exists, else the plain identifier when
    that one exists. *)
Definition dedup_key (combined : DataFrame) : option pystr :=
  if bool_decide (py "detail_variant_sku" ∈ columns combined)
  then Some (py "detail_variant_sku")
  else if bool_decide (py "sku" ∈ columns combined) then Some (py "sku")
  else None.

(** The derived fields. *)
Definition DERIVED_COLUMNS : list pystr := py <$> [
  "all_images"; "image_count";
  "category_1"; "category_2"; "category_3"; "category_4"
]%string.

(** The Canonical Record made from a product record [r] of a file with the
    columns [present], field by field: the allow-listed fields that the
    file has, as they are; the consolidated images and their number; the
    categories parsed from the breadcrumb field when the file has one. *)
Definition canonical_cell (present image_cols : list pystr) (r : row) (k : pystr)
  : option value :=
  let urls := consolidated {| index := present; cells := r |} image_cols in
  let cats := if bool_decide (py "detail_breadcrumbs" ∈ present)
              then split_breadcrumbs (r !! py "detail_breadcrumbs")
              else no_categories in
  if bool_decide (k = py "all_images") then
    match urls with [] => None | _ :: _ => Some (VStr (Json.dumps urls)) end
  else if bool_decide (k = py "image_count") then Some (VInt (Z.of_nat (length urls)))
  else if bool_decide (k = py "category_1") then VStr <$> category_1 cats
  else if bool_decide (k = py "category_2") then VStr <$> category_2 cats
  else if bool_decide (k = py "category_3") then VStr <$> category_3 cats
  else if bool_decide (k = py "category_4") then VStr <$> category_4 cats
  else if bool_decide (k ∈ COLUMNS_TO_KEEP) && bool_decide (k ∈ present) then r !! k
  else None.

(** The cells of a table lie in its columns. *)
Definition within (df : DataFrame) : Prop :=
  ∀ r c, r ∈ rows df → is_Some (r !! c) → c ∈ columns df.

(** A table of canonical shape: allow-listed and derived columns only. *)
Definition canonical (df : DataFrame) : Prop :=
  ∀ c, c ∈ columns df → c ∈ COLUMNS_TO_KEEP ∨ c ∈ DERIVED_COLUMNS.


(** The rows that [duplicated] leaves unmarked in column [k], the keys in
    [earlier] counting as already met. *)
Definition kept (k : pystr) (earlier : list (option value)) (rs : list row)
  : list row :=
  select_rows (negb <$> duplicated_after earlier ((.!! k) <$> rs)) rs.

(** A cell that the model follows exactly: null, or text. *)
Definition text_cell (x : option value) : Prop :=
  match x with
  | None | Some (VStr _) => True
  | Some _ => False
  end.

#[global] Instance text_cell_dec x : Decision (text_cell x).
Proof. destruct x as [[]|]; simpl; apply _. Defined.

(** A table whose cells under column [k] are text or null. *)
Definition text_column (k : pystr) (df : DataFrame) : Prop :=
  Forall (λ r, text_cell (r !! k)) (rows df).

#[global] Instance text_column_dec k df : Decision (text_column k df).
Proof. unfold text_column. apply _. Defined.

End Spec.
Export Spec.

(** ** Sample directories *)

Module Samples.

Definition unreadable (msg : string) : csv_source :=
  {| read_head := Raise (Exception (py msg));
     read_full := Raise (Exception (py msg)) |}.

Definition readable (df : DataFrame) : csv_source :=
  {| read_head := Ok (columns df); read_full := Ok df |}.

(** A file whose header can be read and whose body cannot. *)
Definition truncated (header : list pystr) (msg : string) : csv_source :=
  {| read_head := Ok header; read_full := Raise (Exception (py msg)) |}.

Definition detail_columns : list pystr :=
  py <$> ["sku"; "name"; "detail_variant_sku"; "detail_breadcrumbs";
          "image_1"; "image_2"; "scraped_at"]%string.

Definition batch_1 : DataFrame :=
  {| columns := detail_columns;
     rows := [
       {[ py "sku" := VStr (py "N1"); py "name" := VStr (py "Doll");
          py "detail_variant_sku" := VStr (py "V1");
          py "detail_breadcrumbs" := VStr (py "Home > Toys > Dolls");
          py "image_1" := VStr (py "http://a"); py "image_2" := VStr (py "http://a");
          py "scraped_at" := VStr (py "2024-01-01") ]};
       {[ py "sku" := VStr (py "N2"); py "name" := VStr (py "Kite");
          py "detail_variant_sku" := VStr (py "V2");
          py "image_1" := VStr (py " http://b ") ]};
       {[ py "sku" := VStr (py "N3"); py "name" := VStr (py "Ball") ]}
     ] |}.

Definition batch_3 : DataFrame :=
  {| columns := detail_columns;
     rows := [
       {[ py "sku" := VStr (py "N1"); py "name" := VStr (py "Doll, boxed");
          py "detail_variant_sku" := VStr (py "V1") ]};
       {[ py "sku" := VStr (py "N3"); py "name" := VStr (py "Ball") ]};
       {[ py "sku" := VStr (py "N4"); py "name" := VStr (py "Drum");
          py "detail_variant_sku" := VStr (py "V4") ]}
     ] |}.

Definition batch_files (f : pystr) : csv_source :=
  if bool_decide (f = py "batch_1.csv") then readable batch_1
  else if bool_decide (f = py "batch_2.csv")
       then truncated detail_columns "Error tokenizing data"
  else if bool_decide (f = py "batch_3.csv") then readable batch_3
  else unreadable "No such file or directory".

(** Three batches, the second one corrupt, next to files that are not
    input. *)
Definition three_batches : world :=
  {| input_dir := Entries [py "batch_3.csv"; py "audit_table.csv"; py "batch_1.csv";
                           py "progress.csv"; py "batch_2.csv"; py "readme.md"];
     files := batch_files;
     write_error := None |}.

(** The same directory listed in another order. *)
Definition three_batches_relisted : world :=
  {| input_dir := Entries [py "readme.md"; py "batch_1.csv"; py "batch_2.csv";
                           py "batch_3.csv"; py "progress.csv"; py "audit_table.csv"];
     files := batch_files;
     write_error := None |}.

(** The same directory without the corrupt batch. *)
Definition two_batches : world :=
  {| input_dir := Entries [py "batch_3.csv"; py "audit_table.csv"; py "batch_1.csv";
                           py "progress.csv"; py "readme.md"];
     files := batch_files;
     write_error := None |}.

(** A listing batch: no variant identifier column, and two products
    without identifier. *)
Definition listing : DataFrame :=
  {| columns := [py "sku"; py "name"];
     rows := [
       {[ py "sku" := VStr (py "N1"); py "name" := VStr (py "Doll") ]};
       {[ py "name" := VStr (py "Kite") ]};
       {[ py "name" := VStr (py "Ball") ]}
     ] |}.

Definition listing_only : world :=
  {| input_dir := Entries [py "listing.csv"];
     files := λ f, if bool_decide (f = py "listing.csv") then readable listing
                   else unreadable "No such file or directory";
     write_error := None |}.

End Samples.
Export Samples.

(** ** The stages of a run, named

    What [run_post_processor] computes on the way to its result, as
    functions of the directory, and what it prints, line by line. *)

Module Pipeline.

(** [csv_files] *)
Definition selected (w : world) : list pystr :=
  match input_dir w with
  | Entries names => discover names
  | _ => []
  end.

(** [image_cols]: the image columns in the header of the first selected
    file. *)
Definition detected (w : world) : list pystr :=
  match selected w with
  | first :: _ =>
      match read_head (files w first) with
      | Ok cols => filter (λ c, c ∈ cols) IMAGE_COLUMNS
      | Raise _ => []
      end
  | [] => []
  end.

(** [all_dfs] at the end of the loop. *)
Definition tables (w : world) : list DataFrame :=
  omap (transformed w (detected w)) (selected w).

(** [combined] before the deduplication block. *)
Definition combined_table (w : world) : DataFrame := concat (tables w).

(** The file and the exception of a transform that raises. *)
Definition failure (w : world) (image_cols : list pystr) (f : pystr)
  : option (pystr * exn) :=
  match transform_outcome w image_cols f with
  | Ok _ => None
  | Raise e => Some (f, e)
  end.

(** The number of rows that [process_csv] prints for a file, when the
    file is read. *)
Definition announced (w : world) (f : pystr) : option nat :=
  match read_full (files w f) with
  | Ok df => Some (len df)
  | Raise _ => None
  end.

(** The lines of the console, by kind. *)
Definition processing_of (ev : event) : option pystr :=
  match ev with Processing f => Some f | _ => None end.

Definition rows_of (ev : event) : option nat :=
  match ev with Rows n => Some n | _ => None end.

Definition error_of (ev : event) : option (pystr * exn) :=
  match ev with ErrorProcessing f e => Some (f, e) | _ => None end.

Definition removed_of (ev : event) : option nat :=
  match ev with
  | DuplicatesRemovedVariant n | DuplicatesRemovedSku n => Some n
  | _ => None
  end.

(** What is printed for one selected file: by [process_csv], and by the
    handler of the loop when the transform raises. *)
Definition read_lines (w : world) (f : pystr) : list event :=
  Processing f ::
  match read_full (files w f) with
  | Ok df => [Rows (len df)]
  | Raise _ => []
  end.

Definition file_lines (w : world) (image_cols : list pystr) (f : pystr)
  : list event :=
  read_lines w f ++
  match transform_outcome w image_cols f with
  | Ok _ => []
  | Raise e => [ErrorProcessing f e]
  end.

(** What the deduplication block prints. *)
Definition dedup_lines (combined : DataFrame) : list event :=
  let removed := (len combined - len (deduplicated combined))%nat in
  if bool_decide (py "detail_variant_sku" ∈ columns combined)
  then [DuplicatesRemovedVariant removed]
  else if bool_decide (py "sku" ∈ columns combined)
       then [DuplicatesRemovedSku removed]
       else [].

(** What the block that removes the empty columns prints. *)
Definition prune_lines (combined : DataFrame) : list event :=
  match filter (λ c, notna_sum c combined = 0%nat) (columns combined) with
  | [] => []
  | (_ :: _) as empty_cols => [RemovedEmptyColumns empty_cols]
  end.

(** What a run prints after the loop over the files. *)
Definition closing_lines (w : world) : list event :=
  match tables w with
  | [] => [NoDataProcessed]
  | _ :: _ =>
      Combining (len (combined_table w))
      :: dedup_lines (combined_table w)
      ++ prune_lines (deduplicated (combined_table w))
      ++ match write_error w with
         | Some _ => []
         | None =>
             [Complete (len (final_table (tables w)))
                       (length (columns (final_table (tables w))));
              ColumnSummary]
         end
  end.

(** A printable ASCII character. *)
Definition printable (c : N) : Prop := 32 ≤ c ∧ c ≤ 126.

(** A cell that holds no text: null, or white space only. *)
Definition blank_cell (x : option value) : Prop :=
  match x with
  | None => True
  | Some v => blank (py_str v)
  end.

(** The number of occurrences of a character. *)
Definition occurrences (c : N) (s : pystr) : nat :=
  length (filter (λ x, x = c) s).

End Pipeline.
Export Pipeline.

(** ** The paths of a run

    [os.path] as [run_post_processor] calls it, on a POSIX system, and
    the defaults that replace an argument left out. *)

Module OsPath.

Definition sep : N := 47.

(** [p.rfind(c)]: the highest index at which [c] stands, or -1. *)
Fixpoint rfind (c : N) (p : pystr) : Z :=
  match p with
  | [] => (-1)%Z
  | x :: p' =>
      let i := rfind c p' in
      if (0 <=? i)%Z then (i + 1)%Z
      else if x =? c then 0%Z else (-1)%Z
  end.

(** [s.rstrip(c)] for a one-character [c]. *)
Fixpoint rstrip_char (c : N) (s : pystr) : pystr :=
  match s with
  | [] => []
  | x :: s' =>
      match rstrip_char c s' with
      | [] => if x =? c then [] else [x]
      | t => x :: t
      end
  end.

(** [os.path.join(a, b)] *)
Definition join (a b : pystr) : pystr :=
  if startswith b [sep] then b
  else if negb (truthy a) || endswith a [sep] then a ++ b
  else a ++ sep :: b.

(** [os.path.dirname(p)] *)
Definition dirname (p : pystr) : pystr :=
  let i := Z.to_nat (rfind sep p + 1) in
  let head := take i p in
  if truthy head && negb (bool_decide (head = replicate (length head) sep))
  then rstrip_char sep head
  else head.

(** [os.path.basename(p)] *)
Definition basename (p : pystr) : pystr :=
  let i := Z.to_nat (rfind sep p + 1) in
  drop i p.

End OsPath.

Module Defaults.

(** The two folders of [Config] that the post processor uses, as text. *)
Record Config := {
  PRODUCT_RAW_FOLDER : pystr;
  PRODUCT_DEDUP_FOLDER : pystr
}.

(** [input_dir] and [output_file] once an argument that is [None] has
    been replaced. *)
Definition input_dir_of (cfg : Config) (arg : option pystr) : pystr :=
  match arg with
  | None => PRODUCT_RAW_FOLDER cfg
  | Some d => d
  end.

Definition output_file_of (cfg : Config) (arg : option pystr) : pystr :=
  match arg with
  | None => OsPath.join (PRODUCT_DEDUP_FOLDER cfg) (py "combined_gift_data.csv")
  | Some f => f
  end.

(** The directory that [os.makedirs] is called with. *)
Definition output_dir_of (output_file : pystr) : pystr :=
  if truthy (OsPath.dirname output_file) then OsPath.dirname output_file
  else py ".".

End Defaults.

(** ** The entry point, [working/main.py]

    The scraping phase, the clock and the logger are outside this file:
    the phase is taken by the way it ends, the clock by the times it
    gives, and the logger records the message it is given and returns. *)

Module Main.

(** What the scraping phase may raise. *)
Inductive raised :=
| KeyboardInterrupt
| AnException (e : exn)
| OtherBaseException (name : pystr).

Inductive level := INFO | WARNING | ERROR.

(** The messages logged, named after their text and carrying the values
    they format; a rule is a line of 70 [=]. *)
Inductive message :=
| SessionStarted (t : Z)
| LoadingConfiguration
| ScrapingInterrupted
| FatalErrorDuringScraping (e : exn)
| ScrapingPhaseEnded (t : Z)
| ScrapingDuration (d : Z)
| Rule (after_blank_line : bool)
| StartingPostProcessingPhase
| PostProcessingCompleted (d : Z)
| PostProcessingError (e : exn)
| Traceback (e : exn)
| TotalSessionComplete
| Started (t : Z)
| Ended (t : Z)
| Duration (d : Z).

Record process := {
  (** how [NoonScraperManager()] and [manager.run(...)] end: [None]
      when they return *)
  scraping : option raised;
  (** what the successive calls of [datetime.now()] return *)
  clock : nat → Z;
  (** what [run_post_processor()] finds at its default paths *)
  disk : world
}.

(** What is printed: the banner of [print_banner], and the lines of the
    post processor. *)
Inductive line :=
| StartupBanner
| PostProcessorLine (ev : event).

Record session := {
  terminal : list line;
  log : list (level * message);
  ticks : nat;
  written : option DataFrame
}.

Definition start : session :=
  {| terminal := []; log := []; ticks := 0; written := None |}.

Definition print_banner (s : session) : session :=
  {| terminal := terminal s ++ [StartupBanner]; log := log s;
     ticks := ticks s; written := written s |}.

Definition logger (lvl : level) (m : message) (s : session) : session :=
  {| terminal := terminal s; log := log s ++ [(lvl, m)];
     ticks := ticks s; written := written s |}.

(** [datetime.now()] *)
Definition now (p : process) (s : session) : Z * session :=
  (clock p (ticks s),
   {| terminal := terminal s; log := log s;
      ticks := S (ticks s); written := written s |}).

(** [run_post_processor()] *)
Definition post_processor (p : process) (s : session)
  : session * result (option DataFrame) :=
  let '(st, r) := run (disk p) in
  ({| terminal := terminal s ++ (PostProcessorLine <$> stdout st); log := log s;
      ticks := ticks s; written := output_file st |}, r).

(** The block under [if scraping_success]. *)
Definition post_processing_phase (p : process) (s : session) : session :=
  let s := logger INFO (Rule true) s in
  let s := logger INFO StartingPostProcessingPhase s in
  let s := logger INFO (Rule false) s in
  (* try *)
  let '(post_start, s) := now p s in
  let '(s, r) := post_processor p s in
  match r with
  | Ok _ =>
      let '(post_end, s) := now p s in
      logger INFO (PostProcessingCompleted (post_end - post_start)) s
  | Raise e =>
      (* except Exception as e *)
      let s := logger ERROR (PostProcessingError e) s in
      logger ERROR (Traceback e) s
  end.

(** [main()]: the session at its end, and the exception that leaves it,
    if any. *)
Definition main (p : process) : session * option raised :=
  let s := print_banner start in
  let '(start_time, s) := now p s in
  let s := logger INFO (SessionStarted start_time) s in
  let s := logger INFO LoadingConfiguration s in
  let scraping_success := false in
  (* try ... except KeyboardInterrupt ... except Exception ... *)
  let '(s, scraping_success, leaving) :=
    match scraping p with
    | None => (s, true, None)
    | Some KeyboardInterrupt =>
        (logger WARNING ScrapingInterrupted s, true, None)
    | Some (AnException e) =>
        (logger ERROR (FatalErrorDuringScraping e) s, scraping_success,
         Some (AnException e))
    | Some (OtherBaseException name) =>
        (s, scraping_success, Some (OtherBaseException name))
    end in
  (* finally *)
  let '(scrape_end_time, s) := now p s in
  let s := logger INFO (ScrapingPhaseEnded scrape_end_time) s in
  let s := logger INFO (ScrapingDuration (scrape_end_time - start_time)) s in
  match leaving with
  | Some b => (s, Some b)
  | None =>
      let s := if scraping_success then post_processing_phase p s else s in
      let '(end_time, s) := now p s in
      let s := logger INFO (Rule true) s in
      let s := logger INFO TotalSessionComplete s in
      let s := logger INFO (Started start_time) s in
      let s := logger INFO (Ended end_time) s in
      let s := logger INFO (Duration (end_time - start_time)) s in
      let s := logger INFO (Rule false) s in
      (s, None)
  end.

End Main.

(** ** Further samples *)

Module MoreSamples.

(** A record whose image address holds an accented letter and an emoji. *)
Definition accented : Series :=
  {| index := [py "image_1"];
     cells := {[ py "image_1" := VStr (py "http://caf" ++ [233; 128512]) ]} |}.

(** The same image under two names, once with spaces around it. *)
Definition padded : Series :=
  {| index := [py "image_1"; py "image_2"];
     cells := {[ py "image_1" := VStr (py " http://a ") ]} |}.

Definition plain : Series :=
  {| index := [py "image_1"; py "image_2"];
     cells := {[ py "image_2" := VStr (py "http://a") ]} |}.

(** Two batches: the first without any image column, the second with
    one. *)
Definition bare_batch : DataFrame :=
  {| columns := [py "sku"; py "name"];
     rows := [ {[ py "sku" := VStr (py "N1"); py "name" := VStr (py "Doll") ]} ] |}.



(** The directory of the three batches with a note beside them and
    another audit table. *)
Definition three_batches_audited : world :=
  {| input_dir := Entries [py "batch_3.csv"; py "audit_table.csv"; py "batch_1.csv";
                           py "progress.csv"; py "batch_2.csv"; py "readme.md";
                           py "notes.txt"];
     files := λ f, if bool_decide (f = py "audit_table.csv") then readable bare_batch
                   else batch_files f;
     write_error := None |}.

End MoreSamples.
Export MoreSamples.

(** * Properties *)

(** ** Strings *)

Section strings.

Implicit Types (s t seg : pystr) (c sep : N).

Lemma split_not_nil sep s : split sep s ≠ [].
Proof.
  destruct s as [|c s]; simpl; [done|].
  destruct (c =? sep); [done|]. by destruct (split sep s).
Qed.

Lemma split_cons_other sep c s :
  c ≠ sep →
  ∃ seg segs, split sep s = seg :: segs ∧ split sep (c :: s) = (c :: seg) :: segs.
Proof.
  intros Hc. simpl. apply N.eqb_neq in Hc as ->.
  destruct (split sep s) as [|seg segs] eqn:E; [by apply split_not_nil in E|].
  eauto.
Qed.

(** A separator after a segment free of it cuts exactly there. *)
Lemma split_app_sep sep seg s :
  sep ∉ seg → split sep (seg ++ sep :: s) = seg :: split sep s.
Proof.
  induction seg as [|c seg IH]; intros Hseg; simpl.
  - by rewrite N.eqb_refl.
  - apply not_elem_of_cons in Hseg as [Hc Hseg].
    assert ((c =? sep) = false) as -> by (apply N.eqb_neq; congruence).
    by rewrite IH.
Qed.

Lemma split_no_sep sep s : sep ∉ s → split sep s = [s].
Proof.
  induction s as [|c s IH]; intros Hs; simpl; [done|].
  apply not_elem_of_cons in Hs as [Hc Hs].
  assert ((c =? sep) = false) as -> by (apply N.eqb_neq; congruence).
  by rewrite IH.
Qed.

(** [split] undoes [join] on segments free of the separator. *)
Lemma split_join sep (segs : list pystr) :
  segs ≠ [] → Forall (λ seg, sep ∉ seg) segs → split sep (join sep segs) = segs.
Proof.
  induction segs as [|seg segs IH]; intros Hne Hall; [done|].
  apply Forall_cons in Hall as [Hseg Hall].
  destruct segs as [|seg' segs]; simpl.
  - by apply split_no_sep.
  - rewrite split_app_sep by done. f_equal. by apply IH.
Qed.

Lemma lstrip_blank s : blank s → lstrip s = [].
Proof.
  induction 1 as [|c s Hc _ IH]; simpl; [done|]. by rewrite Hc.
Qed.

Lemma lstrip_nil_inv s : lstrip s = [] → blank s.
Proof.
  induction s as [|c s IH]; simpl; [by intros; apply Forall_nil|].
  destruct (is_space c) eqn:Hc; [|done]. intros. apply Forall_cons_2; [done|by apply IH].
Qed.

Lemma rstrip_blank s : blank s → rstrip s = [].
Proof.
  induction 1 as [|c s Hc _ IH]; simpl; [done|]. by rewrite IH, Hc.
Qed.

Lemma rstrip_nil_inv s : rstrip s = [] → blank s.
Proof.
  induction s as [|c s IH]; simpl; [by intros; apply Forall_nil|].
  destruct (rstrip s) eqn:E; [|done].
  destruct (is_space c) eqn:Hc; [|done]. intros. apply Forall_cons_2; [done|by apply IH].
Qed.

(** What [lstrip] removes is white space. *)
Lemma lstrip_decompose s : ∃ l, s = l ++ lstrip s ∧ blank l.
Proof.
  induction s as [|c s (l & Hl & Hb)]; simpl.
  - exists []. split; [done|apply Forall_nil_2].
  - destruct (is_space c) eqn:Hc.
    + exists (c :: l). split; [simpl; by rewrite <-Hl|by apply Forall_cons_2].
    + exists []. split; [done|apply Forall_nil_2].
Qed.

(** What [rstrip] removes is white space. *)
Lemma rstrip_decompose s : ∃ r, s = rstrip s ++ r ∧ blank r.
Proof.
  induction s as [|c s (r & Hr & Hb)]; simpl.
  - exists []. split; [done|apply Forall_nil_2].
  - destruct (rstrip s) as [|c' t] eqn:E.
    + simpl in Hr. subst r. destruct (is_space c) eqn:Hc.
      * exists (c :: s). split; [done|by apply Forall_cons_2].
      * by exists s.
    + exists r. split; [|done]. rewrite Hr at 1. done.
Qed.

Lemma lstrip_head s c : head (lstrip s) = Some c → is_space c = false.
Proof.
  induction s as [|c' s IH]; simpl; [done|].
  destruct (is_space c') eqn:Hc; [done|]. simpl. congruence.
Qed.

Lemma rstrip_head s c :
  is_space c = false → ∃ t, rstrip (c :: s) = c :: t.
Proof.
  intros Hc. simpl. destruct (rstrip s); rewrite ?Hc; eauto.
Qed.

Lemma rstrip_last s c : last (rstrip s) = Some c → is_space c = false.
Proof.
  induction s as [|c' s IH]; simpl; [done|].
  destruct (rstrip s) as [|c'' t] eqn:E.
  - destruct (is_space c') eqn:Hc; simpl; [done|congruence].
  - change (last (c' :: c'' :: t)) with (last (c'' :: t)). done.
Qed.

(** [strip] leaves a trimmed string. *)
Lemma strip_trimmed s : trimmed (strip s).
Proof.
  split; intros c Hc; unfold strip in *.
  - destruct (lstrip s) as [|c' t] eqn:E; [done|].
    assert (is_space c' = false) as Hc'
      by (apply (lstrip_head s); by rewrite E).
    destruct (rstrip_head t c' Hc') as [t' Ht']. rewrite Ht' in Hc.
    simpl in Hc. congruence.
  - by apply rstrip_last in Hc.
Qed.

(** [strip] removes white space from both ends and nothing else. *)
Lemma strip_decompose s : ∃ l r, s = l ++ strip s ++ r ∧ blank l ∧ blank r.
Proof.
  destruct (lstrip_decompose s) as (l & Hl & Hbl).
  destruct (rstrip_decompose (lstrip s)) as (r & Hr & Hbr).
  exists l, r. split_and!; [|done..]. unfold strip. by rewrite <-Hr.
Qed.

Lemma strip_blank s : blank s → strip s = [].
Proof. intros Hs. unfold strip. by rewrite lstrip_blank. Qed.

Lemma strip_nil_inv s : strip s = [] → blank s.
Proof.
  intros Hs. destruct (strip_decompose s) as (l & r & Heq & Hl & Hr).
  rewrite Heq, Hs. simpl. by apply Forall_app.
Qed.

Lemma truthy_strip_false s : truthy (strip s) = false ↔ blank s.
Proof.
  split.
  - intros H. apply strip_nil_inv. by destruct (strip s).
  - intros H. by rewrite strip_blank.
Qed.

(** A trimmed string is left as it is. *)
Lemma strip_of_trimmed s : trimmed s → strip s = s.
Proof.
  intros [Hh Hl]. unfold strip.
  assert (lstrip s = s) as ->.
  { destruct s as [|c s]; simpl; [done|]. by rewrite (Hh c). }
  clear Hh. induction s as [|c s IH]; simpl; [done|].
  destruct s as [|c' s].
  - simpl. by rewrite (Hl c).
  - rewrite IH by done. done.
Qed.

End strings.

(** ** The breadcrumb parser *)

Section breadcrumbs.

Implicit Types (v : value) (s : pystr).

(** On an input that is neither missing nor blank, slot [i] is segment
    [i] of the trimmed segments, counted from 0: segment 0 is skipped
    and segments from 5 on are not used. *)
Lemma split_breadcrumbs_segments v :
  ¬ blank (py_str v) →
  let segs := strip <$> split gt_sign (py_str v) in
  split_breadcrumbs (Some v) =
    {| category_1 := segs !! 1%nat; category_2 := segs !! 2%nat;
       category_3 := segs !! 3%nat; category_4 := segs !! 4%nat |}.
Proof.
  intros Hnb. unfold split_breadcrumbs.
  destruct (truthy (strip (py_str v))) eqn:Ht.
  - simpl. generalize (strip <$> split gt_sign (py_str v)).
    intros [|s0 [|s1 [|s2 [|s3 [|s4 rest]]]]]; reflexivity.
  - by apply truthy_strip_false in Ht.
Qed.

Lemma split_breadcrumbs_blank v :
  blank (py_str v) → split_breadcrumbs (Some v) = no_categories.
Proof.
  intros Hb. unfold split_breadcrumbs.
  by apply truthy_strip_false in Hb as ->.
Qed.

Lemma split_breadcrumbs_one_segment v :
  gt_sign ∉ py_str v → split_breadcrumbs (Some v) = no_categories.
Proof.
  intros Hs. unfold split_breadcrumbs.
  destruct (truthy _); [|done]. simpl. by rewrite split_no_sep.
Qed.

Lemma join_not_blank s0 s1 (segs : list pystr) :
  ¬ blank (join gt_sign (s0 :: s1 :: segs)).
Proof.
  intros Hb. change (join gt_sign (s0 :: s1 :: segs))
    with (s0 ++ gt_sign :: join gt_sign (s1 :: segs)) in Hb.
  apply Forall_app in Hb as [_ Hb]. by apply Forall_cons in Hb as [? _].
Qed.

(** C3. The parser cuts at every ['>'], trims the segments, skips the first
    one and gives the next four, in order, to [category_1] ..
    [category_4]: the documented example; a single segment, a blank and a
    missing input leave the four slots null; of six segments the sixth is
    dropped. *)
Theorem split_breadcrumbs_spec :
  (∀ v, ¬ blank (py_str v) →
     let segs := strip <$> split gt_sign (py_str v) in
     split_breadcrumbs (Some v) =
       {| category_1 := segs !! 1%nat; category_2 := segs !! 2%nat;
          category_3 := segs !! 3%nat; category_4 := segs !! 4%nat |})
  ∧ split_breadcrumbs
      (Some (VStr (py "Home > Baby Products > Nursing & Feeding > Breastfeeding > Pumps")))
    = {| category_1 := Some (py "Baby Products");
         category_2 := Some (py "Nursing & Feeding");
         category_3 := Some (py "Breastfeeding");
         category_4 := Some (py "Pumps") |}
  ∧ (∀ v, gt_sign ∉ py_str v → split_breadcrumbs (Some v) = no_categories)
  ∧ (∀ v, blank (py_str v) → split_breadcrumbs (Some v) = no_categories)
  ∧ split_breadcrumbs None = no_categories
  ∧ (∀ s0 s1 s2 s3 s4 s5,
       Forall (λ seg, gt_sign ∉ seg) [s0; s1; s2; s3; s4; s5] →
       split_breadcrumbs (Some (VStr (join gt_sign [s0; s1; s2; s3; s4; s5])))
       = {| category_1 := Some (strip s1); category_2 := Some (strip s2);
            category_3 := Some (strip s3); category_4 := Some (strip s4) |}).
Proof.
  split_and!.
  - apply split_breadcrumbs_segments.
  - reflexivity.
  - apply split_breadcrumbs_one_segment.
  - apply split_breadcrumbs_blank.
  - reflexivity.
  - intros s0 s1 s2 s3 s4 s5 Hsegs.
    rewrite split_breadcrumbs_segments by apply join_not_blank.
    change (py_str (VStr ?s)) with s. by rewrite split_join.
Qed.

Lemma split_breadcrumbs_spec_witness :
  Forall (λ seg, gt_sign ∉ seg)
         [py "a"; py "b "; py "c"; py " d "; py "e"; py "f"]
  ∧ split_breadcrumbs (Some (VStr (py "a>b >c> d >e>f")))
    = {| category_1 := Some (py "b"); category_2 := Some (py "c");
         category_3 := Some (py "d"); category_4 := Some (py "e") |}.
Proof.
  assert (Forall (λ seg, gt_sign ∉ seg)
                 [py "a"; py "b "; py "c"; py " d "; py "e"; py "f"]) as Hsegs
    by (apply (bool_decide_unpack _); vm_compute; exact I).
  split; [exact Hsegs|].
  destruct split_breadcrumbs_spec as (_ & _ & _ & _ & _ & H).
  exact (H (py "a") (py "b ") (py "c") (py " d ") (py "e") (py "f") Hsegs).
Defined.

End breadcrumbs.

Section breadcrumb_slots.

(** C4 as stated fails: a blank segment between two separators fills its
    slot with the empty string, not with null. *)
Lemma split_breadcrumbs_empty_slot :
  slots (split_breadcrumbs (Some (VStr (py "Home > > Toys"))))
  = [Some []; Some (py "Toys"); None; None].
Proof. reflexivity. Qed.

(** C4, amended. A slot is null or a trimmed segment, which is the empty
    string when the segment is blank; it is null exactly when the input is
    missing or blank or has no segment for the slot. *)
Theorem split_breadcrumbs_slot (b : option value) (i : nat) (slot : option pystr) :
  slots (split_breadcrumbs b) !! i = Some slot →
  match slot with
  | Some s =>
      trimmed s
      ∧ ∃ v seg, b = Some v ∧ ¬ blank (py_str v)
                 ∧ split gt_sign (py_str v) !! S i = Some seg ∧ s = strip seg
  | None =>
      b = None
      ∨ ∃ v, b = Some v
             ∧ (blank (py_str v) ∨ (length (split gt_sign (py_str v)) ≤ S i)%nat)
  end.
Proof.
  intros Hslot. destruct b as [v|]; [|destruct slot; [|by left]].
  2:{ by destruct i as [|[|[|[|i]]]]. }
  destruct (decide (blank (py_str v))) as [Hb|Hnb].
  { rewrite split_breadcrumbs_blank in Hslot by done.
    destruct slot; [by destruct i as [|[|[|[|i]]]]|]. right. eauto. }
  rewrite split_breadcrumbs_segments in Hslot by done.
  assert (i < 4)%nat as Hi by (apply lookup_lt_Some in Hslot; simpl in Hslot; lia).
  assert (slot = (strip <$> split gt_sign (py_str v)) !! S i) as ->.
  { destruct i as [|[|[|[|i]]]]; simpl in Hslot; try lia; congruence. }
  rewrite list_lookup_fmap.
  destruct (split gt_sign (py_str v) !! S i) as [seg|] eqn:Hseg; simpl.
  - split; [apply strip_trimmed|]. by exists v, seg.
  - right. exists v. split; [done|]. right. by apply lookup_ge_None.
Qed.

Lemma split_breadcrumbs_slot_witness :
  slots (split_breadcrumbs (Some (VStr (py "Home > > Toys")))) !! 0%nat = Some (Some [])
  ∧ trimmed []
  ∧ ∃ v seg, Some (VStr (py "Home > > Toys")) = Some v ∧ ¬ blank (py_str v)
             ∧ split gt_sign (py_str v) !! 1%nat = Some seg ∧ [] = strip seg.
Proof.
  split; [reflexivity|].
  exact (split_breadcrumbs_slot (Some (VStr (py "Home > > Toys"))) 0 (Some [])
                                eq_refl).
Defined.

End breadcrumb_slots.

(** ** The JSON codec: decoding what was encoded *)

Section json.

Import Json.

Implicit Types (s rest text : pystr) (c n : N).

(** Linear arithmetic with divisions and remainders by constants. *)
Ltac div_lia := zify; Z.to_euclidean_division_equations; lia.

Lemma hex_val_hex_char d : d < 16 → hex_val (hex_char d) = Some d.
Proof.
  intros Hd. assert (d ∈ N.of_nat <$> seq 0 16) as Hin.
  { apply list_elem_of_fmap. exists (N.to_nat d). split; [lia|].
    apply elem_of_seq. lia. }
  vm_compute in Hin. set_unfold in Hin. 
  repeat (destruct Hin as [->|Hin]; [by vm_compute|]). done.
Qed.

(** The four digits written for [n] read back as [n]. *)
Lemma decode_hex4_u_escape n :
  n < 65536 →
  ∃ a b c d, u_escape n = [backslash; letter_u; a; b; c; d]
             ∧ decode_hex4 a b c d = Some n.
Proof.
  intros Hn. eexists _, _, _, _. split; [reflexivity|].
  unfold decode_hex4.
  rewrite !hex_val_hex_char by (apply N.mod_lt; lia). simpl.
  f_equal. div_lia.
Qed.

Lemma lor_shifted a b k : b < 2 ^ k → N.lor (a * 2 ^ k) b = a * 2 ^ k + b.
Proof.
  intros Hb. assert (N.land (a * 2 ^ k) b = 0) as Hland.
  { apply N.bits_inj_0. intros m. rewrite N.land_spec.
    destruct (decide (m < k)) as [Hm|Hm].
    - by rewrite N.mul_pow2_bits_low.
    - rewrite <-(N.mod_small b (2 ^ k)) by done.
      rewrite N.mod_pow2_bits_high by lia. apply andb_false_r. }
  by rewrite <-N.lxor_lor, <-N.add_nocarry_lxor.
Qed.

(** The surrogate pair written for a code point beyond the basic plane. *)
Lemma surrogate_pair c :
  65536 ≤ c →
  let n := c - 65536 in
  let s1 := N.lor 55296 (N.land (N.shiftr n 10) 1023) in
  let s2 := N.lor 56320 (N.land n 1023) in
  is_high_surrogate s1 = true ∧ is_low_surrogate s2 = true
  ∧ (c < 1114112 → 65536 + N.lor (N.shiftl (s1 - 55296) 10) (s2 - 56320) = c).
Proof.
  intros Hc n s1 s2.
  assert (∀ x, N.land x 1023 = x mod 1024) as Hland
    by (intros x; apply (N.land_ones x 10)).
  assert (∀ y, y < 1024 → N.lor 55296 y = 55296 + y) as Hhi
    by (intros y Hy; apply (lor_shifted 54 y 10 Hy)).
  assert (∀ y, y < 1024 → N.lor 56320 y = 56320 + y) as Hlo
    by (intros y Hy; apply (lor_shifted 55 y 10 Hy)).
  assert (s1 = 55296 + (n / 1024) mod 1024) as Hs1.
  { unfold s1. rewrite Hland, Hhi by (apply N.mod_lt; lia).
    by rewrite (N.shiftr_div_pow2 n 10). }
  assert (s2 = 56320 + n mod 1024) as Hs2.
  { unfold s2. rewrite Hland, Hlo by (apply N.mod_lt; lia). done. }
  assert (n = c - 65536) as Hn by done. clearbody s1 s2 n.
  assert ((n / 1024) mod 1024 < 1024) by (apply N.mod_lt; lia).
  assert (n mod 1024 < 1024) by (apply N.mod_lt; lia).
  split_and!.
  - unfold is_high_surrogate. rewrite Hs1.
    apply andb_true_iff; split; apply N.leb_le; div_lia.
  - unfold is_low_surrogate. rewrite Hs2.
    apply andb_true_iff; split; apply N.leb_le; div_lia.
  - intros Hmax. rewrite Hs1, Hs2.
    replace (55296 + (n / 1024) mod 1024 - 55296) with ((n / 1024) mod 1024)
      by div_lia.
    replace (56320 + n mod 1024 - 56320) with (n mod 1024) by div_lia.
    rewrite (N.shiftl_mul_pow2 _ 10), (lor_shifted _ _ 10) by done.
    change (2 ^ 10) with 1024.
    div_lia.
Qed.

(** The shapes [escape_char] gives to one code point. *)
Lemma escape_char_cases c :
  (escape_char c = [c] ∧ (c =? quote) = false ∧ (c =? backslash) = false
   ∧ (c <? 32) = false)
  ∨ (∃ e, escape_char c = [backslash; e] ∧ (e =? letter_u) = false
          ∧ unescape_short e = Some c)
  ∨ (c < 65536 ∧ escape_char c = u_escape c)
  ∨ (65536 ≤ c
     ∧ escape_char c =
         u_escape (N.lor 55296 (N.land (N.shiftr (c - 65536) 10) 1023))
         ++ u_escape (N.lor 56320 (N.land (c - 65536) 1023))).
Proof.
  unfold escape_char.
  destruct (c =? quote) eqn:E1;
    [apply N.eqb_eq in E1 as ->; right; left; by eexists|].
  destruct (c =? backslash) eqn:E2;
    [apply N.eqb_eq in E2 as ->; right; left; by eexists|].
  destruct (c =? 8) eqn:E3;
    [apply N.eqb_eq in E3 as ->; right; left; by eexists|].
  destruct (c =? 12) eqn:E4;
    [apply N.eqb_eq in E4 as ->; right; left; by eexists|].
  destruct (c =? 10) eqn:E5;
    [apply N.eqb_eq in E5 as ->; right; left; by eexists|].
  destruct (c =? 13) eqn:E6;
    [apply N.eqb_eq in E6 as ->; right; left; by eexists|].
  destruct (c =? 9) eqn:E7;
    [apply N.eqb_eq in E7 as ->; right; left; by eexists|].
  destruct ((32 <=? c) && (c <=? 126)) eqn:E8.
  { left. split_and!; [done..|].
    apply andb_true_iff in E8 as [?%N.leb_le _]. apply N.ltb_ge. lia. }
  destruct (c <? 65536) eqn:E9.
  - right. right. left. split; [by apply N.ltb_lt|done].
  - right. right. right. split; [by apply N.ltb_ge|done].
Qed.

Lemma scan_quote rest : scanstring (quote :: rest) = Some ([], rest).
Proof. reflexivity. Qed.

Lemma scan_plain c text :
  (c =? quote) = false → (c =? backslash) = false → (c <? 32) = false →
  scanstring (c :: text) = cons_out c (scanstring text).
Proof. intros H1 H2 H3. simpl. by rewrite H1, H2, H3. Qed.

Lemma scan_short e c text :
  (e =? letter_u) = false → unescape_short e = Some c →
  scanstring (backslash :: e :: text) = cons_out c (scanstring text).
Proof. intros H1 H2. simpl. by rewrite H1, H2. Qed.

Lemma scan_u_not_high a b c' d n text :
  decode_hex4 a b c' d = Some n → is_high_surrogate n = false →
  scanstring (backslash :: letter_u :: a :: b :: c' :: d :: text)
  = cons_out n (scanstring text).
Proof. intros H1 H2. simpl. by rewrite H1, H2. Qed.

Lemma scan_u_pair a b c' d n a2 b2 c2 d2 m text :
  decode_hex4 a b c' d = Some n → is_high_surrogate n = true →
  decode_hex4 a2 b2 c2 d2 = Some m → is_low_surrogate m = true →
  scanstring (backslash :: letter_u :: a :: b :: c' :: d
              :: backslash :: letter_u :: a2 :: b2 :: c2 :: d2 :: text)
  = cons_out (65536 + N.lor (N.shiftl (n - 55296) 10) (m - 56320))
             (scanstring text).
Proof. intros H1 H2 H3 H4. simpl. by rewrite H1, H2, H3, H4. Qed.

Lemma scan_u_high_then_u a b c' d n a2 b2 c2 d2 m text :
  decode_hex4 a b c' d = Some n → is_high_surrogate n = true →
  decode_hex4 a2 b2 c2 d2 = Some m → is_low_surrogate m = false →
  scanstring (backslash :: letter_u :: a :: b :: c' :: d
              :: backslash :: letter_u :: a2 :: b2 :: c2 :: d2 :: text)
  = cons_out n (scanstring (backslash :: letter_u :: a2 :: b2 :: c2 :: d2 :: text)).
Proof. intros H1 H2 H3 H4. simpl. by rewrite H1, H2, H3, H4. Qed.

Lemma scan_u_high_then_other a b c' d n text :
  decode_hex4 a b c' d = Some n → is_high_surrogate n = true →
  (∀ text', text ≠ backslash :: letter_u :: text') →
  scanstring (backslash :: letter_u :: a :: b :: c' :: d :: text)
  = cons_out n (scanstring text).
Proof.
  intros H1 H2 Hne.
  change (scanstring (backslash :: letter_u :: a :: b :: c' :: d :: text))
    with (match decode_hex4 a b c' d with
          | None => None
          | Some uni =>
              if is_high_surrogate uni then
                match text with
                | b1 :: u1 :: s4 =>
                    if (b1 =? backslash) && (u1 =? letter_u) then
                      match s4 with
                      | a2 :: b2 :: c2 :: d2 :: s5 =>
                          match decode_hex4 a2 b2 c2 d2 with
                          | None => None
                          | Some uni2 =>
                              if is_low_surrogate uni2 then
                                cons_out
                                  (65536 + N.lor (N.shiftl (uni - 55296) 10)
                                                 (uni2 - 56320))
                                  (scanstring s5)
                              else cons_out uni (scanstring text)
                          end
                      | _ => None
                      end
                    else cons_out uni (scanstring text)
                | _ => cons_out uni (scanstring text)
                end
              else cons_out uni (scanstring text)
          end).
  rewrite H1, H2. destruct text as [|b1 [|u1 s4]]; [done..|].
  destruct (b1 =? backslash) eqn:Eb; [|done].
  destruct (u1 =? letter_u) eqn:Eu; [|done].
  apply N.eqb_eq in Eb as ->. apply N.eqb_eq in Eu as ->. by destruct (Hne s4).
Qed.

Lemma high_not_low n : is_high_surrogate n = true → is_low_surrogate n = false.
Proof.
  unfold is_high_surrogate, is_low_surrogate.
  intros [_ ?%N.leb_le]%andb_true_iff.
  apply andb_false_iff. left. apply N.leb_gt. lia.
Qed.

Lemma high_not_scalar n : is_high_surrogate n = true → ¬ scalar_value n.
Proof.
  unfold is_high_surrogate, scalar_value.
  intros [?%N.leb_le ?%N.leb_le]%andb_true_iff. lia.
Qed.

Lemma high_below n : is_high_surrogate n = true → n < 65536.
Proof.
  unfold is_high_surrogate. intros [_ ?%N.leb_le]%andb_true_iff. lia.
Qed.

Lemma low_below n : is_low_surrogate n = true → n < 65536.
Proof.
  unfold is_low_surrogate. intros [_ ?%N.leb_le]%andb_true_iff. lia.
Qed.

Lemma escape_cons c s : escape (c :: s) = escape_char c ++ escape s.
Proof. reflexivity. Qed.

(** The decoder reads an escaped string up to its closing quote, and
    reads back the string itself when it is made of scalar values. *)
Lemma scanstring_escape s rest :
  ∃ out, scanstring (escape s ++ quote :: rest) = Some (out, rest)
         ∧ (well_formed s → out = s).
Proof.
  remember (length s) as k eqn:Hk. revert s Hk.
  induction k as [k IH] using lt_wf_ind. intros [|c s] Hk.
  { exists []. split; [reflexivity|done]. }
  simpl in Hk.
  destruct (IH (length s) ltac:(lia) s eq_refl) as (out & Hout & Hwf).
  rewrite escape_cons, <-app_assoc.
  destruct (escape_char_cases c)
    as [(-> & H1 & H2 & H3)|[(e & -> & H1 & H2)|[(Hc & ->)|(Hc & ->)]]].
  - (* a character written as it is *)
    exists (c :: out). simpl app. rewrite scan_plain, Hout by done.
    split; [done|]. intros [_ ?]%Forall_cons. by rewrite Hwf.
  - (* a two-character escape *)
    exists (c :: out). simpl app. rewrite (scan_short e c), Hout by done.
    split; [done|]. intros [_ ?]%Forall_cons. by rewrite Hwf.
  - (* one \u escape *)
    destruct (decode_hex4_u_escape c Hc) as (a & b & c' & d & -> & Hdec).
    simpl app.
    destruct (is_high_surrogate c) eqn:Hhigh.
    2:{ exists (c :: out). rewrite (scan_u_not_high _ _ _ _ c), Hout by done.
        split; [done|]. intros [_ ?]%Forall_cons. by rewrite Hwf. }
    assert (∀ o, (well_formed (c :: s) → o = c :: s)) as Hnwf.
    { intros o [? _]%Forall_cons. by destruct (high_not_scalar c). }
    destruct s as [|c2 s2].
    { exists (c :: out). split; [|by apply Hnwf].
      rewrite (scan_u_high_then_other _ _ _ _ c), Hout; [done..|]. by intros text' [=]. }
    rewrite escape_cons, <-app_assoc in Hout |- *.
    destruct (escape_char_cases c2)
      as [(Heq & H1 & H2 & H3)|[(e & Heq & H1 & H2)|[(Hc2 & Heq)|(Hc2 & Heq)]]];
      rewrite Heq in Hout |- *.
    + exists (c :: out). split; [|by apply Hnwf].
      rewrite (scan_u_high_then_other _ _ _ _ c), Hout; [done..|].
      intros text' [= ->]. done.
    + exists (c :: out). split; [|by apply Hnwf].
      rewrite (scan_u_high_then_other _ _ _ _ c), Hout; [done..|].
      intros text' [= ->]. done.
    + destruct (decode_hex4_u_escape c2 Hc2) as (a2 & b2 & c2' & d2 & Heq2 & Hdec2).
      rewrite Heq2 in Hout |- *. simpl app in *.
      destruct (is_low_surrogate c2) eqn:Hlow.
      * destruct (IH (length s2) ltac:(simpl in *; lia) s2 eq_refl)
          as (out2 & Hout2 & _).
        eexists. split; [|by apply Hnwf].
        by rewrite (scan_u_pair _ _ _ _ c _ _ _ _ c2), Hout2.
      * exists (c :: out). split; [|by apply Hnwf].
        by rewrite (scan_u_high_then_u _ _ _ _ c _ _ _ _ c2), Hout.
    + destruct (surrogate_pair c2 Hc2) as (Hs1 & Hs2 & _).
      destruct (decode_hex4_u_escape _ (high_below _ Hs1))
        as (a2 & b2 & c2' & d2 & Heq2 & Hdec2).
      rewrite Heq2 in Hout |- *. simpl app in *.
      exists (c :: out). split; [|by apply Hnwf].
      rewrite (scan_u_high_then_u _ _ _ _ c _ _ _ _ _ _ Hdec Hhigh Hdec2), Hout;
        [done|by apply high_not_low].
  - (* a surrogate pair *)
    destruct (surrogate_pair c Hc) as (Hs1 & Hs2 & Hback).
    destruct (decode_hex4_u_escape _ (high_below _ Hs1))
      as (a & b & c' & d & -> & Hdec).
    destruct (decode_hex4_u_escape _ (low_below _ Hs2))
      as (a2 & b2 & c2 & d2 & -> & Hdec2).
    simpl app. eexists. split.
    + by rewrite (scan_u_pair _ _ _ _ _ _ _ _ _ _ _ Hdec Hs1 Hdec2 Hs2), Hout.
    + intros [Hsc ?]%Forall_cons. rewrite Hwf by done. f_equal. apply Hback.
      destruct Hsc; lia.
Qed.

Lemma encode_string_app s text :
  encode_string s ++ text = quote :: escape s ++ quote :: text.
Proof. unfold encode_string. simpl. by rewrite <-app_assoc. Qed.

Lemma join_items_cons (x y : pystr) (items : list pystr) :
  join_items (x :: y :: items) = x ++ comma :: space :: join_items (y :: items).
Proof. reflexivity. Qed.

Lemma join_items_length (l : list pystr) :
  (length l ≤ length (join_items (encode_string <$> l)))%nat.
Proof.
  induction l as [|x [|y l] IH]; simpl in *; [lia|lia|].
  rewrite length_app. simpl. rewrite length_app. simpl. lia.
Qed.

Lemma parse_items_last fuel text item rest :
  scanstring text = Some (item, rbracket :: rest) →
  parse_items (S fuel) (quote :: text) = Some ([item], rest).
Proof. intros H. simpl. by rewrite H. Qed.

Lemma parse_items_next fuel text item text' :
  scanstring text = Some (item, comma :: space :: quote :: text') →
  parse_items (S fuel) (quote :: text)
  = match parse_items fuel (quote :: text') with
    | Some (items, r) => Some (item :: items, r)
    | None => None
    end.
Proof. intros H. simpl. by rewrite H. Qed.

(** The items of an encoded array are read back one by one. *)
Lemma parse_items_encoded (l : list pystr) x rest fuel :
  (length l < fuel)%nat →
  ∃ outs,
    parse_items fuel (join_items (encode_string <$> x :: l) ++ rbracket :: rest)
    = Some (outs, rest)
    ∧ length outs = S (length l)
    ∧ (Forall well_formed (x :: l) → outs = x :: l).
Proof.
  revert x fuel. induction l as [|y l IH]; intros x [|fuel] Hfuel;
    try (simpl in *; lia).
  - destruct (scanstring_escape x (rbracket :: rest)) as (out & Hout & Hwf).
    exists [out]. simpl fmap. simpl join_items. rewrite encode_string_app.
    rewrite (parse_items_last _ _ out rest) by done. split_and!; [done..|].
    intros [? _]%Forall_cons. by rewrite Hwf.
  - destruct (IH y fuel ltac:(simpl in *; lia)) as (outs & Houts & Hlen & Hwfs).
    rewrite fmap_cons, (fmap_cons _ y), join_items_cons, <-fmap_cons.
    rewrite <-app_assoc, encode_string_app, <-!app_comm_cons.
    assert (∃ t, join_items (encode_string <$> y :: l) ++ rbracket :: rest
                 = quote :: t) as [t Ht] by (destruct l; simpl; eauto).
    rewrite Ht in *.
    destruct (scanstring_escape x (comma :: space :: quote :: t))
      as (out & Hout & Hwf).
    exists (out :: outs). rewrite (parse_items_next _ _ out t), Houts by done.
    split_and!; [done|simpl; by rewrite Hlen|].
    intros [? ?]%Forall_cons. by rewrite Hwf, Hwfs.
Qed.

(** [json.loads] accepts what [json.dumps] wrote for a list of strings and
    finds as many items as were written, the very same ones when they are
    made of scalar values. *)
Lemma loads_dumps (l : list pystr) :
  ∃ outs, loads (dumps l) = Some outs ∧ length outs = length l
          ∧ (Forall well_formed l → outs = l).
Proof.
  destruct l as [|x l]; [by exists []|].
  destruct (parse_items_encoded l x []
              (length (join_items (encode_string <$> x :: l) ++ [rbracket])))
    as (outs & Houts & Hlen & Hwf).
  { rewrite length_app. pose proof (join_items_length (x :: l)). simpl in *. lia. }
  exists outs. split; [|done]. unfold dumps, loads.
  change (skip_ws (lbracket :: ?t)) with (lbracket :: t). cbv iota.
  change (lbracket =? lbracket) with true. cbv iota.
  assert (∃ t, join_items (encode_string <$> x :: l) ++ [rbracket] = quote :: t)
    as [t Ht] by (destruct l; simpl; eauto).
  rewrite Ht in *. change (skip_ws (quote :: t)) with (quote :: t). cbv iota.
  change (quote =? rbracket) with false. cbv iota.
  by rewrite Houts.
Qed.

End json.

(** ** The image consolidator *)

Section images.

Implicit Types (row : Series) (image_cols images : list pystr) (seen : gset pystr).

Lemma filter_fresh_nil (l : list pystr) : filter (λ y, y ∉ []) l = l.
Proof.
  induction l as [|x l IH]; [done|].
  rewrite filter_cons_True by apply not_elem_of_nil. by rewrite IH.
Qed.

Lemma truthy_true (s : pystr) : truthy s = true ↔ s ≠ [].
Proof. by destruct s. Qed.

Lemma combine_images_step_candidate row images seen col :
  combine_images_step row (images, seen) col
  = match (if bool_decide (col ∈ index row)
           then strip ∘ py_str <$> cells row !! col else None) with
    | Some url =>
        if truthy url && bool_decide (url ∉ seen)
        then (images ++ [url], {[url]} ∪ seen) else (images, seen)
    | None => (images, seen)
    end.
Proof.
  unfold combine_images_step.
  destruct (bool_decide _); [|done]. by destruct (cells row !! col).
Qed.

(** The loop of [combine_images], from any point on: what it appends to
    [images] when [seen] holds the elements of [images]. *)
Lemma combine_images_loop row image_cols images seen :
  (∀ u, u ∈ seen ↔ u ∈ images) →
  (foldl (combine_images_step row) (images, seen) image_cols).1
  = images ++ filter (λ y, y ∉ images)
                     (first_occurrences
                        (filter (λ u, u ≠ []) (candidate_urls row image_cols))).
Proof.
  revert images seen. induction image_cols as [|col cols IH]; intros images seen Hseen.
  { simpl. by rewrite app_nil_r. }
  assert (∀ x (l : list pystr),
             filter (λ y, y ∉ images ++ [x]) l
             = filter (λ y, y ∉ images) (filter (λ y, y ≠ x) l)) as Hsnoc.
  { intros x l. rewrite list_filter_filter. apply list_filter_iff.
    intros y. rewrite not_elem_of_app, not_elem_of_cons. 
    pose proof (not_elem_of_nil y). tauto. }
  change (foldl ?f ?a (col :: cols)) with (foldl f (f a col) cols).
  rewrite combine_images_step_candidate.
  change (candidate_urls row (col :: cols))
    with (match (if bool_decide (col ∈ index row)
                 then strip ∘ py_str <$> cells row !! col else None) with
          | Some url => url :: candidate_urls row cols
          | None => candidate_urls row cols
          end).
  destruct (if bool_decide (col ∈ index row)
            then strip ∘ py_str <$> cells row !! col else None) as [url|];
    [|by apply IH].
  destruct (truthy url) eqn:Hurl.
  - apply truthy_true in Hurl. rewrite filter_cons_True by done. simpl.
    destruct (bool_decide (url ∉ seen)) eqn:Hnew; simpl.
    + apply bool_decide_eq_true in Hnew. rewrite Hseen in Hnew.
      rewrite filter_cons_True by done.
      rewrite IH.
      * by rewrite <-app_assoc, Hsnoc.
      * intros u. rewrite elem_of_union, elem_of_singleton, elem_of_app,
          list_elem_of_singleton, Hseen. tauto.
    + apply bool_decide_eq_false in Hnew. rewrite Hseen in Hnew.
      apply dec_stable in Hnew. rewrite filter_cons_False by tauto.
      rewrite IH by done. f_equal.
      rewrite list_filter_filter. apply list_filter_iff.
      intros y. simpl. split; [|by intros [? ?]]. intros Hy. split; [done|]. by intros ->.
  - assert (url = []) as Hnil by (by destruct (url)).
    rewrite Hnil. rewrite filter_cons_False by tauto. by apply IH.
Qed.

(** [combine_images] gives the consolidated list as a JSON array, and
    null when the list is empty. *)
Lemma combine_images_consolidated row image_cols :
  combine_images row image_cols
  = match consolidated row image_cols with
    | [] => None
    | urls => Some (Json.dumps urls)
    end.
Proof.
  unfold combine_images, consolidated.
  pose proof (combine_images_loop row image_cols [] ∅) as Hloop.
  destruct (foldl _ _ _) as [images seen]. simpl in Hloop.
  rewrite filter_fresh_nil in Hloop by done. rewrite <-Hloop; [|set_solver].
  by destruct images.
Qed.

(** [first_occurrences] keeps the elements, each once, in their order. *)
Lemma first_occurrences_elem (l : list pystr) u : u ∈ first_occurrences l ↔ u ∈ l.
Proof.
  induction l as [|x l IH]; simpl; [done|].
  rewrite !elem_of_cons, list_elem_of_filter, IH.
  destruct (decide (u = x)); tauto.
Qed.

Lemma first_occurrences_NoDup (l : list pystr) : NoDup (first_occurrences l).
Proof.
  induction l as [|x l IH]; simpl; [constructor|].
  constructor; [|by apply NoDup_filter].
  rewrite list_elem_of_filter. by intros [? _].
Qed.

Lemma first_occurrences_sublist (l : list pystr) : first_occurrences l `sublist_of` l.
Proof.
  induction l as [|x l IH]; simpl; [done|].
  apply sublist_skip. etrans; [apply sublist_filter|done].
Qed.

Lemma first_occurrences_head (x : pystr) l :
  head (first_occurrences (x :: l)) = Some x.
Proof. reflexivity. Qed.

Lemma candidate_urls_trimmed row image_cols :
  Forall trimmed (candidate_urls row image_cols).
Proof.
  induction image_cols as [|col cols IH]; [constructor|].
  unfold candidate_urls. simpl.
  destruct (bool_decide _); [|done].
  destruct (cells row !! col); [|done]. simpl.
  constructor; [apply strip_trimmed|done].
Qed.

Lemma consolidated_sublist row image_cols :
  consolidated row image_cols `sublist_of` candidate_urls row image_cols.
Proof.
  unfold consolidated. etrans; [apply first_occurrences_sublist|].
  apply sublist_filter.
Qed.

(** The consolidator on any record: the list it builds, its result, and
    the count derived from the result. *)
Lemma combine_images_general row image_cols :
  let urls := consolidated row image_cols in
  (Forall trimmed urls ∧ NoDup urls
   ∧ urls `sublist_of` candidate_urls row image_cols
   ∧ ∀ u, u ∈ urls ↔ u ∈ candidate_urls row image_cols ∧ u ≠ [])
  ∧ combine_images row image_cols
    = match urls with [] => None | _ :: _ => Some (Json.dumps urls) end
  ∧ match combine_images row image_cols with
    | None => urls = [] ∧ image_count_of None = Ok (Some (VInt 0))
    | Some all_images =>
        ∃ decoded,
          Json.loads all_images = Some decoded
          ∧ length decoded = length urls
          ∧ (Forall well_formed urls → decoded = urls)
          ∧ image_count_of (Some (VStr all_images))
            = Ok (Some (VInt (Z.of_nat (length decoded))))
    end.
Proof.
  intros urls. split_and!.
  - apply Forall_forall. intros u Hu.
    apply (proj1 (Forall_forall _ _) (candidate_urls_trimmed row image_cols)).
    eapply elem_of_sublist; [done|apply consolidated_sublist].
  - apply first_occurrences_NoDup.
  - apply consolidated_sublist.
  - intros u. unfold urls, consolidated.
    by rewrite first_occurrences_elem, list_elem_of_filter, (comm and).
  - rewrite combine_images_consolidated. fold urls. by destruct urls.
  - rewrite combine_images_consolidated. fold urls.
    destruct urls as [|u urls'] eqn:Hurls; [done|].
    destruct (loads_dumps (u :: urls')) as (decoded & Hdec & Hlen & Hwf).
    exists decoded. split_and!; [done..|]. simpl. by rewrite Hdec.
Qed.

End images.

(** ** Computations that only print *)

Section printing.

Context {A B : Type}.

Lemma prints_ret (a : A) : prints (mret a) [] (Ok a).
Proof. intros [out file]. unfold mret, io_ret. simpl. by rewrite app_nil_r. Qed.

Lemma prints_raise (e : exn) : prints (raise e : io A) [] (Raise e).
Proof. intros [out file]. unfold raise. simpl. by rewrite app_nil_r. Qed.

Lemma prints_lift (r : result A) : prints (lift r) [] r.
Proof. intros [out file]. unfold lift. simpl. by rewrite app_nil_r. Qed.

Lemma prints_bind (m : io A) (f : A → io B) evs a evs' r :
  prints m evs (Ok a) → prints (f a) evs' r → prints (m ≫= f) (evs ++ evs') r.
Proof.
  intros Hm Hf st. unfold mbind, io_bind. rewrite Hm, Hf. simpl.
  by rewrite app_assoc.
Qed.

Lemma prints_bind_raise (m : io A) (f : A → io B) evs e :
  prints m evs (Raise e) → prints (m ≫= f) evs (Raise e).
Proof. intros Hm st. unfold mbind, io_bind. by rewrite Hm. Qed.

Lemma prints_try_ok (body : io A) handler evs a :
  prints body evs (Ok a) → prints (try_except body handler) evs (Ok a).
Proof. intros Hm st. unfold try_except. by rewrite Hm. Qed.

Lemma prints_try_raise (body : io A) handler evs e evs' r :
  prints body evs (Raise e) → prints (handler e) evs' r →
  prints (try_except body handler) (evs ++ evs') r.
Proof.
  intros Hm Hh st. unfold try_except. rewrite Hm, Hh. simpl.
  by rewrite app_assoc.
Qed.

(** A printing computation ends in one way only. *)
Lemma prints_result (m : io A) evs r st : prints m evs r → (m st).2 = r.
Proof. intros Hm. by rewrite Hm. Qed.

End printing.

Lemma prints_print (ev : event) : prints (print ev) [ev] (Ok ()).
Proof. by intros [out file]. Qed.

Lemma only_prints_bind {A B} (m : io A) (f : A → io B) :
  only_prints m → (∀ a, only_prints (f a)) → only_prints (m ≫= f).
Proof.
  intros (evs & [a|e] & Hm) Hf.
  - destruct (Hf a) as (evs' & r & Hfa). exists (evs ++ evs'), r.
    by apply (prints_bind _ _ _ a).
  - exists evs, (Raise e). by apply prints_bind_raise.
Qed.

Lemma only_prints_ret {A} (a : A) : only_prints (mret a).
Proof. do 2 eexists. apply prints_ret. Qed.

Lemma only_prints_raise {A} (e : exn) : only_prints (raise e : io A).
Proof. do 2 eexists. apply prints_raise. Qed.

Lemma only_prints_lift {A} (r : result A) : only_prints (lift r).
Proof. do 2 eexists. apply prints_lift. Qed.

Lemma only_prints_print (ev : event) : only_prints (print ev).
Proof. do 2 eexists. apply prints_print. Qed.

(** [print ev;; k] *)
Lemma prints_print_then {A} (ev : event) (k : io A) evs r :
  prints k evs r → prints (print ev;; k) (ev :: evs) r.
Proof. intros Hk. apply (prints_bind _ _ [ev] () evs r); [apply prints_print|done]. Qed.

(** ** Tables *)

Section frames.

Implicit Types (df : DataFrame) (c : pystr) (r : row) (mask : list bool).

Lemma within_project cols df : within (project cols df).
Proof.
  intros r c [r0 [-> _]]%list_elem_of_fmap [x Hx]. simpl.
  by apply map_lookup_filter_Some in Hx as [_ ?].
Qed.

Lemma columns_set_column c series df c' :
  c' ∈ columns (set_column c series df) ↔ c' = c ∨ c' ∈ columns df.
Proof.
  simpl. case_bool_decide as Hc.
  - split; [by right|]. by intros [->|].
  - rewrite elem_of_app, list_elem_of_singleton. tauto.
Qed.

Lemma within_set_column c series df :
  within df → within (set_column c series df).
Proof.
  intros Hdf r c' Hr Hc'. apply columns_set_column.
  simpl in Hr. apply elem_of_zip_with in Hr as (x & r0 & -> & _ & Hr0).
  destruct (decide (c' = c)) as [|Hne]; [by left|right].
  unfold set_cell in Hc'. rewrite lookup_partial_alter_ne in Hc' by done.
  by apply (Hdf r0).
Qed.

Lemma canonical_set_column c series df :
  c ∈ DERIVED_COLUMNS → canonical df → canonical (set_column c series df).
Proof.
  intros Hc Hdf c' [->|Hc']%columns_set_column; [by right|by apply Hdf].
Qed.

Lemma canonical_project df :
  canonical (project (filter (λ c, c ∈ columns df) COLUMNS_TO_KEEP) df).
Proof. intros c [_ ?]%list_elem_of_filter. by left. Qed.

Lemma elem_of_union_columns seen cs c :
  c ∈ union_columns seen cs ↔ c ∈ cs ∧ c ∉ seen.
Proof.
  revert seen. induction cs as [|c0 cs IH]; intros seen; simpl.
  - split; [by intros ?%elem_of_nil|by intros [?%elem_of_nil _]].
  - case_bool_decide as Hc0.
    + rewrite IH, elem_of_cons. split; [tauto|].
      intros [[->|?] ?]; [done|tauto].
    + rewrite !elem_of_cons, IH, not_elem_of_cons.
      destruct (decide (c = c0)) as [->|]; tauto.
Qed.

Lemma columns_concat dfs c :
  c ∈ columns (concat dfs) ↔ ∃ df, df ∈ dfs ∧ c ∈ columns df.
Proof.
  simpl. rewrite elem_of_union_columns, list_elem_of_bind. split.
  - intros [(df & ? & ?) _]. by exists df.
  - intros (df & ? & ?). split; [by exists df|apply not_elem_of_nil].
Qed.

Lemma rows_concat dfs r :
  r ∈ rows (concat dfs) ↔ ∃ df, df ∈ dfs ∧ r ∈ rows df.
Proof.
  simpl. rewrite list_elem_of_bind.
  split; intros (df & ? & ?); by exists df.
Qed.

Lemma within_concat dfs : Forall within dfs → within (concat dfs).
Proof.
  intros Hdfs r c (df & Hdf & Hr)%rows_concat Hc.
  apply columns_concat. exists df. split; [done|].
  by apply (proj1 (Forall_forall _ _) Hdfs df Hdf r).
Qed.

Lemma canonical_concat dfs : Forall canonical dfs → canonical (concat dfs).
Proof.
  intros Hdfs c (df & Hdf & Hc)%columns_concat.
  by apply (proj1 (Forall_forall _ _) Hdfs df Hdf).
Qed.

(** Selecting by a mask keeps rows of the table, in their order. *)
Lemma select_rows_sublist mask (rs : list row) : select_rows mask rs `sublist_of` rs.
Proof.
  revert mask. induction rs as [|r rs IH]; intros [|[] mask]; simpl;
    try apply sublist_nil_l.
  - by apply sublist_skip.
  - by apply sublist_cons.
Qed.

Lemma elem_of_select_rows mask (rs : list row) r :
  r ∈ select_rows mask rs → r ∈ rs.
Proof. intros Hr. eapply elem_of_sublist; [done|apply select_rows_sublist]. Qed.

End frames.

(** ** Dropping duplicates *)

Section dedup.

Variable k : pystr.

Implicit Types (r : row) (rs : list row) (earlier : list (option value))
         (v : option value).

Lemma filter_none {X} (P : X → Prop) `{!∀ x, Decision (P x)} (l : list X) :
  (∀ x, x ∈ l → ¬ P x) → filter P l = [].
Proof.
  induction l as [|x l IH]; intros Hl; [done|].
  rewrite filter_cons_False by (apply Hl; by left).
  apply IH. intros y Hy. apply Hl. by right.
Qed.

Lemma kept_cons earlier r rs :
  kept k earlier (r :: rs)
  = if bool_decide (r !! k ∈ earlier) then kept k (r !! k :: earlier) rs
    else r :: kept k (r !! k :: earlier) rs.
Proof. unfold kept. simpl. by destruct (bool_decide _). Qed.

Lemma rows_drop_duplicates (df : DataFrame) :
  rows (drop_duplicates k df) = kept k [] (rows df).
Proof. reflexivity. Qed.

Lemma kept_elem earlier rs r :
  r ∈ kept k earlier rs → r ∈ rs ∧ r !! k ∉ earlier.
Proof.
  revert earlier. induction rs as [|r0 rs IH]; intros earlier.
  { by intros ?%elem_of_nil. }
  rewrite kept_cons. case_bool_decide as Hr0.
  - intros [? [? ?]%not_elem_of_cons]%IH. split; [by right|done].
  - intros [->|[? [? ?]%not_elem_of_cons]%IH]%elem_of_cons.
    + split; [by left|done].
    + split; [by right|done].
Qed.

(** No key is left twice. *)
Lemma kept_NoDup earlier rs : NoDup ((.!! k) <$> kept k earlier rs).
Proof.
  revert earlier. induction rs as [|r0 rs IH]; intros earlier.
  { constructor. }
  rewrite kept_cons. case_bool_decide as Hr0; [apply IH|].
  rewrite fmap_cons. constructor; [|apply IH].
  intros (r & Hkey & [_ Hr]%kept_elem)%list_elem_of_fmap.
  apply Hr. rewrite Hkey. by left.
Qed.



(** Among rows without a repeated key, at most one has a given key. *)
Lemma NoDup_key_once rs v `{!∀ r : row, Decision (r !! k = v)} :
  NoDup ((.!! k) <$> rs) → (length (filter (λ r, r !! k = v) rs) ≤ 1)%nat.
Proof.
  induction rs as [|r rs IH]; [simpl; lia|].
  rewrite fmap_cons. intros [Hr Hrs]%NoDup_cons.
  destruct (decide (r !! k = v)) as [Hv|Hv].
  - rewrite filter_cons_True by done.
    assert (filter (λ r, r !! k = v) rs = []) as ->; [|simpl; lia].
    apply filter_none. intros r' Hr' Hv'. apply Hr.
    apply list_elem_of_fmap. exists r'. split; [congruence|done].
  - rewrite filter_cons_False by done. by apply IH.
Qed.

(** Two rows with the same key among rows without a repeated key are the
    same row. *)
Lemma NoDup_key_unique rs r r' :
  NoDup ((.!! k) <$> rs) → r ∈ rs → r' ∈ rs → r !! k = r' !! k → r = r'.
Proof.
  intros Hnd [i Hi]%list_elem_of_lookup [j Hj]%list_elem_of_lookup Hk.
  assert (i = j) as ->; [|congruence].
  apply (NoDup_lookup _ i j (r !! k) Hnd); rewrite list_lookup_fmap.
  - by rewrite Hi.
  - by rewrite Hj, Hk.
Qed.

(** Masks computed row by row select as [filter] does. *)
Lemma select_rows_filter (P : row → Prop) `{!∀ r, Decision (P r)} rs :
  select_rows ((λ r, bool_decide (P r)) <$> rs) rs = filter P rs.
Proof.
  induction rs as [|r rs IH]; [done|]. rewrite fmap_cons.
  change (select_rows (?b :: ?m) (r :: rs))
    with (if b then r :: select_rows m rs else select_rows m rs).
  rewrite IH.
  case_bool_decide; [by rewrite filter_cons_True|by rewrite filter_cons_False].
Qed.

Lemma select_notna (df : DataFrame) :
  rows (select (notna k df) df) = filter (λ r, is_Some (r !! k)) (rows df).
Proof.
  simpl. unfold notna, column. rewrite <-list_fmap_compose.
  apply (select_rows_filter (λ r, is_Some (r !! k))).
Qed.

Lemma select_isna (df : DataFrame) :
  rows (select (negb <$> notna k df) df) = filter (λ r, r !! k = None) (rows df).
Proof.
  simpl. unfold notna, column. rewrite <-!list_fmap_compose.
  rewrite <-(select_rows_filter (λ r, r !! k = None)).
  f_equal. apply list_fmap_ext. intros _ r _. simpl.
  destruct (r !! k) as [x|].
  - rewrite bool_decide_eq_true_2 by eauto. by rewrite bool_decide_eq_false_2.
  - rewrite bool_decide_eq_false_2 by (by intros [? ?]).
    by rewrite bool_decide_eq_true_2.
Qed.


End dedup.

(** ** The deduplication block *)

Section deduplication.

Implicit Types (combined df : DataFrame) (r : row).

Lemma remove_duplicates_prints combined :
  ∃ evs, prints (remove_duplicates combined) evs (Ok (deduplicated combined)).
Proof.
  unfold deduplicated, remove_duplicates.
  repeat case_bool_decide; eexists.
  - apply prints_print_then, prints_ret.
  - apply prints_print_then, prints_ret.
  - apply prints_ret.
Qed.

(** With the variant identifier column: the rows that have the identifier,
    without repetition, then the rows that lack it, all of them. *)
Lemma deduplicated_variant combined :
  let k := py "detail_variant_sku" in
  k ∈ columns combined →
  rows (deduplicated combined)
  = kept k [] (filter (λ r, is_Some (r !! k)) (rows combined))
    ++ filter (λ r, r !! k = None) (rows combined).
Proof.
  intros k Hk. unfold deduplicated, remove_duplicates.
  rewrite bool_decide_eq_true_2 by done.
  cbv beta iota delta [mbind io_bind print mret io_ret snd].
  change (rows (concat [?a; ?b])) with (rows a ++ rows b ++ []).
  rewrite app_nil_r, rows_drop_duplicates, select_notna, select_isna. done.
Qed.

(** Without it, with the plain identifier column: first occurrences in
    that column, a null cell being a key like any other. *)
Lemma deduplicated_sku combined :
  py "detail_variant_sku" ∉ columns combined →
  py "sku" ∈ columns combined →
  rows (deduplicated combined) = kept (py "sku") [] (rows combined).
Proof.
  intros Hk Hsku. unfold deduplicated, remove_duplicates.
  rewrite bool_decide_eq_false_2, bool_decide_eq_true_2 by done.
  cbv beta iota delta [mbind io_bind print mret io_ret snd]. done.
Qed.

Lemma deduplicated_no_key combined :
  dedup_key combined = None → deduplicated combined = combined.
Proof.
  unfold dedup_key, deduplicated, remove_duplicates.
  by repeat case_bool_decide.
Qed.

Lemma columns_deduplicated combined c :
  c ∈ columns (deduplicated combined) ↔ c ∈ columns combined.
Proof.
  unfold deduplicated, remove_duplicates.
  repeat case_bool_decide;
    cbv beta iota delta [mbind io_bind print mret io_ret snd]; [|done..].
  rewrite columns_concat. split.
  - intros (df & Hdf & Hc). set_unfold in Hdf. by destruct Hdf as [->|[->|[]]].
  - intros Hc. eexists. split; [by left|done].
Qed.

Lemma elem_of_rows_deduplicated combined r :
  r ∈ rows (deduplicated combined) → r ∈ rows combined.
Proof.
  destruct (dedup_key combined) as [k|] eqn:Hkey.
  2:{ by rewrite deduplicated_no_key. }
  unfold dedup_key in Hkey. case_bool_decide as Hv.
  - rewrite deduplicated_variant by done.
    intros [[Hr _]%kept_elem|Hr]%elem_of_app.
    + by apply list_elem_of_filter in Hr as [_ ?].
    + by apply list_elem_of_filter in Hr as [_ ?].
  - case_bool_decide as Hs; [|done].
    rewrite deduplicated_sku by done. by intros [? _]%kept_elem.
Qed.

Lemma within_deduplicated combined : within combined → within (deduplicated combined).
Proof.
  intros Hc r c Hr Hcell. apply columns_deduplicated.
  apply (Hc r); [by apply elem_of_rows_deduplicated|done].
Qed.

End deduplication.

(** ** The block that removes the empty columns *)

Section pruning.

Implicit Types (df : DataFrame) (r : row) (c : pystr).

Lemma notna_sum_zero c df :
  notna_sum c df = 0%nat ↔ ∀ r, r ∈ rows df → r !! c = None.
Proof.
  unfold notna_sum, notna, column. rewrite <-list_fmap_compose.
  induction (rows df) as [|r0 rs IH].
  { split; [by intros _ r ?%elem_of_nil|done]. }
  rewrite fmap_cons. simpl. destruct (r0 !! c) as [x|] eqn:Hr0.
  - rewrite bool_decide_eq_true_2 by eauto. rewrite filter_cons_True by exact I.
    split; [done|]. intros Hall. specialize (Hall r0 ltac:(by left)). congruence.
  - rewrite bool_decide_eq_false_2 by (by intros [? ?]).
    rewrite filter_cons_False by (by intros []). rewrite IH. split.
    + intros Hall r [->|?]%elem_of_cons; [done|by apply Hall].
    + intros Hall r ?. apply Hall. by right.
Qed.

Lemma remove_empty_columns_prints df :
  ∃ evs, prints (remove_empty_columns df) evs (Ok (pruned df)).
Proof.
  unfold pruned, remove_empty_columns.
  destruct (filter _ _); eexists.
  - apply prints_ret.
  - apply prints_print_then, prints_ret.
Qed.

Lemma pruned_drop_columns df :
  pruned df
  = drop_columns (filter (λ c, notna_sum c df = 0%nat) (columns df)) df
  ∨ (pruned df = df ∧ filter (λ c, notna_sum c df = 0%nat) (columns df) = []).
Proof.
  unfold pruned, remove_empty_columns.
  destruct (filter _ _) eqn:E; [by right|by left].
Qed.

(** The columns that stay are those with a value in some row. *)
Lemma columns_pruned df c :
  c ∈ columns (pruned df)
  ↔ c ∈ columns df ∧ ∃ r, r ∈ rows df ∧ is_Some (r !! c).
Proof.
  assert (notna_sum c df ≠ 0%nat ↔ ∃ r, r ∈ rows df ∧ is_Some (r !! c)) as Hsome.
  { rewrite notna_sum_zero. split.
    - intros Hall.
      destruct (decide (Exists (λ r, is_Some (r !! c)) (rows df))) as [Hex|Hno].
      { by apply Exists_exists in Hex. }
      destruct Hall. intros r Hr. destruct (r !! c) eqn:E; [|done].
      destruct Hno. apply Exists_exists. exists r. by rewrite E.
    - intros (r & Hr & [x Hx]) Hall. specialize (Hall r Hr). congruence. }
  rewrite <-Hsome.
  destruct (pruned_drop_columns df) as [->|[-> Hnil]].
  - simpl. rewrite list_elem_of_filter, list_elem_of_filter. tauto.
  - split; [|tauto]. intros Hc. split; [done|]. intros Hz.
    eapply (filter_nil_not_elem_of _ _ c Hnil); done.
Qed.

(** The rows are left as they are: the cells removed are null. *)
Lemma rows_pruned df : rows (pruned df) = rows df.
Proof.
  destruct (pruned_drop_columns df) as [->|[-> _]]; [|done]. simpl.
  rewrite <-(list_fmap_id (rows df)) at 2. apply list_fmap_ext.
  intros _ r Hr%list_elem_of_lookup_2. simpl. apply map_filter_id.
  intros c x Hx [Hz _]%list_elem_of_filter. simpl in Hz.
  rewrite notna_sum_zero in Hz. specialize (Hz r Hr). congruence.
Qed.

Lemma within_pruned df : within df → within (pruned df).
Proof.
  intros Hdf r c Hr Hcell. rewrite rows_pruned in Hr.
  apply columns_pruned. split; [by apply (Hdf r)|by exists r].
Qed.

(** A table without rows has no column left. *)
Lemma pruned_no_rows df : rows (pruned df) = [] → columns (pruned df) = [].
Proof.
  rewrite rows_pruned. intros Hrows.
  destruct (columns (pruned df)) as [|c cs] eqn:E; [done|].
  assert (c ∈ columns (pruned df)) as Hc by (rewrite E; by left).
  apply columns_pruned in Hc as (_ & r & Hr & _).
  rewrite Hrows in Hr. by apply elem_of_nil in Hr.
Qed.

End pruning.

(** ** The per-file transform and the loop over the files *)

Section transform.

Implicit Types (w : world) (f : pystr) (image_cols : list pystr).

(** The transform only prints, whatever way it ends. *)
Lemma process_csv_prints w f image_cols :
  ∃ evs, prints (process_csv w f image_cols) evs (transform_outcome w image_cols f).
Proof.
  cut (∃ evs r, prints (process_csv w f image_cols) evs r).
  { intros (evs & r & Hp). exists evs. unfold transform_outcome.
    by rewrite (prints_result _ evs r initial Hp). }
  change (only_prints (process_csv w f image_cols)). unfold process_csv.
  apply only_prints_bind; [apply only_prints_print|intros _].
  apply only_prints_bind; [apply only_prints_lift|intros df].
  apply only_prints_bind; [apply only_prints_print|intros _].
  apply only_prints_bind; [apply only_prints_lift|intros counts].
  case_bool_decide; [|apply only_prints_ret].
  destruct (_ <$> rows df); [apply only_prints_raise|apply only_prints_ret].
Qed.

Lemma bind_run {A B} (m : io A) (g : A → io B) st :
  (m ≫= g) st
  = match m st with
    | (st', Ok a) => g a st'
    | (st', Raise e) => (st', Raise e)
    end.
Proof. reflexivity. Qed.

Lemma bind_Ok_inv {A B} (m : io A) (g : A → io B) st st' b :
  (m ≫= g) st = (st', Ok b) →
  ∃ a st1, m st = (st1, Ok a) ∧ g a st1 = (st', Ok b).
Proof. rewrite bind_run. destruct (m st) as [st1 [a|e]]; [eauto|done]. Qed.

Lemma lift_Ok_inv {A} (r : result A) st st' a :
  lift r st = (st', Ok a) → r = Ok a.
Proof. by intros [= _ ->]. Qed.

(** A file that cannot be read makes the transform raise. *)
Lemma transform_outcome_unreadable w f image_cols e :
  read_full (files w f) = Raise e → transform_outcome w image_cols f = Raise e.
Proof.
  intros Hread. unfold transform_outcome, process_csv.
  rewrite !bind_run. simpl. by rewrite Hread.
Qed.

(** The tables it returns hold allow-listed and derived columns, and
    every cell lies in a column. *)
Lemma transform_outcome_shape w f image_cols df_out :
  transform_outcome w image_cols f = Ok df_out →
  within df_out ∧ canonical df_out.
Proof.
  unfold transform_outcome.
  destruct (process_csv w f image_cols initial) as [st r] eqn:Hrun.
  simpl. intros ->. unfold process_csv in Hrun.
  apply bind_Ok_inv in Hrun as (_ & st1 & _ & Hrun).
  apply bind_Ok_inv in Hrun as (df & st2 & _ & Hrun).
  apply bind_Ok_inv in Hrun as (_ & st3 & _ & Hrun).
  apply bind_Ok_inv in Hrun as (counts & st4 & _ & Hrun).
  assert (∀ c, c ∈ DERIVED_COLUMNS → ∀ series d,
             within d ∧ canonical d →
             within (set_column c series d) ∧ canonical (set_column c series d))
    as Hset.
  { intros c Hc series d [? ?].
    split; [by apply within_set_column|by apply canonical_set_column]. }
  assert (Forall (λ c, c ∈ DERIVED_COLUMNS) DERIVED_COLUMNS) as Hderived
    by (by apply Forall_forall).
  repeat (apply Forall_cons in Hderived as [? Hderived]).
  case_bool_decide.
  - destruct (_ <$> rows df); [done|]. injection Hrun as _ <-.
    do 6 (apply Hset; [done|]).
    split; [apply within_project|apply canonical_project].
  - injection Hrun as _ <-. unfold set_column_scalar.
    do 6 (apply Hset; [done|]).
    split; [apply within_project|apply canonical_project].
Qed.

Lemma omap_cons_Some {X Y} (g : X → option Y) x y l :
  g x = Some y → omap g (x :: l) = y :: omap g l.
Proof. intros Hg. simpl. by rewrite Hg. Qed.

Lemma omap_cons_None {X Y} (g : X → option Y) x l :
  g x = None → omap g (x :: l) = omap g l.
Proof. intros Hg. simpl. by rewrite Hg. Qed.

(** The loop never raises: it gathers the tables of the files whose
    transform returns, in the order of the files, and prints one error
    message for each file whose transform raises. *)
Lemma process_files_prints w image_cols (csv_files : list pystr) all_dfs :
  ∃ evs,
    prints (process_files w image_cols csv_files all_dfs) evs
           (Ok (all_dfs ++ omap (transformed w image_cols) csv_files))
    ∧ ∀ ev, ev ∈ omap (transform_error w image_cols) csv_files → ev ∈ evs.
Proof.
  revert all_dfs. induction csv_files as [|f fs IH]; intros all_dfs.
  { exists []. split; [|by intros ev ?%elem_of_nil].
    rewrite app_nil_r. apply prints_ret. }
  destruct (process_csv_prints w f image_cols) as (evs_f & Hf).
  unfold transformed, transform_error.
  destruct (transform_outcome w image_cols f) as [df|e] eqn:Hout.
  - destruct (IH (all_dfs ++ [df])) as (evs & Hfs & Herr).
    exists ((evs_f ++ []) ++ evs). split.
    + rewrite (omap_cons_Some _ f df) by (by rewrite Hout).
      rewrite cons_middle, (assoc_L (++) all_dfs [df]).
      fold (transformed w image_cols).
      simpl process_files. eapply prints_bind; [|done].
      apply prints_try_ok. eapply prints_bind; [done|apply prints_ret].
    + rewrite omap_cons_None by (by rewrite Hout).
      intros ev Hev. apply elem_of_app. right. by apply Herr.
  - destruct (IH all_dfs) as (evs & Hfs & Herr).
    exists ((evs_f ++ [ErrorProcessing f e]) ++ evs). split.
    + rewrite omap_cons_None by (by rewrite Hout).
      fold (transformed w image_cols).
      simpl process_files. eapply prints_bind; [|done].
      eapply prints_try_raise; [by apply prints_bind_raise|].
      apply prints_print_then, prints_ret.
    + rewrite (omap_cons_Some _ f (ErrorProcessing f e)) by (by rewrite Hout).
      intros ev [->|Hev]%elem_of_cons.
      * apply elem_of_app. left. apply elem_of_app. right. by left.
      * apply elem_of_app. right. by apply Herr.
Qed.

End transform.

(** ** The run as a whole *)

Section run.

Implicit Types (w : world) (st : state) (names : list pystr).

Lemma print_then_run {A} (ev : event) (k : io A) st :
  (print ev;; k) st
  = k {| stdout := stdout st ++ [ev]; output_file := output_file st |}.
Proof. reflexivity. Qed.

Lemma lift_bind_run {A B} (a : A) (g : A → io B) st : (lift (Ok a) ≫= g) st = g a st.
Proof. reflexivity. Qed.

Lemma prints_bind_run {A B} (m : io A) (g : A → io B) evs a st :
  prints m evs (Ok a) →
  (m ≫= g) st = g a {| stdout := stdout st ++ evs; output_file := output_file st |}.
Proof. intros Hm. by rewrite bind_run, Hm. Qed.

(** No directory: nothing is read and nothing is written. *)
Lemma run_no_directory w :
  input_dir w = NoSuchPath →
  run w = ({| stdout := [Banner; InputDirNotFound]; output_file := None |}, Ok None).
Proof. intros Hdir. unfold run, run_post_processor. by rewrite print_then_run, Hdir. Qed.

(** No file selected: nothing is read and nothing is written. *)
Lemma run_no_selection w names :
  input_dir w = Entries names → discover names = [] →
  run w = ({| stdout := [Banner; NoCsvFilesFound]; output_file := None |}, Ok None).
Proof.
  intros Hdir Hsel. unfold run, run_post_processor.
  rewrite print_then_run, Hdir. cbv zeta. by rewrite Hsel.
Qed.

(** The header of the first selected file is read outside any handler. *)
Lemma run_first_header_raises w names first rest e :
  input_dir w = Entries names → discover names = first :: rest →
  read_head (files w first) = Raise e →
  run w = ({| stdout := [Banner; Found (first :: rest)]; output_file := None |},
           Raise e).
Proof.
  intros Hdir Hsel Hhead. unfold run, run_post_processor.
  rewrite print_then_run, Hdir. cbv zeta. rewrite Hsel.
  rewrite print_then_run, bind_run, Hhead. done.
Qed.

(** With files selected and the header of the first one read: the tables
    of the files whose transform returns are combined, deduplicated,
    pruned and written; an error message is printed for each of the other
    files. *)
Lemma run_entries w names first rest cols :
  input_dir w = Entries names → discover names = first :: rest →
  read_head (files w first) = Ok cols →
  let image_cols := filter (λ c, c ∈ cols) IMAGE_COLUMNS in
  let all_dfs := omap (transformed w image_cols) (first :: rest) in
  (∀ ev, ev ∈ omap (transform_error w image_cols) (first :: rest) →
         ev ∈ stdout (run w).1)
  ∧ match all_dfs, write_error w with
    | [], _ => (run w).2 = Ok None ∧ output_file (run w).1 = None
    | _ :: _, Some e => (run w).2 = Raise e ∧ output_file (run w).1 = None
    | _ :: _, None =>
        (run w).2 = Ok (Some (final_table all_dfs))
        ∧ output_file (run w).1 = Some (final_table all_dfs)
    end.
Proof.
  intros Hdir Hsel Hhead image_cols all_dfs.
  destruct (process_files_prints w image_cols (first :: rest) [])
    as (evs & Hfiles & Herrors).
  rewrite app_nil_l in Hfiles. fold all_dfs in Hfiles.
  unfold run, run_post_processor.
  rewrite print_then_run, Hdir. cbv zeta. rewrite Hsel.
  rewrite print_then_run, Hhead, lift_bind_run, !print_then_run.
  fold image_cols. rewrite (prints_bind_run _ _ evs all_dfs) by done.
  pose (log_found := λ (ev : event) (out : list event),
          ev ∈ omap (transform_error w image_cols) (first :: rest) → ev ∈ out).
  assert (∀ ev out, log_found ev (out ++ evs)) as Hlog.
  { intros ev out Hev. apply elem_of_app. right. by apply Herrors. }
  assert (∀ ev out out', log_found ev out → log_found ev (out ++ out')) as Hmore.
  { intros ev out out' Hout Hev. apply elem_of_app. left. by apply Hout. }
  destruct all_dfs as [|df dfs] eqn:Hdfs.
  { rewrite print_then_run. cbn [mret io_ret fst snd stdout output_file initial].
    split; [|done]. intros ev. by apply Hmore, Hlog. }
  rewrite print_then_run.
  destruct (remove_duplicates_prints (concat (df :: dfs))) as (evs1 & Hdedup).
  rewrite (prints_bind_run _ _ evs1 _ _ Hdedup).
  destruct (remove_empty_columns_prints (deduplicated (concat (df :: dfs))))
    as (evs2 & Hprune).
  rewrite (prints_bind_run _ _ evs2 _ _ Hprune).
  fold (final_table (df :: dfs)).
  rewrite bind_run. unfold to_csv.
  destruct (write_error w) as [e|];
    cbn [mret io_ret fst snd stdout output_file initial].
  { split; [|done]. intros ev. by do 3 apply Hmore. }
  assert (column_summary (final_table (df :: dfs)) = print ColumnSummary) as ->.
  { unfold column_summary, final_table.
    destruct (rows (pruned _)) eqn:Hrows;
      [|by destruct (columns _)].
    by rewrite (pruned_no_rows _ Hrows). }
  rewrite !print_then_run. cbn [mret io_ret fst snd stdout output_file initial].
  split; [|done]. intros ev. by do 5 apply Hmore.
Qed.

End run.

(** ** The per-file transform, record by record *)

Section canonical_records.

Implicit Types (w : world) (f c k : pystr) (image_cols : list pystr)
         (df : DataFrame) (r : row).

Lemma lookup_zip_set_cell c (series : list (option value)) (rs : list row) :
  length series = length rs → (.!! c) <$> zip_with (set_cell c) series rs = series.
Proof.
  revert rs. induction series as [|x series IH]; intros [|r rs]; simpl; try done.
  intros [= Hlen]. rewrite IH by done. f_equal.
  unfold set_cell. apply lookup_partial_alter_eq.
Qed.

Lemma column_set_column c series df :
  length series = length (rows df) → column c (set_column c series df) = series.
Proof. apply lookup_zip_set_cell. Qed.

Lemma apply_fmap {X Y Z} (g : Y → result Z) (s : X → Y) (h : X → Z) (l : list X) :
  (∀ x, g (s x) = Ok (h x)) → apply g (s <$> l) = Ok (h <$> l).
Proof.
  intros Hg. induction l as [|x l IH]; [done|].
  rewrite !fmap_cons. simpl. by rewrite Hg, IH.
Qed.

Lemma zip_with_fmap_same {X Y Z V} (g : Y → Z → V) (s : X → Y) (h : X → Z) (l : list X) :
  zip_with g (s <$> l) (h <$> l) = (λ x, g (s x) (h x)) <$> l.
Proof. induction l as [|x l IH]; [done|]. rewrite !fmap_cons. simpl. by rewrite IH. Qed.

Lemma zip_with_replicate_fmap {X Y Z V} (g : Y → Z → V) (y : Y) (h : X → Z) (l : list X) :
  zip_with g (replicate (length (h <$> l)) y) (h <$> l) = (λ x, g y (h x)) <$> l.
Proof. induction l as [|x l IH]; [done|]. rewrite !fmap_cons. simpl. by rewrite IH. Qed.

(** The count stored for a row is the number of consolidated images. *)
Lemma image_count_of_combine_images (row : Series) image_cols :
  image_count_of (VStr <$> combine_images row image_cols)
  = Ok (Some (VInt (Z.of_nat (length (consolidated row image_cols))))).
Proof.
  destruct (combine_images_general row image_cols) as (_ & _ & Hcount).
  destruct (combine_images row image_cols) as [all_images|].
  - destruct Hcount as (decoded & Hdec & Hlen & _ & Hcount). by rewrite <-Hlen.
  - destruct Hcount as [-> _]. done.
Qed.

Lemma columns_set_column_new c series df :
  c ∉ columns df → columns (set_column c series df) = columns df ++ [c].
Proof. intros Hc. simpl. by rewrite bool_decide_eq_false_2. Qed.

Lemma columns_set_column_snoc c series df (cols prev : list pystr) :
  columns df = cols ++ prev → c ∉ cols → c ∉ prev →
  columns (set_column c series df) = cols ++ (prev ++ [c]).
Proof.
  intros Hdf Hcols Hprev. rewrite columns_set_column_new, Hdf.
  - by rewrite <-app_assoc.
  - rewrite Hdf. by apply not_elem_of_app.
Qed.

Lemma rows_set_column_fmap {X} c (s : X → option value) (h : X → row) (l : list X) df :
  rows df = h <$> l →
  rows (set_column c (s <$> l) df) = (λ x, set_cell c (s x) (h x)) <$> l.
Proof. intros Hrows. simpl. rewrite Hrows. apply zip_with_fmap_same. Qed.

Lemma rows_set_column_scalar_fmap {X} c (x : option value) (h : X → row) (l : list X) df :
  rows df = h <$> l →
  rows (set_column_scalar c x df) = (λ y, set_cell c x (h y)) <$> l.
Proof.
  intros Hrows. unfold set_column_scalar, len. simpl. rewrite Hrows.
  apply zip_with_replicate_fmap.
Qed.

Lemma rows_assigned {X} (l : list X) (c1 c2 c3 c4 c5 c6 : pystr)
      (s1 s2 s3 s4 s5 s6 : X → option value) (h : X → row) df :
  rows df = h <$> l →
  rows (set_column c6 (s6 <$> l)
          (set_column c5 (s5 <$> l)
             (set_column c4 (s4 <$> l)
                (set_column c3 (s3 <$> l)
                   (set_column c2 (s2 <$> l)
                      (set_column c1 (s1 <$> l) df))))))
  = (λ x, set_cell c6 (s6 x)
            (set_cell c5 (s5 x)
               (set_cell c4 (s4 x)
                  (set_cell c3 (s3 x)
                     (set_cell c2 (s2 x)
                        (set_cell c1 (s1 x) (h x))))))) <$> l.
Proof.
  intros Hdf.
  pose proof (rows_set_column_fmap c1 s1 h l df Hdf) as R1.
  pose proof (rows_set_column_fmap c2 s2 _ l _ R1) as R2.
  pose proof (rows_set_column_fmap c3 s3 _ l _ R2) as R3.
  pose proof (rows_set_column_fmap c4 s4 _ l _ R3) as R4.
  pose proof (rows_set_column_fmap c5 s5 _ l _ R4) as R5.
  exact (rows_set_column_fmap c6 s6 _ l _ R5).
Qed.

Lemma rows_assigned_scalar {X} (l : list X) (c1 c2 c3 c4 c5 c6 : pystr)
      (s1 s2 : X → option value) (x3 x4 x5 x6 : option value) (h : X → row) df :
  rows df = h <$> l →
  rows (set_column_scalar c6 x6
          (set_column_scalar c5 x5
             (set_column_scalar c4 x4
                (set_column_scalar c3 x3
                   (set_column c2 (s2 <$> l)
                      (set_column c1 (s1 <$> l) df))))))
  = (λ x, set_cell c6 x6
            (set_cell c5 x5
               (set_cell c4 x4
                  (set_cell c3 x3
                     (set_cell c2 (s2 x)
                        (set_cell c1 (s1 x) (h x))))))) <$> l.
Proof.
  intros Hdf.
  pose proof (rows_set_column_fmap c1 s1 h l df Hdf) as R1.
  pose proof (rows_set_column_fmap c2 s2 _ l _ R1) as R2.
  pose proof (rows_set_column_scalar_fmap c3 x3 _ l _ R2) as R3.
  pose proof (rows_set_column_scalar_fmap c4 x4 _ l _ R3) as R4.
  pose proof (rows_set_column_scalar_fmap c5 x5 _ l _ R4) as R5.
  exact (rows_set_column_scalar_fmap c6 x6 _ l _ R5).
Qed.

Lemma lookup_projected (cols : list pystr) r k :
  filter (λ kv : pystr * value, kv.1 ∈ cols) r !! k
  = if bool_decide (k ∈ cols) then r !! k else None.
Proof.
  case_bool_decide as Hk.
  - destruct (r !! k) as [x|] eqn:Hr.
    + by apply map_lookup_filter_Some_2.
    + apply map_lookup_filter_None_2. by left.
  - apply map_lookup_filter_None_2. right. intros x _. done.
Qed.

(** The record that [process_csv] makes of one row: the projection, then
    the six assignments. *)
Lemma lookup_assigned (x1 x2 x3 x4 x5 x6 : option value) (base : row) k :
  set_cell (py "category_4") x6
    (set_cell (py "category_3") x5
       (set_cell (py "category_2") x4
          (set_cell (py "category_1") x3
             (set_cell (py "image_count") x2
                (set_cell (py "all_images") x1 base))))) !! k
  = if bool_decide (k = py "all_images") then x1
    else if bool_decide (k = py "image_count") then x2
    else if bool_decide (k = py "category_1") then x3
    else if bool_decide (k = py "category_2") then x4
    else if bool_decide (k = py "category_3") then x5
    else if bool_decide (k = py "category_4") then x6
    else base !! k.
Proof.
  unfold set_cell.
  repeat (case_bool_decide;
          [subst k;
           rewrite ?lookup_partial_alter_ne
             by (intros Heq; vm_compute in Heq; discriminate Heq);
           apply lookup_partial_alter_eq|]).
  by rewrite !lookup_partial_alter_ne by congruence.
Qed.

Lemma derived_not_kept c :
  c ∈ DERIVED_COLUMNS → ∀ df, c ∉ filter (λ c, c ∈ columns df) COLUMNS_TO_KEEP.
Proof.
  intros Hc df [_ Hkeep]%list_elem_of_filter. revert c Hc Hkeep.
  apply (proj1 (Forall_forall (λ c, c ∉ COLUMNS_TO_KEEP) DERIVED_COLUMNS)).
  apply (bool_decide_unpack _). vm_compute. exact I.
Qed.

(** The File Transformer record by record: unless the file has the
    breadcrumb column and no row, in which case it raises, the transform
    returns the table of the Canonical Records of the rows of the file, in
    their order, under the allow-listed columns that the file has followed
    by the derived ones. *)
Lemma process_csv_records w f image_cols df :
  read_full (files w f) = Ok df →
  (py "detail_breadcrumbs" ∈ columns df ∧ rows df = []
   ∧ transform_outcome w image_cols f = Raise (Exception (py "'category_1'")))
  ∨ (¬ (py "detail_breadcrumbs" ∈ columns df ∧ rows df = [])
     ∧ ∃ df_out,
         transform_outcome w image_cols f = Ok df_out
         ∧ columns df_out
           = filter (λ c, c ∈ columns df) COLUMNS_TO_KEEP ++ DERIVED_COLUMNS
         ∧ Forall2 (λ r r_out, ∀ k, r_out !! k = canonical_cell (columns df) image_cols r k)
                   (rows df) (rows df_out)).
Proof.
  intros Hread. unfold transform_outcome, process_csv.
  rewrite print_then_run, Hread, lift_bind_run, print_then_run.
  rewrite column_set_column by (simpl; unfold iterrows; by rewrite !length_fmap).
  unfold iterrows. rewrite <-!list_fmap_compose.
  rewrite (apply_fmap _ _
             (λ r, Some (VInt (Z.of_nat (length
                (consolidated {| index := columns df; cells := r |} image_cols))))))
    by (intros r; apply image_count_of_combine_images).
  rewrite lift_bind_run.
  set (cols := filter (λ c, c ∈ columns df) COLUMNS_TO_KEEP).
  assert (∀ c, c ∈ DERIVED_COLUMNS → c ∉ cols) as Hnew
    by (intros c Hc; by apply derived_not_kept).
  assert (Forall (λ c, c ∈ DERIVED_COLUMNS) DERIVED_COLUMNS) as Hderived
    by (by apply Forall_forall).
  repeat (apply Forall_cons in Hderived as [? Hderived]).
  assert (∀ (x1 x2 x3 x4 x5 x6 : list (option value)),
             columns (set_column (py "category_4") x6
                       (set_column (py "category_3") x5
                          (set_column (py "category_2") x4
                             (set_column (py "category_1") x3
                                (set_column (py "image_count") x2
                                   (set_column (py "all_images") x1
                                      (project cols df)))))))
             = cols ++ DERIVED_COLUMNS) as Hcolumns.
  { intros.
    change DERIVED_COLUMNS
      with ((((((([] : list pystr) ++ [py "all_images"]) ++ [py "image_count"])
                ++ [py "category_1"]) ++ [py "category_2"])
              ++ [py "category_3"]) ++ [py "category_4"]).
    do 6 (eapply columns_set_column_snoc;
          [|by apply Hnew|apply (bool_decide_unpack _); vm_compute; exact I]).
    simpl. by rewrite app_nil_r. }
  case_bool_decide as Hcrumbs.
  - destruct (decide (rows df = [])) as [Hrows|Hrows].
    { left. by rewrite Hrows. }
    right. split; [by intros [_ ?]|].
    destruct (_ <$> rows df) as [|c0 cs] eqn:Hcats.
    { by destruct (rows df). }
    clear c0 cs Hcats.
    eexists. split; [reflexivity|]. split; [apply Hcolumns|].
    rewrite (rows_assigned (rows df) _ _ _ _ _ _ _ _ _ _ _ _
               (filter (λ kv : pystr * value, kv.1 ∈ cols)) (project cols df) eq_refl).
    apply Forall2_fmap_r, Forall_Forall2_diag, Forall_forall. intros r _ k.
    rewrite lookup_assigned, lookup_projected. unfold canonical_cell.
    rewrite (bool_decide_eq_true_2 (py "detail_breadcrumbs" ∈ columns df)) by done.
    unfold compose. rewrite combine_images_consolidated. cbv beta zeta.
    destruct (bool_decide (k = py "all_images"));
      [by destruct (consolidated _ image_cols)|].
    destruct (bool_decide (k = py "image_count")); [done|].
    destruct (bool_decide (k = py "category_1")); [done|].
    destruct (bool_decide (k = py "category_2")); [done|].
    destruct (bool_decide (k = py "category_3")); [done|].
    destruct (bool_decide (k = py "category_4")); [done|].
    unfold cols. case_bool_decide as Hk.
    + apply list_elem_of_filter in Hk as [? ?].
      by rewrite !bool_decide_eq_true_2.
    + destruct (bool_decide (k ∈ COLUMNS_TO_KEEP)) eqn:Hkeep; [|done].
      destruct (bool_decide (k ∈ columns df)) eqn:Hpresent; [|done].
      destruct Hk. apply list_elem_of_filter.
      split; [exact (bool_decide_eq_true_1 _ Hpresent)|exact (bool_decide_eq_true_1 _ Hkeep)].
  - right. split; [by intros [? _]|].
    eexists. split; [reflexivity|]. split; [apply Hcolumns|].
    rewrite (rows_assigned_scalar (rows df) _ _ _ _ _ _ _ _ _ _ _ _
               (filter (λ kv : pystr * value, kv.1 ∈ cols)) (project cols df) eq_refl).
    apply Forall2_fmap_r, Forall_Forall2_diag, Forall_forall. intros r _ k.
    rewrite lookup_assigned, lookup_projected. unfold canonical_cell.
    rewrite (bool_decide_eq_false_2 (py "detail_breadcrumbs" ∈ columns df)) by done.
    unfold compose. rewrite combine_images_consolidated. cbv beta zeta.
    destruct (bool_decide (k = py "all_images"));
      [by destruct (consolidated _ image_cols)|].
    destruct (bool_decide (k = py "image_count")); [done|].
    destruct (bool_decide (k = py "category_1")); [done|].
    destruct (bool_decide (k = py "category_2")); [done|].
    destruct (bool_decide (k = py "category_3")); [done|].
    destruct (bool_decide (k = py "category_4")); [done|].
    unfold cols. case_bool_decide as Hk.
    + apply list_elem_of_filter in Hk as [? ?].
      by rewrite !bool_decide_eq_true_2.
    + destruct (bool_decide (k ∈ COLUMNS_TO_KEEP)) eqn:Hkeep; [|done].
      destruct (bool_decide (k ∈ columns df)) eqn:Hpresent; [|done].
      destruct Hk. apply list_elem_of_filter.
      split; [exact (bool_decide_eq_true_1 _ Hpresent)|exact (bool_decide_eq_true_1 _ Hkeep)].
Qed.


(** In a transformed table the image count of a row is the length of the
    decoded [all_images] cell, and 0 where that cell is null. *)
Lemma transformed_image_count w f image_cols df_out r_out :
  transformed w image_cols f = Some df_out → r_out ∈ rows df_out →
  match r_out !! py "all_images" with
  | None => r_out !! py "image_count" = Some (VInt 0)
  | Some all_images =>
      ∃ decoded, Json.loads (py_str all_images) = Some decoded
                 ∧ r_out !! py "image_count"
                   = Some (VInt (Z.of_nat (length decoded)))
  end.
Proof.
  intros Hout Hr. unfold transformed in Hout.
  destruct (read_full (files w f)) as [df|e] eqn:Hread.
  2:{ by rewrite (transform_outcome_unreadable w f image_cols e) in Hout. }
  destruct (process_csv_records w f image_cols df Hread)
    as [(_ & _ & Hraise)|(_ & df' & Hok & _ & Hrows)]; rewrite ?Hraise, ?Hok in Hout;
    [done|]. injection Hout as ->.
  apply list_elem_of_lookup in Hr as [i Hi].
  destruct (Forall2_lookup_r _ _ _ _ _ Hrows Hi) as (r & _ & Hcells).
  rewrite !Hcells. unfold canonical_cell. simpl.
  destruct (consolidated _ image_cols) as [|u urls]; [done|].
  destruct (loads_dumps (u :: urls)) as (decoded & Hdec & Hlen & _).
  exists decoded. by rewrite <-Hlen.
Qed.

End canonical_records.

Section image_counts.

(** C5. The image consolidator returns the trimmed non-blank values of the
    candidate fields, in candidate order, each kept at its first
    occurrence, as a JSON array, and null when none is left;
    [image_count] is the length of the decoded array and 0 for null, also
    in the tables that [process_csv] returns. On
    the fields [image_1], [image_2], [detail_image_1] holding
    [http://a], [http://a], [http://b] the array is [http://a],
    [http://b] and the count is 2. *)
Theorem combine_images_spec :
  (∀ row image_cols,
     let urls := consolidated row image_cols in
     (Forall trimmed urls ∧ NoDup urls
      ∧ urls `sublist_of` candidate_urls row image_cols
      ∧ ∀ u, u ∈ urls ↔ u ∈ candidate_urls row image_cols ∧ u ≠ [])
     ∧ combine_images row image_cols
       = match urls with [] => None | _ :: _ => Some (Json.dumps urls) end
     ∧ match combine_images row image_cols with
       | None => urls = [] ∧ image_count_of None = Ok (Some (VInt 0))
       | Some all_images =>
           ∃ decoded,
             Json.loads all_images = Some decoded
             ∧ length decoded = length urls
             ∧ (Forall well_formed urls → decoded = urls)
             ∧ image_count_of (Some (VStr all_images))
               = Ok (Some (VInt (Z.of_nat (length decoded))))
       end)
  ∧ (let image_cols := [py "image_1"; py "image_2"; py "detail_image_1"] in
     let row := {| index := image_cols;
                   cells := {[ py "image_1" := VStr (py "http://a");
                               py "image_2" := VStr (py "http://a");
                               py "detail_image_1" := VStr (py "http://b") ]} |} in
     let all_images := combine_images row image_cols in
     all_images = Some (Json.dumps [py "http://a"; py "http://b"])
     ∧ (all_images ≫= Json.loads) = Some [py "http://a"; py "http://b"]
     ∧ image_count_of (VStr <$> all_images) = Ok (Some (VInt 2)))
  ∧ (let image_cols := [py "image_1"; py "image_2"; py "detail_image_1"] in
     let row := {| index := image_cols;
                   cells := {[ py "image_1" := VStr (py "  ") ]} |} in
     combine_images row image_cols = None
     ∧ image_count_of (VStr <$> combine_images row image_cols)
       = Ok (Some (VInt 0)))
  ∧ (∀ w f image_cols df_out r_out,
       transformed w image_cols f = Some df_out → r_out ∈ rows df_out →
       match r_out !! py "all_images" with
       | None => r_out !! py "image_count" = Some (VInt 0)
       | Some all_images =>
           ∃ decoded, Json.loads (py_str all_images) = Some decoded
                      ∧ r_out !! py "image_count"
                        = Some (VInt (Z.of_nat (length decoded)))
       end).
Proof.
  split_and!;
    [apply combine_images_general|by vm_compute..|apply transformed_image_count].
Qed.

Lemma combine_images_spec_witness :
  let image_cols := [py "image_1"; py "image_2"] in
  let row := {| index := image_cols;
                cells := {[ py "image_1" := VStr (py " http://a ");
                            py "image_2" := VStr (py "http://b") ]} |} in
  Forall well_formed (consolidated row image_cols)
  ∧ ∃ decoded, (combine_images row image_cols ≫= Json.loads) = Some decoded
               ∧ decoded = consolidated row image_cols.
Proof.
  intros image_cols row.
  assert (Forall well_formed (consolidated row image_cols)) as Hwf
    by (apply (bool_decide_unpack _); vm_compute; exact I).
  split; [exact Hwf|].
  destruct combine_images_spec as [Hgen _].
  destruct (Hgen row image_cols) as (_ & _ & Hcount).
  destruct (combine_images row image_cols) as [all_images|] eqn:Hall;
    [|discriminate Hall].
  destruct Hcount as (decoded & Hdec & _ & Hsame & _).
  exists decoded. split; [exact Hdec|exact (Hsame Hwf)].
Defined.

End image_counts.

(** ** Discovery *)

Section discovery.

Implicit Types (a b c s p q f : pystr) (names : list pystr).

Lemma startswith_prefix s p : startswith s p = true ↔ ∃ q, s = p ++ q.
Proof.
  revert s. induction p as [|x p IH]; intros s.
  { split; [by exists s|by destruct s]. }
  destruct s as [|y s]; simpl.
  { split; [done|by intros [q [=]]]. }
  rewrite andb_true_iff, N.eqb_eq, IH. split.
  - intros [-> [q ->]]. by exists q.
  - intros [q [= -> ->]]. split; [done|by exists q].
Qed.

Lemma endswith_suffix s p : endswith s p = true ↔ ∃ q, s = q ++ p.
Proof.
  unfold endswith. rewrite startswith_prefix. split.
  - intros [q Hq]. exists (rev q).
    rewrite <-(rev_involutive s), Hq, rev_app_distr. by rewrite rev_involutive.
  - intros [q ->]. exists (rev q). by rewrite rev_app_distr.
Qed.

Lemma str_ltb_irrefl a : str_ltb a a = false.
Proof. induction a as [|x a IH]; simpl; [done|]. by rewrite N.ltb_irrefl. Qed.

#[local] Instance str_le_total : Total str_le.
Proof.
  intros a. unfold str_le. induction a as [|x a IH]; intros [|y b]; simpl; auto.
  destruct (N.ltb_spec y x), (N.ltb_spec x y); auto; lia.
Qed.

#[local] Instance str_le_trans : Transitive str_le.
Proof.
  intros a. unfold str_le. induction a as [|x a IH]; intros [|y b] [|z c]; simpl;
    try done.
  destruct (N.ltb_spec y x), (N.ltb_spec x y), (N.ltb_spec z y),
    (N.ltb_spec y z), (N.ltb_spec z x), (N.ltb_spec x z);
    try done; try lia.
  apply IH.
Qed.

#[local] Instance str_le_antisymm : AntiSymm (=) str_le.
Proof.
  intros a. unfold str_le. induction a as [|x a IH]; intros [|y b]; simpl;
    try done.
  destruct (N.ltb_spec y x), (N.ltb_spec x y); try done.
  intros ? ?. f_equal; [lia|by apply IH].
Qed.

(** The selected names are those of the listing that pass the three
    tests, with their multiplicity, in sorted order. *)
Lemma discover_permutation names :
  discover names ≡ₚ filter (λ f, is_input_csv f) names.
Proof. apply merge_sort_Permutation. Qed.

Lemma discover_sorted names : StronglySorted str_le (discover names).
Proof. apply StronglySorted_merge_sort; apply _. Qed.

Lemma is_input_csv_spec f :
  is_input_csv f
  ↔ (∃ stem, f = stem ++ py ".csv") ∧ f ≠ py "audit_table.csv"
    ∧ ¬ ∃ rest, f = py "progress" ++ rest.
Proof.
  unfold is_input_csv.
  rewrite !andb_True, !negb_True, bool_decide_spec, <-endswith_suffix,
    <-startswith_prefix, !Is_true_true. tauto.
Qed.

Lemma elem_of_discover names f :
  f ∈ discover names
  ↔ f ∈ names ∧ (∃ stem, f = stem ++ py ".csv") ∧ f ≠ py "audit_table.csv"
    ∧ ¬ ∃ rest, f = py "progress" ++ rest.
Proof.
  rewrite discover_permutation, list_elem_of_filter, is_input_csv_spec. tauto.
Qed.

(** The order of the listing does not matter. *)
Lemma discover_listing_order names names' :
  names ≡ₚ names' → discover names = discover names'.
Proof.
  intros Hperm. apply (StronglySorted_unique str_le); [apply discover_sorted..|].
  by rewrite !discover_permutation, Hperm.
Qed.

End discovery.

(** ** Discovery and the runs without input *)

Section no_input.

(** C7. Discovery selects exactly the entries that end in [.csv], are not
    [audit_table.csv] and do not start with [progress], and sorts them;
    when the directory does not exist or nothing is selected the run
    returns [None], raises nothing and writes no file. *)
Theorem discovery_spec :
  (∀ names f,
     f ∈ discover names
     ↔ f ∈ names ∧ (∃ stem, f = stem ++ py ".csv") ∧ f ≠ py "audit_table.csv"
       ∧ ¬ ∃ rest, f = py "progress" ++ rest)
  ∧ (∀ names,
       discover names ≡ₚ filter (λ f, is_input_csv f) names
       ∧ StronglySorted str_le (discover names))
  ∧ (∀ w, input_dir w = NoSuchPath →
          (run w).2 = Ok None ∧ output_file (run w).1 = None)
  ∧ (∀ w names, input_dir w = Entries names → discover names = [] →
                (run w).2 = Ok None ∧ output_file (run w).1 = None).
Proof.
  split_and!.
  - apply elem_of_discover.
  - intros names. split; [apply discover_permutation|apply discover_sorted].
  - intros w Hdir. by rewrite run_no_directory.
  - intros w names Hdir Hsel. by rewrite (run_no_selection w names).
Qed.

Lemma discovery_spec_witness :
  let unreadable := {| read_head := Raise (Exception (py "missing"));
                       read_full := Raise (Exception (py "missing")) |} in
  let w := {| input_dir := Entries [py "notes.txt"; py "progress_7.csv";
                                    py "audit_table.csv"];
              files := λ _, unreadable;
              write_error := None |} in
  (input_dir w = Entries [py "notes.txt"; py "progress_7.csv"; py "audit_table.csv"]
   ∧ discover [py "notes.txt"; py "progress_7.csv"; py "audit_table.csv"] = [])
  ∧ (run w).2 = Ok None ∧ output_file (run w).1 = None.
Proof.
  intros unreadable w.
  assert (discover [py "notes.txt"; py "progress_7.csv"; py "audit_table.csv"] = [])
    as Hsel by (vm_compute; reflexivity).
  split; [split; [reflexivity|exact Hsel]|].
  destruct discovery_spec as (_ & _ & _ & Hempty).
  exact (Hempty w _ eq_refl Hsel).
Defined.

(** C10. When the header of the first selected file cannot be read the
    run raises that exception: no file is skipped, none is transformed,
    nothing is written, whatever the other files are. *)
Theorem first_header_not_guarded w names first rest e :
  input_dir w = Entries names → discover names = first :: rest →
  read_head (files w first) = Raise e →
  run w = ({| stdout := [Banner; Found (first :: rest)]; output_file := None |},
           Raise e).
Proof. apply run_first_header_raises. Qed.

Lemma first_header_not_guarded_witness :
  let good := {| columns := [py "sku"; py "name"];
                 rows := [{[ py "sku" := VStr (py "Z1"); py "name" := VStr (py "Doll") ]}] |} in
  let w := {| input_dir := Entries [py "b.csv"; py "a.csv"];
              files := λ f, if bool_decide (f = py "a.csv")
                            then {| read_head := Raise (Exception (py "No columns to parse from file"));
                                    read_full := Raise (Exception (py "No columns to parse from file")) |}
                            else {| read_head := Ok (columns good); read_full := Ok good |};
              write_error := None |} in
  (discover [py "b.csv"; py "a.csv"] = [py "a.csv"; py "b.csv"]
   ∧ read_full (files w (py "b.csv")) = Ok good
   ∧ read_head (files w (py "a.csv")) = Raise (Exception (py "No columns to parse from file")))
  ∧ run w = ({| stdout := [Banner; Found [py "a.csv"; py "b.csv"]];
                output_file := None |},
             Raise (Exception (py "No columns to parse from file"))).
Proof.
  intros good w.
  assert (discover [py "b.csv"; py "a.csv"] = [py "a.csv"; py "b.csv"]) as Hsel
    by (vm_compute; reflexivity).
  split; [split_and!; [exact Hsel|reflexivity..]|].
  exact (first_header_not_guarded w _ _ _ _ eq_refl Hsel eq_refl).
Defined.

End no_input.

(** ** Two runs over the same directory *)

Section determinism.

Implicit Types (w : world) (names : list pystr) (st : state).

Lemma bind_ext_run {A B} (m : io A) (g g' : A → io B) st :
  (∀ a st', g a st' = g' a st') → (m ≫= g) st = (m ≫= g') st.
Proof. intros Hg. rewrite !bind_run. by destruct (m st) as [st' [a|e]]. Qed.

Lemma process_csv_files w w' f image_cols :
  files w = files w' → process_csv w f image_cols = process_csv w' f image_cols.
Proof. intros Hfiles. unfold process_csv. by rewrite Hfiles. Qed.

Lemma process_files_files w w' image_cols (csv_files : list pystr) all_dfs st :
  files w = files w' →
  process_files w image_cols csv_files all_dfs st
  = process_files w' image_cols csv_files all_dfs st.
Proof.
  intros Hfiles. revert all_dfs st. induction csv_files as [|f fs IH]; [done|].
  intros all_dfs st. simpl. rewrite (process_csv_files w w') by done.
  by apply bind_ext_run.
Qed.

(** The run depends on the directory through the selection only. *)
Lemma run_same_selection w w' names names' :
  input_dir w = Entries names → input_dir w' = Entries names' →
  discover names = discover names' →
  files w = files w' → write_error w = write_error w' →
  run w = run w'.
Proof.
  intros Hdir Hdir' Hsel Hfiles Hwrite. unfold run, run_post_processor.
  rewrite Hdir, Hdir'. cbv zeta. rewrite Hsel, Hfiles.
  apply bind_ext_run. intros _ st.
  destruct (discover names') as [|first rest]; [done|].
  apply bind_ext_run. intros _ st1.
  apply bind_ext_run. intros cols st2.
  apply bind_ext_run. intros _ st3.
  apply bind_ext_run. intros _ st4.
  rewrite !bind_run, (process_files_files w w') by done.
  destruct (process_files w' _ _ _ st4) as [st5 [[|df dfs]|e]]; [done| |done].
  unfold to_csv. by rewrite Hwrite.
Qed.

(** C9. Two runs over the same directory give the same result, the same
    written table and the same messages: the run is a function of the
    directory, and of the order in which the directory is listed, the
    one thing that may differ between two runs, it is independent. *)
Theorem run_deterministic w w' names names' :
  input_dir w = Entries names → input_dir w' = Entries names' →
  names ≡ₚ names' →
  files w = files w' → write_error w = write_error w' →
  run w = run w'.
Proof.
  intros Hdir Hdir' Hperm. apply (run_same_selection w w' names names'); [done..|].
  by apply discover_listing_order.
Qed.

End determinism.

Lemma run_deterministic_witness :
  (input_dir three_batches
   = Entries [py "batch_3.csv"; py "audit_table.csv"; py "batch_1.csv";
              py "progress.csv"; py "batch_2.csv"; py "readme.md"]
   ∧ input_dir three_batches_relisted
     = Entries [py "readme.md"; py "batch_1.csv"; py "batch_2.csv";
                py "batch_3.csv"; py "progress.csv"; py "audit_table.csv"]
   ∧ [py "batch_3.csv"; py "audit_table.csv"; py "batch_1.csv";
      py "progress.csv"; py "batch_2.csv"; py "readme.md"]
     ≡ₚ [py "readme.md"; py "batch_1.csv"; py "batch_2.csv";
         py "batch_3.csv"; py "progress.csv"; py "audit_table.csv"])
  ∧ run three_batches = run three_batches_relisted.
Proof.
  assert ([py "batch_3.csv"; py "audit_table.csv"; py "batch_1.csv";
           py "progress.csv"; py "batch_2.csv"; py "readme.md"]
          ≡ₚ [py "readme.md"; py "batch_1.csv"; py "batch_2.csv";
              py "batch_3.csv"; py "progress.csv"; py "audit_table.csv"]) as Hperm.
  { apply NoDup_Permutation.
    - apply (bool_decide_unpack _). vm_compute. exact I.
    - apply (bool_decide_unpack _). vm_compute. exact I.
    - intros f. split; intros Hf; 
        repeat (apply elem_of_cons in Hf as [->|Hf]; [set_solver|]); by apply elem_of_nil in Hf. }
  split; [split_and!; [reflexivity..|exact Hperm]|].
  exact (run_deterministic three_batches three_batches_relisted _ _
                           eq_refl eq_refl Hperm eq_refl eq_refl).
Defined.

(** ** A file whose transform raises *)

Section partial_failure.

Implicit Types (w : world) (names : list pystr).

Lemma transformed_files w w' image_cols f :
  files w = files w' → transformed w image_cols f = transformed w' image_cols f.
Proof.
  intros Hfiles. unfold transformed, transform_outcome.
  by rewrite (process_csv_files w w').
Qed.

(** C8. A selected file whose transform raises is reported and skipped,
    and the run goes on with the other files: of three files, the second
    one failing, the combined table holds the rows of the tables of the
    first and the third, the output is what these two tables give, the
    same as without the second file, and a message names the second file. *)
Theorem skip_and_continue :
  (∀ w names first rest cols,
     input_dir w = Entries names → discover names = first :: rest →
     read_head (files w first) = Ok cols →
     let image_cols := filter (λ c, c ∈ cols) IMAGE_COLUMNS in
     let all_dfs := omap (transformed w image_cols) (first :: rest) in
     (∀ f e, f ∈ first :: rest → transform_outcome w image_cols f = Raise e →
             ErrorProcessing f e ∈ stdout (run w).1)
     ∧ match all_dfs, write_error w with
       | [], _ => (run w).2 = Ok None ∧ output_file (run w).1 = None
       | _ :: _, Some e => (run w).2 = Raise e ∧ output_file (run w).1 = None
       | _ :: _, None =>
           (run w).2 = Ok (Some (final_table all_dfs))
           ∧ output_file (run w).1 = Some (final_table all_dfs)
       end)
  ∧ (∀ w names f1 f2 f3 cols df1 df3 e,
       input_dir w = Entries names → discover names = [f1; f2; f3] →
       read_head (files w f1) = Ok cols → write_error w = None →
       let image_cols := filter (λ c, c ∈ cols) IMAGE_COLUMNS in
       transform_outcome w image_cols f1 = Ok df1 →
       transform_outcome w image_cols f2 = Raise e →
       transform_outcome w image_cols f3 = Ok df3 →
       ErrorProcessing f2 e ∈ stdout (run w).1
       ∧ rows (concat [df1; df3]) = rows df1 ++ rows df3
       ∧ (run w).2 = Ok (Some (final_table [df1; df3]))
       ∧ output_file (run w).1 = Some (final_table [df1; df3])
       ∧ ∀ w' names',
           input_dir w' = Entries names' → discover names' = [f1; f3] →
           files w' = files w → write_error w' = None →
           (run w').2 = (run w).2
           ∧ output_file (run w').1 = output_file (run w).1).
Proof.
  split.
  - intros w names first rest cols Hdir Hsel Hhead image_cols all_dfs.
    subst image_cols all_dfs.
    destruct (run_entries w names first rest cols Hdir Hsel Hhead) as [Hlog Hres].
    split; [|done]. intros f e Hf Hout. apply Hlog.
    apply list_elem_of_omap. exists f. split; [done|].
    unfold transform_error. by rewrite Hout.
  - intros w names f1 f2 f3 cols df1 df3 e Hdir Hsel Hhead Hwrite image_cols
      Hout1 Hout2 Hout3.
    subst image_cols.
    destruct (run_entries w names f1 [f2; f3] cols Hdir Hsel Hhead) as [Hlog Hres].
    assert (omap (transformed w (filter (λ c, c ∈ cols) IMAGE_COLUMNS)) [f1; f2; f3]
            = [df1; df3]) as Hdfs.
    { unfold transformed. simpl. by rewrite Hout1, Hout2, Hout3. }
    rewrite Hdfs, Hwrite in Hres. destruct Hres as [Hres Hfile].
    split_and!; [|by simpl; rewrite app_nil_r|done..|].
    { apply Hlog. apply list_elem_of_omap. exists f2. split; [set_solver|].
      unfold transform_error. by rewrite Hout2. }
    intros w' names' Hdir' Hsel' Hfiles Hwrite'.
    assert (read_head (files w' f1) = Ok cols) as Hhead' by (by rewrite Hfiles).
    destruct (run_entries w' names' f1 [f3] cols Hdir' Hsel' Hhead') as [_ Hres'].
    assert (omap (transformed w' (filter (λ c, c ∈ cols) IMAGE_COLUMNS)) [f1; f3]
            = [df1; df3]) as Hdfs'.
    { simpl. rewrite !(transformed_files w' w) by done.
      unfold transformed. by rewrite Hout1, Hout3. }
    rewrite Hdfs', Hwrite' in Hres'. destruct Hres' as [Hres' Hfile'].
    by rewrite Hres, Hres', Hfile, Hfile'.
Qed.

End partial_failure.

Lemma skip_and_continue_witness :
  (discover [py "batch_3.csv"; py "audit_table.csv"; py "batch_1.csv";
             py "progress.csv"; py "batch_2.csv"; py "readme.md"]
   = [py "batch_1.csv"; py "batch_2.csv"; py "batch_3.csv"]
   ∧ is_Some (transformed three_batches [py "image_1"; py "image_2"] (py "batch_1.csv"))
   ∧ transform_outcome three_batches [py "image_1"; py "image_2"] (py "batch_2.csv")
     = Raise (Exception (py "Error tokenizing data"))
   ∧ is_Some (transformed three_batches [py "image_1"; py "image_2"] (py "batch_3.csv")))
  ∧ ErrorProcessing (py "batch_2.csv") (Exception (py "Error tokenizing data"))
    ∈ stdout (run three_batches).1
  ∧ (run two_batches).2 = (run three_batches).2
  ∧ output_file (run two_batches).1 = output_file (run three_batches).1.
Proof.
  assert (discover [py "batch_3.csv"; py "audit_table.csv"; py "batch_1.csv";
                    py "progress.csv"; py "batch_2.csv"; py "readme.md"]
          = [py "batch_1.csv"; py "batch_2.csv"; py "batch_3.csv"]) as Hsel
    by (vm_compute; reflexivity).
  assert (discover [py "batch_3.csv"; py "audit_table.csv"; py "batch_1.csv";
                    py "progress.csv"; py "readme.md"]
          = [py "batch_1.csv"; py "batch_3.csv"]) as Hsel'
    by (vm_compute; reflexivity).
  assert (∃ df1, transform_outcome three_batches [py "image_1"; py "image_2"]
                                   (py "batch_1.csv") = Ok df1) as [df1 Hout1]
    by (eexists; vm_compute; reflexivity).
  assert (∃ df3, transform_outcome three_batches [py "image_1"; py "image_2"]
                                   (py "batch_3.csv") = Ok df3) as [df3 Hout3]
    by (eexists; vm_compute; reflexivity).
  assert (transform_outcome three_batches [py "image_1"; py "image_2"]
            (py "batch_2.csv")
          = Raise (Exception (py "Error tokenizing data"))) as Hout2
    by (vm_compute; reflexivity).
  split.
  { split_and!; [exact Hsel|..|exact Hout2|].
    - unfold transformed. rewrite Hout1. by eexists.
    - unfold transformed. rewrite Hout3. by eexists. }
  destruct skip_and_continue as [_ Hthree].
  destruct (Hthree three_batches _ _ _ _ detail_columns df1 df3 _
                   eq_refl Hsel eq_refl eq_refl Hout1 Hout2 Hout3)
    as (Hlog & _ & _ & _ & Hsame).
  split; [exact Hlog|].
  exact (Hsame two_batches _ eq_refl Hsel' eq_refl eq_refl).
Defined.

(** ** The combined output *)

Section output.

Implicit Types (w : world) (names : list pystr) (out combined : DataFrame).

(** A run that returns a table went through every step. *)
Lemma run_returns_inv w st out :
  run w = (st, Ok (Some out)) →
  ∃ names first rest cols,
    input_dir w = Entries names ∧ discover names = first :: rest
    ∧ read_head (files w first) = Ok cols ∧ write_error w = None
    ∧ out = final_table
              (omap (transformed w (filter (λ c, c ∈ cols) IMAGE_COLUMNS))
                    (first :: rest))
    ∧ output_file st = Some out.
Proof.
  intros Hrun. destruct (input_dir w) as [|e|names] eqn:Hdir.
  { by rewrite run_no_directory in Hrun. }
  { unfold run, run_post_processor in Hrun.
    by rewrite print_then_run, Hdir in Hrun. }
  destruct (discover names) as [|first rest] eqn:Hsel.
  { by rewrite (run_no_selection w names) in Hrun. }
  destruct (read_head (files w first)) as [cols|e] eqn:Hhead.
  2:{ by rewrite (run_first_header_raises w names first rest e) in Hrun. }
  exists names, first, rest, cols.
  destruct (run_entries w names first rest cols Hdir Hsel Hhead) as [_ Hres].
  rewrite Hrun in Hres. cbn [fst snd] in Hres.
  destruct (omap _ (first :: rest)) as [|df dfs]; [by destruct Hres|].
  destruct (write_error w); [by destruct Hres|].
  destruct Hres as [[= ->] ->]. done.
Qed.

Lemma transformed_shape w image_cols (fs : list pystr) :
  Forall (λ df, within df ∧ canonical df) (omap (transformed w image_cols) fs).
Proof.
  apply Forall_forall. intros df (f & _ & Hf)%list_elem_of_omap.
  apply (transform_outcome_shape w f image_cols).
  unfold transformed in Hf. by destruct (transform_outcome w image_cols f) as [?|?]; simplify_eq.
Qed.

(** What the pipeline makes of tables of canonical shape. *)
Lemma final_table_shape (all_dfs : list DataFrame) :
  Forall (λ df, within df ∧ canonical df) all_dfs →
  let out := final_table all_dfs in
  canonical out ∧ within out
  ∧ ∀ c, c ∈ columns out → ∃ r, r ∈ rows out ∧ is_Some (r !! c).
Proof.
  intros Hdfs out. split_and!.
  - intros c [Hc _]%columns_pruned.
    apply (proj1 (columns_deduplicated _ _)) in Hc.
    apply (canonical_concat all_dfs); [|exact Hc].
    eapply Forall_impl; [exact Hdfs|]. by intros df [_ ?].
  - apply within_pruned, within_deduplicated, within_concat.
    eapply Forall_impl; [exact Hdfs|]. by intros df [? _].
  - intros c [_ (r & Hr & Hcell)]%columns_pruned. exists r. split; [|done].
    unfold out, final_table. by rewrite rows_pruned.
Qed.

(** C6. The columns of the combined output are allow-listed or derived
    fields, no row has a cell outside them, and each of them has a
    value in at least one row. *)
Theorem output_columns w st out :
  run w = (st, Ok (Some out)) →
  output_file st = Some out
  ∧ (∀ c, c ∈ columns out → c ∈ COLUMNS_TO_KEEP ∨ c ∈ DERIVED_COLUMNS)
  ∧ (∀ r c, r ∈ rows out → is_Some (r !! c) → c ∈ columns out)
  ∧ (∀ c, c ∈ columns out → ∃ r, r ∈ rows out ∧ is_Some (r !! c)).
Proof.
  intros (names & first & rest & cols & _ & _ & _ & _ & -> & Hfile)%run_returns_inv.
  split; [done|]. apply final_table_shape, transformed_shape.
Qed.

End output.

Lemma output_columns_witness :
  ∃ st out,
    run three_batches = (st, Ok (Some out))
    ∧ output_file st = Some out
    ∧ (∀ c, c ∈ columns out → c ∈ COLUMNS_TO_KEEP ∨ c ∈ DERIVED_COLUMNS)
    ∧ (∀ r c, r ∈ rows out → is_Some (r !! c) → c ∈ columns out)
    ∧ (∀ c, c ∈ columns out → ∃ r, r ∈ rows out ∧ is_Some (r !! c)).
Proof.
  assert (∃ st out, run three_batches = (st, Ok (Some out))) as (st & out & Hrun)
    by (eexists _, _; vm_compute; reflexivity).
  exists st, out. split; [exact Hrun|].
  exact (output_columns three_batches st out Hrun).
Defined.

Section dedup_keys.

Implicit Types (w : world) (names : list pystr) (out combined : DataFrame).




End dedup_keys.


Section null_keys.

Implicit Types (combined : DataFrame).

(** With the variant identifier column, the rows without identifier all
    stay, in their order, after the rows with identifier. *)
Lemma variant_path_keeps_null_rows combined :
  let k := py "detail_variant_sku" in
  k ∈ columns combined →
  ∃ with_key,
    rows (pruned (deduplicated combined))
    = with_key ++ filter (λ r, r !! k = None) (rows combined)
    ∧ ∀ r, r ∈ with_key → is_Some (r !! k).
Proof.
  intros k Hk. rewrite rows_pruned, deduplicated_variant by done.
  eexists. split; [done|].
  intros r [Hr _]%kept_elem. by apply list_elem_of_filter in Hr as [? _].
Qed.

(** With the plain identifier column only, at most one of the rows
    without identifier stays. *)
Lemma sku_path_keeps_one_null_row combined :
  py "detail_variant_sku" ∉ columns combined → py "sku" ∈ columns combined →
  (length (filter (λ r, r !! py "sku" = None)
                  (rows (pruned (deduplicated combined)))) ≤ 1)%nat.
Proof.
  intros Hvariant Hsku. rewrite rows_pruned, deduplicated_sku by done.
  apply NoDup_key_once, kept_NoDup.
Qed.

(** C1 fails on the plain identifier path: of the two products without
    [sku] in the listing batch, Kite and Ball, only the first one is in
    the output. *)
Theorem sku_fallback_drops_null_rows :
  read_full (files listing_only (py "listing.csv"))
  = Ok {| columns := [py "sku"; py "name"];
          rows := [ {[ py "sku" := VStr (py "N1"); py "name" := VStr (py "Doll") ]};
                    {[ py "name" := VStr (py "Kite") ]};
                    {[ py "name" := VStr (py "Ball") ]} ] |}
  ∧ (run listing_only).2
    = Ok (Some {| columns := [py "sku"; py "name"; py "image_count"];
                  rows := [ {[ py "sku" := VStr (py "N1");
                               py "name" := VStr (py "Doll");
                               py "image_count" := VInt 0 ]};
                            {[ py "name" := VStr (py "Kite");
                               py "image_count" := VInt 0 ]} ] |}).
Proof. split; [reflexivity|]. vm_compute. reflexivity. Qed.

End null_keys.

(** ** The depth of a category path *)

Section breadcrumb_depth.

Implicit Types (s seg : pystr) (sep c : N).

Lemma split_length sep s : length (split sep s) = S (occurrences sep s).
Proof.
  unfold occurrences, pystr in *. induction s as [|c s IH]; [done|]. simpl split.
  destruct (N.eqb_spec c sep) as [->|Hc].
  - rewrite filter_cons_True by done. simpl. by rewrite IH.
  - rewrite filter_cons_False by done. rewrite <-IH.
    destruct (split sep s) as [|seg segs] eqn:E; [by apply split_not_nil in E|done].
Qed.

Lemma split_segments_free sep s : Forall (λ seg, sep ∉ seg) (split sep s).
Proof.
  induction s as [|c s IH]; simpl.
  { apply Forall_cons_2; [apply not_elem_of_nil|apply Forall_nil_2]. }
  destruct (N.eqb_spec c sep) as [->|Hc].
  - apply Forall_cons_2; [apply not_elem_of_nil|done].
  - destruct (split sep s) as [|seg segs]; [|apply Forall_cons in IH as [Hseg Hsegs]].
    + apply Forall_cons_2; [|apply Forall_nil_2].
      intros [->|[]%elem_of_nil]%elem_of_cons. done.
    + apply Forall_cons_2; [|done].
      intros [->|?]%elem_of_cons; done.
Qed.

(** [strip] only removes characters. *)
Lemma elem_of_strip s c : c ∈ strip s → c ∈ s.
Proof.
  intros Hc. destruct (strip_decompose s) as (l & r & Heq & _).
  rewrite Heq. apply elem_of_app. right. apply elem_of_app. by left.
Qed.

(** X1. The slots that [split_breadcrumbs] fills come first, without a
    gap: as many as there are ['>'] in the text, at most four, and none
    for a missing or blank input. No value of a slot holds a ['>'] or
    white space at either end. *)
Theorem split_breadcrumbs_depth (b : option value) :
  ∃ cats,
    slots (split_breadcrumbs b) = (Some <$> cats) ++ replicate (4 - length cats) None
    ∧ Forall (λ s, trimmed s ∧ gt_sign ∉ s) cats
    ∧ length cats
      = match b with
        | None => 0%nat
        | Some v =>
            if bool_decide (blank (py_str v)) then 0%nat
            else (occurrences gt_sign (py_str v) `min` 4)%nat
        end.
Proof.
  destruct b as [v|]; [|by exists []].
  case_bool_decide as Hb.
  { exists []. by rewrite split_breadcrumbs_blank. }
  rewrite split_breadcrumbs_segments by done. cbv zeta.
  exists (take 4 (drop 1 (strip <$> split gt_sign (py_str v)))). split_and!.
  - unfold slots. cbn [category_1 category_2 category_3 category_4].
    by destruct (strip <$> split gt_sign (py_str v))
      as [|s0 [|s1 [|s2 [|s3 [|s4 rest]]]]].
  - apply Forall_take, Forall_drop, Forall_fmap, Forall_forall.
    intros seg Hseg. split; [apply strip_trimmed|].
    intros Hin%elem_of_strip. revert Hin.
    by apply (proj1 (Forall_forall _ _) (split_segments_free gt_sign (py_str v))).
  - rewrite length_take, length_drop, length_fmap, split_length. lia.
Qed.

End breadcrumb_depth.

(** ** The text of [all_images] *)

Section all_images_text.

Import Json.

Implicit Types (row : Series) (image_cols : list pystr) (c : N).

Lemma hex_char_printable d : d < 16 → printable (hex_char d).
Proof. unfold hex_char, printable. intros Hd. destruct (N.ltb_spec d 10); lia. Qed.

Lemma u_escape_printable n : Forall printable (u_escape n).
Proof.
  unfold u_escape.
  repeat (apply Forall_cons_2; [|]); try apply Forall_nil_2;
    try (by vm_compute); apply hex_char_printable; apply N.mod_lt; lia.
Qed.

Lemma escape_char_printable c : Forall printable (escape_char c).
Proof.
  unfold escape_char.
  repeat (destruct (_ =? _); [by repeat constructor|]).
  destruct (andb _ _) eqn:Hc.
  { apply andb_true_iff in Hc as [?%N.leb_le ?%N.leb_le].
    apply Forall_cons_2; [done|apply Forall_nil_2]. }
  destruct (_ <? _); [apply u_escape_printable|].
  apply Forall_app; split; apply u_escape_printable.
Qed.

Lemma encode_string_printable (s : pystr) : Forall printable (encode_string s).
Proof.
  unfold encode_string. apply Forall_cons_2; [by vm_compute|].
  apply Forall_app. split; [|by repeat constructor].
  unfold escape. apply Forall_bind, Forall_forall. intros c _.
  apply escape_char_printable.
Qed.

Lemma join_items_printable (items : list pystr) :
  Forall (Forall printable) items → Forall printable (join_items items).
Proof.
  induction items as [|x [|y items] IH]; intros Hall.
  - apply Forall_nil_2.
  - by apply Forall_cons in Hall as [? _].
  - apply Forall_cons in Hall as [Hx Hall]. rewrite join_items_cons.
    apply Forall_app. split; [done|].
    do 2 (apply Forall_cons_2; [by vm_compute|]). by apply IH.
Qed.

Lemma dumps_printable (l : list pystr) : Forall printable (dumps l).
Proof.
  unfold dumps. apply Forall_cons_2; [by vm_compute|].
  apply Forall_app. split; [|by repeat constructor].
  apply join_items_printable, Forall_fmap, Forall_forall. intros s _.
  apply encode_string_printable.
Qed.

(** X2. Whatever the URLs are made of, the text that [combine_images]
    returns is printable ASCII, between ['['] and [']'], and begins with
    a quoted item: it is never the empty array. *)
Theorem all_images_ascii row image_cols all_images :
  combine_images row image_cols = Some all_images →
  Forall printable all_images
  ∧ (∃ text, all_images = lbracket :: quote :: text)
  ∧ last all_images = Some rbracket.
Proof.
  rewrite combine_images_consolidated.
  destruct (consolidated row image_cols) as [|u urls]; [done|].
  intros [= <-]. split_and!.
  - apply dumps_printable.
  - unfold dumps. destruct urls; simpl; eauto.
  - unfold dumps. rewrite app_comm_cons. apply last_snoc.
Qed.

(** X3. On records whose URLs are made of Unicode scalar values the text
    of [all_images] determines the list of images: two records get the
    same text only if their consolidated lists are the same. *)
Theorem all_images_injective row row' image_cols image_cols' :
  Forall well_formed (consolidated row image_cols) →
  Forall well_formed (consolidated row' image_cols') →
  combine_images row image_cols = combine_images row' image_cols' →
  consolidated row image_cols = consolidated row' image_cols'.
Proof.
  rewrite !combine_images_consolidated. intros Hw Hw' Heq.
  destruct (loads_dumps (consolidated row image_cols)) as (outs & Hl & _ & Hwf).
  destruct (loads_dumps (consolidated row' image_cols')) as (outs' & Hl' & _ & Hwf').
  rewrite <-(Hwf Hw), <-(Hwf' Hw'). clear Hwf Hwf' Hw Hw'.
  destruct (consolidated row image_cols) as [|u urls],
           (consolidated row' image_cols') as [|u' urls']; try done.
  - by injection Hl as <-; injection Hl' as <-.
  - apply (inj Some) in Heq. rewrite Heq in Hl. congruence.
Qed.

(** X4. [combine_images] returns null exactly when no candidate field
    that the record has holds text: each is null or white space. *)
Theorem combine_images_none row image_cols :
  combine_images row image_cols = None
  ↔ ∀ col, col ∈ image_cols → col ∈ index row → blank_cell (cells row !! col).
Proof.
  rewrite combine_images_consolidated.
  assert (consolidated row image_cols = []
          ↔ ∀ u, u ∈ candidate_urls row image_cols → u = []) as Hnil.
  { destruct (combine_images_general row image_cols) as ((_ & _ & _ & Helem) & _).
    cbv zeta in Helem. split.
    - intros Hnil u Hu. destruct (decide (u = [])) as [|Hne]; [done|].
      assert (u ∈ consolidated row image_cols) as Hin by (by apply Helem).
      rewrite Hnil in Hin. by apply elem_of_nil in Hin.
    - intros Hall. destruct (consolidated row image_cols) as [|u urls] eqn:E; [done|].
      assert (u ∈ u :: urls) as Hin by (by left).
      apply Helem in Hin as [Hin Hne]. by destruct Hne, (Hall u). }
  assert (∀ u, u ∈ candidate_urls row image_cols
               ↔ ∃ col v, col ∈ image_cols ∧ col ∈ index row
                          ∧ cells row !! col = Some v ∧ u = strip (py_str v)) as Hcand.
  { intros u. unfold candidate_urls. rewrite list_elem_of_omap. split.
    - intros (col & Hcol & Hu). case_bool_decide; [|done].
      destruct (cells row !! col) as [v|] eqn:Hv; [|done].
      injection Hu as <-. by exists col, v.
    - intros (col & v & Hcol & Hidx & Hv & ->). exists col. split; [done|].
      by rewrite bool_decide_eq_true_2, Hv. }
  split.
  - intros Hnone col Hcol Hidx.
    destruct (consolidated row image_cols) as [|? ?] eqn:E; [|done].
    destruct (cells row !! col) as [v|] eqn:Hv; [|done]. simpl.
    apply strip_nil_inv, (proj1 Hnil eq_refl), Hcand. by exists col, v.
  - intros Hall. rewrite (proj2 Hnil); [done|].
    intros u (col & v & Hcol & Hidx & Hv & ->)%Hcand.
    specialize (Hall col Hcol Hidx). rewrite Hv in Hall. by apply strip_blank.
Qed.

End all_images_text.

(** ** The per-file transform: shape and failures *)

Section transform_shape.

Implicit Types (w : world) (f : pystr) (image_cols : list pystr) (df : DataFrame).

Lemma NoDup_COLUMNS_TO_KEEP : NoDup COLUMNS_TO_KEEP.
Proof. apply (bool_decide_unpack _). vm_compute. exact I. Qed.

Lemma NoDup_DERIVED_COLUMNS : NoDup DERIVED_COLUMNS.
Proof. apply (bool_decide_unpack _). vm_compute. exact I. Qed.

(** X5. The table that [process_csv] returns has one row for each row of
    the file and, whatever the order of the columns in the file, the
    allow-listed columns that the file has in the order of the allow
    list, followed by the six derived columns; no column comes twice. *)
Theorem process_csv_shape w f image_cols df df_out :
  read_full (files w f) = Ok df →
  transform_outcome w image_cols f = Ok df_out →
  columns df_out = filter (λ c, c ∈ columns df) COLUMNS_TO_KEEP ++ DERIVED_COLUMNS
  ∧ len df_out = len df
  ∧ NoDup (columns df_out).
Proof.
  intros Hread Hout.
  destruct (process_csv_records w f image_cols df Hread)
    as [(_ & _ & Hraise)|(_ & df' & Hok & Hcols & Hrows)]; [congruence|].
  assert (df' = df_out) as -> by congruence.
  split_and!; [done|unfold len; by apply Forall2_length in Hrows|].
  rewrite Hcols. apply NoDup_app. split_and!.
  - apply NoDup_filter, NoDup_COLUMNS_TO_KEEP.
  - intros c Hc Hd. by apply (derived_not_kept c Hd df).
  - apply NoDup_DERIVED_COLUMNS.
Qed.

(** X6. [process_csv] raises in two cases only: the file cannot be read,
    and the exception is that of the reader; or the file has the
    breadcrumb column and no row, and the exception is the [KeyError] of
    [cats['category_1']]. A file that is read and has a row is always
    transformed: decoding [all_images] never fails. *)
Theorem process_csv_raises w f image_cols e :
  transform_outcome w image_cols f = Raise e
  ↔ read_full (files w f) = Raise e
    ∨ ∃ df, read_full (files w f) = Ok df
            ∧ py "detail_breadcrumbs" ∈ columns df ∧ rows df = []
            ∧ e = Exception (py "'category_1'").
Proof.
  destruct (read_full (files w f)) as [df|e'] eqn:Hread.
  - destruct (process_csv_records w f image_cols df Hread)
      as [(Hcrumbs & Hrows & Hraise)|(Hnot & df' & Hok & _)].
    + rewrite Hraise. split.
      * intros [= <-]. right. by exists df.
      * intros [[=]|(df' & [= <-] & _ & _ & ->)]. done.
    + rewrite Hok. split; [done|].
      intros [[=]|(df'' & [= <-] & ? & ? & _)]. by destruct Hnot.
  - rewrite (transform_outcome_unreadable w f image_cols e' Hread). split.
    + intros [= <-]. by left.
    + by intros [[= <-]|(df & [=] & _)].
Qed.

End transform_shape.

(** ** Where the rows of the output come from *)

Section provenance.

Implicit Types (w : world) (f : pystr) (image_cols : list pystr)
         (df out : DataFrame) (r : row).

Lemma selected_entries w names : input_dir w = Entries names → selected w = discover names.
Proof. unfold selected. by intros ->. Qed.

Lemma detected_header w names first rest cols :
  input_dir w = Entries names → discover names = first :: rest →
  read_head (files w first) = Ok cols →
  detected w = filter (λ c, c ∈ cols) IMAGE_COLUMNS.
Proof.
  intros Hdir Hsel Hhead. unfold detected.
  by rewrite (selected_entries w names Hdir), Hsel, Hhead.
Qed.

(** A run that returns a table returns what the pipeline makes of the
    tables of the selected files, and has written it. *)
Lemma run_returns_tables w st out :
  run w = (st, Ok (Some out)) →
  out = final_table (tables w) ∧ output_file st = Some out
  ∧ write_error w = None ∧ tables w ≠ [].
Proof.
  intros Hrun.
  destruct (run_returns_inv w st out Hrun)
    as (names & first & rest & cols & Hdir & Hsel & Hhead & Hwrite & Hout & Hfile).
  assert (tables w = omap (transformed w (filter (λ c, c ∈ cols) IMAGE_COLUMNS))
                          (first :: rest)) as Htables.
  { unfold tables.
    by rewrite (detected_header w names first rest cols), (selected_entries w names), Hsel. }
  rewrite Htables. split_and!; [done..|].
  destruct (run_entries w names first rest cols Hdir Hsel Hhead) as [_ Hres].
  cbv zeta in Hres. intros Hnil. rewrite Hnil, Hrun in Hres. by destruct Hres.
Qed.









End provenance.

(** ** How a run ends *)

Section outcomes.

Implicit Types (w : world) (f : pystr) (df out : DataFrame) (r : row).

Lemma run_listing_fails w e :
  input_dir w = ListingFails e →
  run w = ({| stdout := [Banner]; output_file := None |}, Raise e).
Proof. intros Hdir. unfold run, run_post_processor. by rewrite print_then_run, Hdir. Qed.

Lemma tables_entries w names first rest cols :
  input_dir w = Entries names → discover names = first :: rest →
  read_head (files w first) = Ok cols →
  tables w = omap (transformed w (filter (λ c, c ∈ cols) IMAGE_COLUMNS)) (first :: rest).
Proof.
  intros Hdir Hsel Hhead. unfold tables.
  by rewrite (detected_header w names first rest cols), (selected_entries w names), Hsel.
Qed.

Lemma tables_nil w :
  tables w = [] ↔ ∀ f, f ∈ selected w → ∃ e, transform_outcome w (detected w) f = Raise e.
Proof.
  unfold tables. induction (selected w) as [|f fs IH].
  { split; [by intros _ f ?%elem_of_nil|done]. }
  unfold transformed at 1. simpl.
  destruct (transform_outcome w (detected w) f) as [df|e] eqn:Hout.
  - split; [done|]. intros Hall. destruct (Hall f) as [e He]; [by left|congruence].
  - fold (transformed w (detected w)). rewrite IH. split.
    + intros Hall f' [->|?]%elem_of_cons; [by exists e|by apply Hall].
    + intros Hall f' ?. apply Hall. by right.
Qed.

(** The ways in which a run ends. *)
Lemma run_cases w :
  match (run w).2 with
  | Ok (Some out) =>
      output_file (run w).1 = Some out
      ∧ out = final_table (tables w) ∧ tables w ≠ []
  | Ok None =>
      output_file (run w).1 = None
      ∧ (input_dir w = NoSuchPath
         ∨ (∃ names, input_dir w = Entries names ∧ discover names = [])
         ∨ (selected w ≠ []
            ∧ ∀ f, f ∈ selected w →
                   ∃ e, transform_outcome w (detected w) f = Raise e))
  | Raise e =>
      output_file (run w).1 = None
      ∧ (input_dir w = ListingFails e
         ∨ (∃ first rest,
              selected w = first :: rest ∧ read_head (files w first) = Raise e)
         ∨ (write_error w = Some e ∧ tables w ≠ []))
  end.
Proof.
  destruct (input_dir w) as [|e|names] eqn:Hdir.
  { rewrite run_no_directory by done. simpl. split; [done|by left]. }
  { rewrite (run_listing_fails w e) by done. simpl. split; [done|by left]. }
  destruct (discover names) as [|first rest] eqn:Hsel.
  { rewrite (run_no_selection w names) by done. simpl.
    split; [done|]. right. left. by exists names. }
  assert (selected w = first :: rest) as Hselected
    by (by rewrite (selected_entries w names Hdir)).
  destruct (read_head (files w first)) as [cols|e] eqn:Hhead.
  2:{ rewrite (run_first_header_raises w names first rest e) by done. simpl.
      split; [done|]. right. left. by exists first, rest. }
  destruct (run_entries w names first rest cols Hdir Hsel Hhead) as [_ Hres].
  cbv zeta in Hres.
  rewrite <-(tables_entries w names first rest cols Hdir Hsel Hhead) in Hres.
  destruct (tables w) as [|df dfs] eqn:Htables.
  { destruct Hres as [-> ->]. split; [done|]. right. right.
    split; [by rewrite Hselected|]. by apply tables_nil. }
  destruct (write_error w) as [e|].
  - destruct Hres as [-> ->]. split; [done|]. right. right. done.
  - destruct Hres as [-> ->]. done.
Qed.

(** X9. A run ends in one of three ways. It returns a table, which is
    then the table written: what the pipeline makes of the tables of the
    selected files, one of them at least. It returns [None], having
    written nothing: the directory does not exist, or no file is
    selected, or the transform of every selected file raised. It raises,
    having written no table: the exception is that of listing the
    directory, of reading the header of the first selected file, or of
    writing the output. No exception of a transform leaves the run. *)
Theorem run_outcomes w :
  match (run w).2 with
  | Ok (Some out) =>
      output_file (run w).1 = Some out
      ∧ out = final_table (tables w) ∧ tables w ≠ []
  | Ok None =>
      output_file (run w).1 = None
      ∧ (input_dir w = NoSuchPath
         ∨ (∃ names, input_dir w = Entries names ∧ discover names = [])
         ∨ (selected w ≠ []
            ∧ ∀ f, f ∈ selected w →
                   ∃ e, transform_outcome w (detected w) f = Raise e))
  | Raise e =>
      output_file (run w).1 = None
      ∧ (input_dir w = ListingFails e
         ∨ (∃ first rest,
              selected w = first :: rest ∧ read_head (files w first) = Raise e)
         ∨ (write_error w = Some e ∧ tables w ≠ []))
  end.
Proof. apply run_cases. Qed.


End outcomes.

(** ** The deduplication block, row by row *)

Section dedup_rows.

Implicit Types (k c : pystr) (r : row) (rs : list row)
         (earlier : list (option value)) (v : option value)
         (combined df : DataFrame).

Lemma filter_ext_in {X} (P Q : X → Prop) `{!∀ x, Decision (P x)}
      `{!∀ x, Decision (Q x)} (l : list X) :
  (∀ x, x ∈ l → P x ↔ Q x) → filter P l = filter Q l.
Proof.
  induction l as [|x l IH]; intros Hl; [done|].
  assert (filter P l = filter Q l) as IH' by (apply IH; intros y ?; apply Hl; by right).
  destruct (decide (P x)) as [HP|HP].
  - rewrite !filter_cons_True; [by rewrite IH'|by apply Hl; [left|]|done].
  - rewrite !filter_cons_False; [done| |done].
    intros HQ. apply HP, Hl; [by left|done].
Qed.

Lemma filter_all {X} (P : X → Prop) `{!∀ x, Decision (P x)} (l : list X) :
  (∀ x, x ∈ l → P x) → filter P l = l.
Proof.
  induction l as [|x l IH]; intros Hl; [done|].
  rewrite filter_cons_True by (apply Hl; by left).
  f_equal. apply IH. intros y ?. apply Hl. by right.
Qed.

(** Rows without a repeated key, none of them met before, are all kept. *)
Lemma kept_all k earlier rs :
  NoDup ((.!! k) <$> rs) → (∀ r, r ∈ rs → r !! k ∉ earlier) →
  kept k earlier rs = rs.
Proof.
  revert earlier. induction rs as [|r rs IH]; intros earlier Hnd Hnew; [done|].
  rewrite fmap_cons in Hnd. apply NoDup_cons in Hnd as [Hr Hnd].
  rewrite kept_cons, bool_decide_eq_false_2 by (apply Hnew; by left).
  f_equal. apply IH; [done|]. intros r' Hr'. apply not_elem_of_cons. split.
  - intros Heq. apply Hr, list_elem_of_fmap. by exists r'.
  - apply Hnew. by right.
Qed.

Lemma kept_idemp k rs : kept k [] (kept k [] rs) = kept k [] rs.
Proof.
  apply kept_all; [apply kept_NoDup|]. intros r _. apply not_elem_of_nil.
Qed.

Lemma kept_sublist k earlier rs : kept k earlier rs `sublist_of` rs.
Proof. apply select_rows_sublist. Qed.

(** Of the rows with a given key, the first one is kept and no other,
    unless the key was met before. *)
Lemma kept_filter_key k earlier rs v `{!∀ r : row, Decision (r !! k = v)} :
  filter (λ r, r !! k = v) (kept k earlier rs)
  = if bool_decide (v ∈ earlier) then []
    else take 1 (filter (λ r, r !! k = v) rs).
Proof.
  revert earlier. induction rs as [|r rs IH]; intros earlier.
  { by case_bool_decide. }
  assert (r !! k ≠ v →
          bool_decide (v ∈ r !! k :: earlier) = bool_decide (v ∈ earlier)) as Hsame.
  { intros Hv. apply bool_decide_ext. rewrite elem_of_cons. split; [|tauto].
    by intros [->|?]. }
  rewrite kept_cons.
  destruct (decide (r !! k ∈ earlier)) as [Hmet|Hmet];
    [rewrite (bool_decide_eq_true_2 _ Hmet)|rewrite (bool_decide_eq_false_2 _ Hmet)];
    destruct (decide (r !! k = v)) as [Hv|Hv].
  - rewrite IH. subst v. rewrite bool_decide_eq_true_2 by (by left).
    by rewrite bool_decide_eq_true_2.
  - rewrite IH, (Hsame Hv). rewrite (filter_cons_False _ r rs) by done. done.
  - rewrite filter_cons_True by done. rewrite IH. subst v.
    rewrite bool_decide_eq_true_2 by (by left).
    rewrite bool_decide_eq_false_2 by done.
    by rewrite (filter_cons_True _ r rs).
  - rewrite filter_cons_False by done.
    rewrite IH, (Hsame Hv). by rewrite (filter_cons_False _ r rs).
Qed.

Lemma filter_partition (P Q : row → Prop) `{!∀ r, Decision (P r)}
      `{!∀ r, Decision (Q r)} rs :
  (∀ r, P r ↔ ¬ Q r) →
  (length (filter P rs) + length (filter Q rs))%nat = length rs.
Proof.
  intros HPQ. induction rs as [|r rs IH]; [done|].
  destruct (decide (Q r)) as [HQ|HQ].
  - rewrite filter_cons_False by (by rewrite HPQ; intros Hn; apply Hn).
    rewrite filter_cons_True by done. simpl. lia.
  - rewrite filter_cons_True by (by apply HPQ).
    rewrite filter_cons_False by done. simpl. lia.
Qed.

Lemma union_columns_NoDup (seen cs : list pystr) : NoDup (union_columns seen cs).
Proof.
  revert seen. induction cs as [|c cs IH]; intros seen; simpl; [constructor|].
  case_bool_decide; [apply IH|]. constructor; [|apply IH].
  rewrite elem_of_union_columns. intros [_ Hc]. apply Hc. by left.
Qed.

Lemma union_columns_seen (seen cs : list pystr) :
  (∀ c, c ∈ cs → c ∈ seen) → union_columns seen cs = [].
Proof.
  induction cs as [|c cs IH]; intros Hall; simpl; [done|].
  rewrite bool_decide_eq_true_2 by (apply Hall; by left).
  apply IH. intros c' ?. apply Hall. by right.
Qed.

Lemma union_columns_ext (seen seen' cs : list pystr) :
  (∀ c, c ∈ seen ↔ c ∈ seen') → union_columns seen cs = union_columns seen' cs.
Proof.
  revert seen seen'. induction cs as [|c cs IH]; intros seen seen' Hsame; simpl; [done|].
  rewrite (bool_decide_ext _ (c ∈ seen')) by apply Hsame.
  case_bool_decide; [by apply IH|]. f_equal. apply IH.
  intros c'. rewrite !elem_of_cons, Hsame. done.
Qed.

Lemma union_columns_app (seen l1 l2 : list pystr) :
  union_columns seen (l1 ++ l2)
  = union_columns seen l1 ++ union_columns (l1 ++ seen) l2.
Proof.
  revert seen. induction l1 as [|c l1 IH]; intros seen; simpl; [done|].
  case_bool_decide as Hc.
  - rewrite IH. f_equal. apply union_columns_ext.
    intros c'. rewrite elem_of_cons. split; [by right|].
    intros [->|?]; [|done]. apply elem_of_app. by right.
  - rewrite IH. simpl. do 2 f_equal. apply union_columns_ext.
    intros c'. rewrite elem_of_app, !elem_of_cons, elem_of_app. tauto.
Qed.

Lemma union_columns_id (seen l : list pystr) :
  NoDup l → (∀ c, c ∈ l → c ∉ seen) → union_columns seen l = l.
Proof.
  revert seen. induction l as [|c l IH]; intros seen Hnd Hnew; simpl; [done|].
  apply NoDup_cons in Hnd as [Hc Hnd].
  rewrite bool_decide_eq_false_2 by (apply Hnew; by left).
  f_equal. apply IH; [done|]. intros c' Hc'. apply not_elem_of_cons. split.
  - by intros ->.
  - apply Hnew. by right.
Qed.

(** Listing the columns of a table twice adds no column. *)
Lemma union_columns_twice (l : list pystr) :
  union_columns [] (l ++ l ++ []) = union_columns [] l.
Proof.
  rewrite app_nil_r, union_columns_app, app_nil_r.
  rewrite (union_columns_seen l l) by done. by rewrite app_nil_r.
Qed.

Lemma columns_deduplicated_eq combined :
  columns (deduplicated combined)
  = if bool_decide (py "detail_variant_sku" ∈ columns combined)
    then union_columns [] (columns combined) else columns combined.
Proof.
  unfold deduplicated, remove_duplicates.
  repeat case_bool_decide;
    cbv beta iota delta [mbind io_bind print mret io_ret snd]; [|done..].
  change (columns (concat [?a; ?b])) with (union_columns [] (columns a ++ columns b ++ [])).
  apply union_columns_twice.
Qed.

Lemma columns_deduplicated_NoDup combined :
  NoDup (columns combined) → columns (deduplicated combined) = columns combined.
Proof.
  intros Hnd. rewrite columns_deduplicated_eq. case_bool_decide; [|done].
  apply union_columns_id; [done|]. intros c _. apply not_elem_of_nil.
Qed.

Lemma DataFrame_eq (df df' : DataFrame) :
  columns df = columns df' → rows df = rows df' → df = df'.
Proof. destruct df, df'. simpl. by intros -> ->. Qed.

Lemma filter_kept_some k rs :
  filter (λ r, is_Some (r !! k)) (kept k [] (filter (λ r, is_Some (r !! k)) rs))
  = kept k [] (filter (λ r, is_Some (r !! k)) rs).
Proof.
  apply filter_all. intros r [Hr _]%kept_elem.
  by apply list_elem_of_filter in Hr as [? _].
Qed.

Lemma filter_none_some k rs :
  filter (λ r, r !! k = None) (filter (λ r, is_Some (r !! k)) rs) = [].
Proof.
  apply filter_none. intros r [[x Hx] _]%list_elem_of_filter. congruence.
Qed.

Lemma filter_some_none k rs :
  filter (λ r, is_Some (r !! k)) (filter (λ r, r !! k = None) rs) = [].
Proof.
  apply filter_none. intros r [Hr _]%list_elem_of_filter [x Hx]. congruence.
Qed.

Lemma rows_deduplicated_twice combined :
  rows (deduplicated (deduplicated combined)) = rows (deduplicated combined).
Proof.
  destruct (decide (py "detail_variant_sku" ∈ columns combined)) as [Hv|Hv].
  { rewrite (deduplicated_variant (deduplicated combined))
      by (by apply columns_deduplicated).
    rewrite (deduplicated_variant combined Hv). cbv zeta.
    set (k := py "detail_variant_sku").
    set (K := kept k [] (filter (λ r, is_Some (r !! k)) (rows combined))).
    rewrite !filter_app.
    rewrite (filter_all _ K)
      by (intros r [Hr _]%kept_elem; by apply list_elem_of_filter in Hr as [? _]).
    rewrite filter_some_none, app_nil_r.
    rewrite (filter_none _ K).
    2:{ intros r [Hr _]%kept_elem.
        apply list_elem_of_filter in Hr as [[x Hx] _]. congruence. }
    rewrite (filter_all _ (filter _ (rows combined)))
      by (by intros r [? _]%list_elem_of_filter).
    unfold K. by rewrite kept_idemp. }
  assert (py "detail_variant_sku" ∉ columns (deduplicated combined)) as Hv'
    by (by rewrite columns_deduplicated).
  destruct (decide (py "sku" ∈ columns combined)) as [Hs|Hs].
  { rewrite (deduplicated_sku (deduplicated combined))
      by (done || by apply columns_deduplicated).
    rewrite (deduplicated_sku combined) by done. apply kept_idemp. }
  rewrite (deduplicated_no_key (deduplicated combined)); [done|].
  unfold dedup_key. rewrite !bool_decide_eq_false_2; [done| |done].
  by rewrite columns_deduplicated.
Qed.

Lemma len_deduplicated combined : (len (deduplicated combined) ≤ len combined)%nat.
Proof.
  unfold len.
  destruct (decide (py "detail_variant_sku" ∈ columns combined)) as [Hv|Hv].
  { rewrite (deduplicated_variant combined Hv). cbv zeta. rewrite length_app.
    pose proof (sublist_length _ _
      (kept_sublist (py "detail_variant_sku") []
         (filter (λ r, is_Some (r !! py "detail_variant_sku")) (rows combined)))).
    pose proof (filter_partition (λ r, is_Some (r !! py "detail_variant_sku"))
                  (λ r, r !! py "detail_variant_sku" = None) (rows combined)) as Hpart.
    rewrite <-Hpart; [lia|]. intros r. rewrite <-not_eq_None_Some. done. }
  destruct (decide (py "sku" ∈ columns combined)) as [Hs|Hs].
  { rewrite (deduplicated_sku combined) by done. apply sublist_length, kept_sublist. }
  rewrite (deduplicated_no_key combined); [done|].
  unfold dedup_key. by rewrite !bool_decide_eq_false_2.
Qed.

(** X11. Run on its own result, the deduplication block changes nothing;
    it returns rows of the table it is given, never more of them than
    it was given. *)
Theorem remove_duplicates_idempotent combined :
  let d := deduplicated combined in
  deduplicated d = d
  ∧ (len d ≤ len combined)%nat
  ∧ ∀ r, r ∈ rows d → r ∈ rows combined.
Proof.
  cbv zeta. split_and!.
  - apply DataFrame_eq; [|apply rows_deduplicated_twice].
    rewrite (columns_deduplicated_eq (deduplicated combined)).
    case_bool_decide as Hv; [|done].
    apply (proj1 (columns_deduplicated _ _)) in Hv.
    apply union_columns_id; [|intros c _; apply not_elem_of_nil].
    rewrite columns_deduplicated_eq, bool_decide_eq_true_2 by done.
    apply union_columns_NoDup.
  - apply len_deduplicated.
  - intros r. apply elem_of_rows_deduplicated.
Qed.

End dedup_rows.

(** ** Rows without identifier *)

Section null_key_rows.

Implicit Types (w : world) (out : DataFrame) (r : row).

Lemma rows_final_table (all_dfs : list DataFrame) :
  rows (final_table all_dfs) = rows (deduplicated (concat all_dfs)).
Proof. unfold final_table. apply rows_pruned. Qed.

(** X12. When the combined table has the variant identifier column, the
    rows that lack the identifier are all in the output, in the order of
    the combined table, after all the rows that have one; these are rows
    of the combined table in their order. *)
Theorem variant_path_rows w st out :
  run w = (st, Ok (Some out)) →
  let k := py "detail_variant_sku" in
  k ∈ columns (combined_table w) →
  ∃ with_key,
    rows out = with_key ++ filter (λ r, r !! k = None) (rows (combined_table w))
    ∧ with_key `sublist_of` filter (λ r, is_Some (r !! k)) (rows (combined_table w)).
Proof.
  intros (-> & _)%run_returns_tables k Hk.
  rewrite rows_final_table. fold (combined_table w).
  rewrite (deduplicated_variant (combined_table w) Hk).
  eexists. split; [done|]. apply kept_sublist.
Qed.

(** X13. When the combined table has the plain identifier column and not
    the variant one, the output holds rows of the combined table in
    their order, and of the rows that lack the identifier the first one
    only. *)
Theorem sku_path_rows w st out :
  run w = (st, Ok (Some out)) →
  py "detail_variant_sku" ∉ columns (combined_table w) →
  py "sku" ∈ columns (combined_table w) →
  rows out `sublist_of` rows (combined_table w)
  ∧ filter (λ r, r !! py "sku" = None) (rows out)
    = take 1 (filter (λ r, r !! py "sku" = None) (rows (combined_table w))).
Proof.
  intros (-> & _)%run_returns_tables Hv Hs.
  rewrite rows_final_table. fold (combined_table w).
  rewrite (deduplicated_sku (combined_table w) Hv Hs).
  split; [apply kept_sublist|]. by rewrite kept_filter_key.
Qed.

End null_key_rows.

(** ** The block that removes the empty columns, and the columns of the
    output *)

Section column_order.

Implicit Types (w : world) (df out : DataFrame) (r : row) (c : pystr).

Lemma notna_sum_Exists c df :
  notna_sum c df ≠ 0%nat ↔ Exists (λ r, is_Some (r !! c)) (rows df).
Proof.
  rewrite notna_sum_zero, Exists_exists. split.
  - intros Hall.
    destruct (decide (Exists (λ r, is_Some (r !! c)) (rows df))) as [Hex|Hno].
    { by apply Exists_exists in Hex. }
    destruct Hall. intros r Hr. destruct (r !! c) eqn:E; [|done].
    destruct Hno. apply Exists_exists. exists r. by rewrite E.
  - intros (r & Hr & [x Hx]) Hall. specialize (Hall r Hr). congruence.
Qed.

Lemma columns_pruned_eq df :
  columns (pruned df)
  = filter (λ c, Exists (λ r, is_Some (r !! c)) (rows df)) (columns df).
Proof.
  destruct (pruned_drop_columns df) as [->|[-> Hnil]].
  - simpl. apply filter_ext_in. intros c Hc.
    rewrite list_elem_of_filter, <-notna_sum_Exists. tauto.
  - symmetry. apply filter_all. intros c Hc. apply notna_sum_Exists.
    intros Hz. by apply (filter_nil_not_elem_of _ _ c Hnil).
Qed.

(** X14. The block that removes the empty columns keeps, in their order,
    the columns with a value in some row, takes no value from any row,
    and changes nothing when it is run on its own result. *)
Theorem remove_empty_columns_spec df :
  columns (pruned df)
  = filter (λ c, Exists (λ r, is_Some (r !! c)) (rows df)) (columns df)
  ∧ rows (pruned df) = rows df
  ∧ pruned (pruned df) = pruned df.
Proof.
  split_and!; [apply columns_pruned_eq|apply rows_pruned|].
  apply DataFrame_eq; [|by rewrite !rows_pruned].
  rewrite (columns_pruned_eq (pruned df)), rows_pruned.
  apply filter_all. intros c Hc. rewrite columns_pruned_eq in Hc.
  by apply list_elem_of_filter in Hc as [? _].
Qed.

Lemma columns_concat_NoDup (dfs : list DataFrame) : NoDup (columns (concat dfs)).
Proof. apply union_columns_NoDup. Qed.

Lemma columns_final_table_sublist (all_dfs : list DataFrame) :
  columns (final_table all_dfs) `sublist_of` columns (concat all_dfs).
Proof.
  unfold final_table. rewrite columns_pruned_eq.
  rewrite (columns_deduplicated_NoDup (concat all_dfs)) by apply columns_concat_NoDup.
  apply sublist_filter.
Qed.

(** Tables with the same columns, none of them twice, are combined
    under these columns. *)
Lemma columns_concat_same (dfs : list DataFrame) (cols : list pystr) :
  dfs ≠ [] → NoDup cols → (∀ df, df ∈ dfs → columns df = cols) →
  columns (concat dfs) = cols.
Proof.
  intros Hne Hnd Hsame. destruct dfs as [|df dfs]; [done|].
  change (columns (concat (df :: dfs)))
    with (union_columns [] (columns df ++ (dfs ≫= columns))).
  rewrite union_columns_app, app_nil_r, (Hsame df) by (by left).
  rewrite union_columns_id by (done || intros c _; apply not_elem_of_nil).
  rewrite union_columns_seen; [by rewrite app_nil_r|].
  intros c (df' & Hc & Hdf')%list_elem_of_bind.
  rewrite (Hsame df') in Hc; [done|by right].
Qed.

Lemma tables_columns w df_out :
  df_out ∈ tables w →
  ∃ df, columns df_out = filter (λ c, c ∈ columns df) COLUMNS_TO_KEEP ++ DERIVED_COLUMNS.
Proof.
  intros (f & Hf & Hout)%list_elem_of_omap. unfold transformed in Hout.
  destruct (read_full (files w f)) as [df|e] eqn:Hread.
  2:{ by rewrite (transform_outcome_unreadable w f _ e) in Hout. }
  destruct (process_csv_records w f (detected w) df Hread)
    as [(_ & _ & Hraise)|(_ & df' & Hok & Hcols & _)]; rewrite ?Hraise, ?Hok in Hout;
    [done|]. injection Hout as ->. by exists df.
Qed.

(** X15. No column comes twice in the output, and the columns stand in
    the order in which the combined table has them: that of their first
    appearance over the tables of the files. When these tables have the
    same columns, this is the order of the allow list, followed by the
    derived columns, whatever the order of the columns in the files. *)
Theorem output_column_order w st out :
  run w = (st, Ok (Some out)) →
  NoDup (columns out)
  ∧ columns out `sublist_of` columns (combined_table w)
  ∧ ((∀ df df', df ∈ tables w → df' ∈ tables w → columns df = columns df') →
     columns out `sublist_of` COLUMNS_TO_KEEP ++ DERIVED_COLUMNS).
Proof.
  intros (-> & _ & _ & Hne)%run_returns_tables.
  assert (columns (final_table (tables w)) `sublist_of` columns (combined_table w))
    as Hsub by apply columns_final_table_sublist.
  split_and!; [|done|].
  - eapply sublist_NoDup; [apply columns_concat_NoDup|exact Hsub].
  - intros Hsame. etrans; [exact Hsub|].
    destruct (tables w) as [|df0 dfs] eqn:Htables; [done|].
    destruct (tables_columns w df0) as (df & Hcols); [rewrite Htables; by left|].
    unfold combined_table. rewrite ?Htables.
    rewrite (columns_concat_same (df0 :: dfs) (columns df0)).
    + rewrite Hcols. apply sublist_app; [apply sublist_filter|done].
    + done.
    + rewrite Hcols. apply NoDup_app. split_and!.
      * apply NoDup_filter, NoDup_COLUMNS_TO_KEEP.
      * intros c Hc Hd. by apply (derived_not_kept c Hd df).
      * apply NoDup_DERIVED_COLUMNS.
    + intros df' Hdf'. apply Hsame; [done|by left].
Qed.

End column_order.

(** ** The console, line by line *)

Section console.

Implicit Types (w : world) (f : pystr) (image_cols : list pystr)
         (st : state) (df out combined : DataFrame).

Lemma prints_lines {A} (m : io A) evs r :
  prints m evs r → evs = stdout (m initial).1.
Proof. intros Hm. by rewrite Hm. Qed.

Lemma process_csv_stdout w f image_cols :
  stdout (process_csv w f image_cols initial).1 = read_lines w f.
Proof.
  unfold process_csv, read_lines. rewrite print_then_run, bind_run.
  destruct (read_full (files w f)) as [df|e]; [|done].
  cbn [lift]. rewrite print_then_run, bind_run. cbn [lift].
  destruct (apply _ _) as [counts|e]; [|done].
  case_bool_decide; [|done]. by destruct (_ <$> rows df).
Qed.

Lemma process_csv_lines w f image_cols :
  prints (process_csv w f image_cols) (read_lines w f)
         (transform_outcome w image_cols f).
Proof.
  destruct (process_csv_prints w f image_cols) as (evs & Hp).
  by rewrite <-(process_csv_stdout w f image_cols), <-(prints_lines _ _ _ Hp).
Qed.

(** The loop over the files prints the lines of each file in turn. *)
Lemma process_files_lines w image_cols (csv_files : list pystr) all_dfs :
  prints (process_files w image_cols csv_files all_dfs)
         (csv_files ≫= file_lines w image_cols)
         (Ok (all_dfs ++ omap (transformed w image_cols) csv_files)).
Proof.
  revert all_dfs. induction csv_files as [|f fs IH]; intros all_dfs.
  { rewrite app_nil_r. apply prints_ret. }
  pose proof (process_csv_lines w f image_cols) as Hf.
  change ((f :: fs) ≫= file_lines w image_cols)
    with (file_lines w image_cols f ++ (fs ≫= file_lines w image_cols)).
  unfold file_lines at 1. unfold transformed at 1.
  destruct (transform_outcome w image_cols f) as [df|e] eqn:Hout;
    rewrite ?Hout in Hf.
  - rewrite (omap_cons_Some _ f df) by (by rewrite Hout).
    rewrite cons_middle, (assoc_L (++) all_dfs [df]).
    fold (transformed w image_cols).
    simpl process_files. eapply prints_bind; [|apply IH].
    apply prints_try_ok. eapply prints_bind; [done|apply prints_ret].
  - rewrite omap_cons_None by (by rewrite Hout).
    fold (transformed w image_cols).
    simpl process_files. eapply prints_bind; [|apply IH].
    eapply prints_try_raise; [by apply prints_bind_raise|].
    apply prints_print_then, prints_ret.
Qed.

Lemma remove_duplicates_lines combined :
  prints (remove_duplicates combined) (dedup_lines combined)
         (Ok (deduplicated combined)).
Proof.
  destruct (remove_duplicates_prints combined) as (evs & Hp).
  rewrite (prints_lines _ _ _ Hp) in Hp.
  assert (stdout (remove_duplicates combined initial).1 = dedup_lines combined)
    as <-; [|done].
  unfold dedup_lines, deduplicated, remove_duplicates.
  by repeat case_bool_decide.
Qed.

Lemma remove_empty_columns_lines combined :
  prints (remove_empty_columns combined) (prune_lines combined)
         (Ok (pruned combined)).
Proof.
  destruct (remove_empty_columns_prints combined) as (evs & Hp).
  rewrite (prints_lines _ _ _ Hp) in Hp.
  assert (stdout (remove_empty_columns combined initial).1 = prune_lines combined)
    as <-; [|done].
  unfold prune_lines, remove_empty_columns. by destruct (filter _ _).
Qed.

(** The console of a run that gets past the header of the first selected
    file. *)
Lemma run_console w names first rest cols :
  input_dir w = Entries names → discover names = first :: rest →
  read_head (files w first) = Ok cols →
  stdout (run w).1
  = [Banner; Found (first :: rest); DetectedImageColumns (length (detected w));
     ProcessingFiles]
    ++ ((first :: rest) ≫= file_lines w (detected w)) ++ closing_lines w.
Proof.
  intros Hdir Hsel Hhead.
  pose proof (tables_entries w names first rest cols Hdir Hsel Hhead) as Htables.
  pose proof (detected_header w names first rest cols Hdir Hsel Hhead) as Hdet.
  unfold closing_lines, combined_table. rewrite Htables, Hdet.
  set (image_cols := filter (λ c, c ∈ cols) IMAGE_COLUMNS).
  pose proof (process_files_lines w image_cols (first :: rest) []) as Hfiles.
  rewrite app_nil_l in Hfiles.
  unfold run, run_post_processor.
  rewrite print_then_run, Hdir. cbv zeta. rewrite Hsel.
  rewrite print_then_run, Hhead, lift_bind_run, !print_then_run.
  fold image_cols. rewrite (prints_bind_run _ _ _ _ _ Hfiles).
  destruct (omap (transformed w image_cols) (first :: rest)) as [|df dfs] eqn:Hdfs.
  { rewrite print_then_run. cbn [mret io_ret fst snd stdout output_file initial].
    by rewrite <-!app_assoc. }
  rewrite print_then_run.
  rewrite (prints_bind_run _ _ _ _ _ (remove_duplicates_lines (concat (df :: dfs)))).
  rewrite (prints_bind_run _ _ _ _ _
             (remove_empty_columns_lines (deduplicated (concat (df :: dfs))))).
  fold (final_table (df :: dfs)).
  rewrite bind_run. unfold to_csv.
  destruct (write_error w) as [e|];
    cbn [mret io_ret fst snd stdout output_file initial].
  { rewrite app_nil_r, <-!app_assoc. done. }
  assert (column_summary (final_table (df :: dfs)) = print ColumnSummary) as ->.
  { unfold column_summary, final_table.
    destruct (rows (pruned _)) eqn:Hrows;
      [|by destruct (columns _)].
    by rewrite (pruned_no_rows _ Hrows). }
  rewrite !print_then_run. cbn [mret io_ret fst snd stdout output_file initial].
  rewrite <-!app_assoc. done.
Qed.

End console.

Section console_lines.

Implicit Types (w : world) (f : pystr) (image_cols : list pystr)
         (st : state) (df out combined : DataFrame).

Lemma selected_cons_inv w first rest :
  selected w = first :: rest →
  ∃ names, input_dir w = Entries names ∧ discover names = first :: rest.
Proof.
  unfold selected. destruct (input_dir w) as [| |names]; [done..|]. by exists names.
Qed.

(** Lines of one kind among the lines of the files. *)
Lemma omap_bind_lines {X Y} (g : event → option Y) (h : X → list event)
      (k : X → option Y) (l : list X) :
  (∀ x, omap g (h x) = option_list (k x)) → omap g (l ≫= h) = omap k l.
Proof.
  intros Hone. induction l as [|x l IH]; [done|].
  change ((x :: l) ≫= h) with (h x ++ (l ≫= h)).
  rewrite omap_app, Hone, IH. simpl. by destruct (k x).
Qed.

Lemma omap_Some {X} (l : list X) : omap Some l = l.
Proof.
  induction l as [|x l IH]; [done|]. by rewrite (omap_cons_Some Some x x l eq_refl), IH.
Qed.

Lemma closing_lines_files w :
  omap processing_of (closing_lines w) = []
  ∧ omap error_of (closing_lines w) = []
  ∧ omap rows_of (closing_lines w) = [].
Proof.
  unfold closing_lines, dedup_lines, prune_lines.
  destruct (tables w); [done|].
  repeat case_bool_decide; destruct (filter _ _); by destruct (write_error w).
Qed.

(** X16. Past the header of the first selected file, the console names
    each selected file once on a [Processing] line, in sorted order;
    gives on a [Rows] line the number of rows of each file that is read;
    and has an [ERROR processing] line for each file whose transform
    raised, with its exception, and no other. *)
Theorem console_files w first rest cols :
  selected w = first :: rest → read_head (files w first) = Ok cols →
  omap processing_of (stdout (run w).1) = selected w
  ∧ omap rows_of (stdout (run w).1) = omap (announced w) (selected w)
  ∧ omap error_of (stdout (run w).1) = omap (failure w (detected w)) (selected w).
Proof.
  intros Hsel Hhead.
  destruct (selected_cons_inv w first rest Hsel) as (names & Hdir & Hdisc).
  rewrite (run_console w names first rest cols Hdir Hdisc Hhead), Hsel.
  destruct (closing_lines_files w) as (Hp & He & Hr).
  set (opening := [Banner; _; _; _]).
  assert (omap processing_of opening = [] ∧ omap rows_of opening = []
          ∧ omap error_of opening = []) as (Hp' & Hr' & He') by done.
  rewrite !omap_app, Hp, He, Hr, Hp', Hr', He', !app_nil_r, !app_nil_l.
  split_and!.
  - rewrite <-(omap_Some (first :: rest)) at 2. apply omap_bind_lines.
    intros f. unfold file_lines, read_lines.
    by destruct (read_full (files w f)), (transform_outcome w (detected w) f).
  - apply omap_bind_lines.
    intros f. unfold file_lines, read_lines, announced.
    by destruct (read_full (files w f)), (transform_outcome w (detected w) f).
  - apply omap_bind_lines.
    intros f. unfold file_lines, read_lines, failure.
    by destruct (read_full (files w f)), (transform_outcome w (detected w) f).
Qed.

End console_lines.

Section counts.

Implicit Types (w : world) (f : pystr) (image_cols : list pystr)
         (st : state) (df out combined : DataFrame).

(** A file that is read and whose transform raises has no row. *)
Lemma announced_rows w image_cols (fs : list pystr) :
  sum_list (omap (announced w) fs)
  = length (omap (transformed w image_cols) fs ≫= rows).
Proof.
  induction fs as [|f fs IH]; [done|].
  destruct (read_full (files w f)) as [df|e] eqn:Hread.
  - destruct (process_csv_records w f image_cols df Hread)
      as [(_ & Hrows & Hraise)|(_ & df' & Hok & _ & Hall)].
    + rewrite (omap_cons_Some _ f (len df))
        by (unfold announced; by rewrite Hread).
      rewrite omap_cons_None by (unfold transformed; by rewrite Hraise).
      unfold len. rewrite Hrows. simpl. done.
    + rewrite (omap_cons_Some _ f (len df))
        by (unfold announced; by rewrite Hread).
      rewrite (omap_cons_Some _ f df') by (unfold transformed; by rewrite Hok).
      change ((df' :: ?l) ≫= rows) with (rows df' ++ (l ≫= rows)).
      rewrite length_app, <-IH. simpl. unfold len.
      by rewrite (Forall2_length _ _ _ Hall).
  - rewrite omap_cons_None by (unfold announced; by rewrite Hread).
    rewrite omap_cons_None; [done|].
    unfold transformed. by rewrite (transform_outcome_unreadable w f image_cols e).
Qed.

Lemma dedup_lines_removed combined :
  omap removed_of (dedup_lines combined)
  = if dedup_key combined is Some _
    then [(len combined - len (deduplicated combined))%nat] else [].
Proof. unfold dedup_lines, dedup_key. by repeat case_bool_decide. Qed.

Lemma prune_lines_other combined :
  omap removed_of (prune_lines combined) = []
  ∧ omap rows_of (prune_lines combined) = [].
Proof. unfold prune_lines. by destruct (filter _ _). Qed.

(** X17. The counts that a run prints add up. The total of the [Rows]
    lines is the number of rows of the combined table, printed before
    the deduplication; the output has no more rows; with a dedup key,
    one line gives the number of rows removed, which is the difference;
    and the closing lines give the numbers of rows and columns of the
    output. *)
Theorem console_counts w st out :
  run w = (st, Ok (Some out)) →
  let total := len (combined_table w) in
  sum_list (omap rows_of (stdout st)) = total
  ∧ Combining total ∈ stdout st
  ∧ (len out ≤ total)%nat
  ∧ omap removed_of (stdout st)
    = (if dedup_key (combined_table w) is Some _
       then [(total - len out)%nat] else [])
  ∧ Complete (len out) (length (columns out)) ∈ stdout st.
Proof.
  intros Hrun total.
  destruct (run_returns_inv w st out Hrun)
    as (names & first & rest & cols & Hdir & Hsel & Hhead & Hwrite & _ & _).
  destruct (run_returns_tables w st out Hrun) as (Hout & _ & _ & Hne).
  assert (stdout st = stdout (run w).1) as -> by (by rewrite Hrun).
  rewrite (run_console w names first rest cols Hdir Hsel Hhead).
  assert (len out = len (deduplicated (combined_table w))) as Hlen.
  { rewrite Hout. unfold len. by rewrite rows_final_table. }
  unfold closing_lines. rewrite Hwrite, <-Hout.
  destruct (tables w) as [|df0 dfs] eqn:Htables; [done|]. clear Hne.
  set (opening := [Banner; _; _; _]).
  set (lines := (first :: rest) ≫= file_lines w (detected w)).
  destruct (prune_lines_other (deduplicated (combined_table w))) as (Hprune & Hprune').
  split_and!.
  - rewrite !omap_app.
    assert (omap rows_of opening = []) as -> by done.
    assert (omap rows_of (Combining (len (combined_table w))
                          :: dedup_lines (combined_table w)
                          ++ prune_lines (deduplicated (combined_table w))
                          ++ [Complete (len out) (length (columns out)); ColumnSummary])
            = []) as ->.
    { rewrite (omap_cons_None rows_of (Combining (len (combined_table w))) _ eq_refl), !omap_app, Hprune'.
      unfold dedup_lines. by repeat case_bool_decide. }
    rewrite app_nil_l, app_nil_r. unfold lines.
    rewrite (omap_bind_lines rows_of _ (announced w)).
    2:{ intros f. unfold file_lines, read_lines, announced.
        by destruct (read_full (files w f)), (transform_outcome w (detected w) f). }
    rewrite (announced_rows w (detected w)).
    unfold total, combined_table, len.
    rewrite <-(selected_entries w names Hdir) in Hsel. rewrite <-Hsel.
    fold (tables w). by rewrite Htables.
  - apply elem_of_app. right. apply elem_of_app. right. by left.
  - rewrite Hlen. apply len_deduplicated.
  - rewrite !omap_app.
    assert (omap removed_of opening = []) as -> by done.
    assert (omap removed_of lines = []) as ->.
    { unfold lines. rewrite (omap_bind_lines removed_of _ (λ _, None)); [|].
      - generalize (first :: rest). intros l.
        induction l as [|x l IH]; [done|].
        by rewrite (omap_cons_None (λ _, None) x l eq_refl).
      - intros f. unfold file_lines, read_lines.
        by destruct (read_full (files w f)), (transform_outcome w (detected w) f). }
    rewrite (omap_cons_None removed_of (Combining (len (combined_table w))) _ eq_refl), !omap_app, Hprune.
    rewrite dedup_lines_removed, Hlen. fold total.
    by destruct (dedup_key (combined_table w)).
  - apply elem_of_app. right. apply elem_of_app. right. right.
    apply elem_of_app. right. apply elem_of_app. right. by left.
Qed.

End counts.

(** ** Where the output goes *)

Section output_path.

Import OsPath Defaults.

Implicit Types (p a b d name : pystr) (c x : N).

Lemma rfind_absent c p : c ∉ p → rfind c p = (-1)%Z.
Proof.
  induction p as [|x p IH]; [done|]. intros [Hx Hp]%not_elem_of_cons.
  simpl. rewrite (IH Hp). simpl.
  destruct (N.eqb_spec x c); [by subst|done].
Qed.

Lemma rfind_last c a b : c ∉ b → rfind c (a ++ c :: b) = Z.of_nat (length a).
Proof.
  intros Hb. induction a as [|x a IH]; simpl.
  - rewrite (rfind_absent c b Hb). simpl. by rewrite N.eqb_refl.
  - rewrite IH. destruct (Z.leb_spec 0 (Z.of_nat (length a))); lia.
Qed.

Lemma rstrip_char_snoc c s : rstrip_char c (s ++ [c]) = rstrip_char c s.
Proof.
  induction s as [|x s IH]; simpl; [by rewrite N.eqb_refl|]. by rewrite IH.
Qed.

Lemma rstrip_char_keep c s x : x ≠ c → rstrip_char c (s ++ [x]) = s ++ [x].
Proof.
  intros Hx. induction s as [|y s IH]; simpl.
  - by apply N.eqb_neq in Hx as ->.
  - rewrite IH. by destruct s.
Qed.

Lemma cut_at_last a b :
  sep ∉ b →
  take (Z.to_nat (rfind sep (a ++ sep :: b) + 1)) (a ++ sep :: b) = a ++ [sep]
  ∧ drop (Z.to_nat (rfind sep (a ++ sep :: b) + 1)) (a ++ sep :: b) = b.
Proof.
  intros Hb. rewrite (rfind_last sep a b Hb).
  replace (Z.to_nat (Z.of_nat (length a) + 1)) with (length (a ++ [sep]))
    by (rewrite length_app; simpl; lia).
  rewrite (cons_middle sep a b), (assoc_L (++)).
  by rewrite take_app_length, drop_app_length.
Qed.

Lemma not_all_sep a x : x ≠ sep → a ++ [x; sep] ≠ replicate (length (a ++ [x; sep])) sep.
Proof.
  intros Hx Heq.
  assert (x ∈ replicate (length (a ++ [x; sep])) sep) as Hin.
  { rewrite <-Heq. apply elem_of_app. right. by left. }
  by apply elem_of_replicate in Hin as [? _].
Qed.

(** Joining a folder and a file name, then taking the path apart. *)
Lemma join_parts d name :
  sep ∉ name →
  basename (join d name) = name
  ∧ dirname (join d name)
    = if bool_decide (d = replicate (length d) sep) then d
      else rstrip_char sep d.
Proof.
  intros Hname. unfold join.
  assert (startswith name [sep] = false) as ->.
  { destruct name as [|x name]; [done|]. apply not_elem_of_cons in Hname as [Hx _].
    change (startswith (x :: name) [sep]) with ((sep =? x) && startswith name []).
    by rewrite (proj2 (N.eqb_neq sep x) Hx). }
  destruct d as [|x0 d0] eqn:Hd.
  { simpl. unfold basename, dirname. rewrite (rfind_absent sep name Hname). done. }
  rewrite <-Hd. assert (d ≠ []) as Hne by (by rewrite Hd). clear x0 d0 Hd.
  assert (truthy d = true) as -> by (by destruct d).
  simpl negb. rewrite orb_false_l.
  destruct (endswith d [sep]) eqn:Hend.
  - apply endswith_suffix in Hend as [a ->].
    rewrite <-(assoc_L (++)). simpl.
    destruct (cut_at_last a name Hname) as [Htake Hdrop].
    unfold basename, dirname. rewrite Htake, Hdrop. split; [done|].
    assert (truthy (a ++ [sep]) = true) as -> by (by destruct a).
    simpl. by destruct (bool_decide _).
  - destruct (cut_at_last d name Hname) as [Htake Hdrop].
    unfold basename, dirname. rewrite Htake, Hdrop. split; [done|].
    assert (truthy (d ++ [sep]) = true) as -> by (by destruct d).
    destruct (exists_last Hne) as (a & x & ->).
    assert (x ≠ sep) as Hx.
    { intros ->. rewrite (proj2 (endswith_suffix (a ++ [sep]) [sep])) in Hend; [done|].
      by exists a. }
    rewrite <-(assoc_L (++)). simpl app.
    rewrite (bool_decide_eq_false_2 _ (not_all_sep a x Hx)). simpl.
    rewrite (bool_decide_eq_false_2 (a ++ [x] = _)).
    2:{ intros Heq.
        assert (x ∈ replicate (length (a ++ [x])) sep) as Hin.
        { rewrite <-Heq. apply elem_of_app. right. by left. }
        by apply elem_of_replicate in Hin as [? _]. }
    change (a ++ [x; sep]) with (a ++ [x] ++ [sep]).
    rewrite (assoc_L (++)), rstrip_char_snoc. by rewrite !rstrip_char_keep.
Qed.

(** X18. With no [output_file] argument the output is the file
    [combined_gift_data.csv] of the folder [Config.PRODUCT_DEDUP_FOLDER],
    and the directory created before writing is that folder, without
    its trailing ['/'] unless it is made of them only, and ['.'] when
    the folder is the empty string. An output file given as a bare file
    name is written to ['.']. *)
Theorem output_location cfg :
  let d := PRODUCT_DEDUP_FOLDER cfg in
  let output_file := output_file_of cfg None in
  basename output_file = py "combined_gift_data.csv"
  ∧ output_dir_of output_file
    = (if bool_decide (d = []) then py "."
       else if bool_decide (d = replicate (length d) sep) then d
       else rstrip_char sep d)
  ∧ ∀ name, sep ∉ name → output_dir_of (output_file_of cfg (Some name)) = py ".".
Proof.
  intros d output_file. unfold output_file, output_file_of. fold d.
  clear output_file. clearbody d.
  assert (sep ∉ py "combined_gift_data.csv") as Hname
    by (apply (bool_decide_unpack _); vm_compute; exact I).
  destruct (join_parts d (py "combined_gift_data.csv") Hname) as [Hbase Hdir].
  split_and!.
  - exact Hbase.
  - unfold output_dir_of. rewrite Hdir.
    destruct (decide (d = [])) as [->|Hnil]; [done|].
    rewrite (bool_decide_eq_false_2 (d = []) Hnil).
    destruct (decide (d = replicate (length d) sep)) as [Hall|Hall].
    { rewrite !(bool_decide_eq_true_2 _ Hall). by destruct d. }
    rewrite !(bool_decide_eq_false_2 _ Hall).
    destruct (rstrip_char sep d) as [|x t] eqn:Hstrip; [|done].
    destruct Hall. clear -Hstrip. induction d as [|x d IH]; [done|].
    simpl in Hstrip. destruct (rstrip_char sep d); [|done].
    destruct (N.eqb_spec x sep) as [->|]; [|done]. simpl. f_equal. by apply IH.
  - intros name Hn. unfold output_dir_of, dirname.
    by rewrite (rfind_absent sep name Hn).
Qed.

End output_path.

(** ** The entry point *)

Section entry_point.

Import Main.

Implicit Types (p : process) (b : raised) (e : exn) (out : DataFrame).

(** The table on disk after a run is the table the run returns. *)
Lemma run_written (w : world) out :
  output_file (run w).1 = Some out ↔ (run w).2 = Ok (Some out).
Proof.
  pose proof (run_cases w) as Hrun.
  destruct (run w) as [st [[out'|]|e]]; simpl in *.
  - destruct Hrun as (-> & _). split; congruence.
  - destruct Hrun as (-> & _). done.
  - destruct Hrun as (-> & _). done.
Qed.

Ltac in_log := repeat first [by left | right].

(** X19. [main] raises what the scraping phase raises, a
    [KeyboardInterrupt] apart: then, and when the phase returns, the
    post processor runs, and [main] returns whatever the post processor
    does, an exception of it being logged as an error. When [main]
    raises, the end of the scraping phase has been logged, the post
    processor has not run, and an [Exception] has been logged as fatal. *)
Theorem main_exceptions p :
  (main p).2 = match scraping p with
               | None | Some KeyboardInterrupt => None
               | Some b => Some b
               end
  ∧ match (main p).2 with
    | None =>
        terminal (main p).1
        = StartupBanner :: (PostProcessorLine <$> stdout (run (disk p)).1)
        ∧ (INFO, StartingPostProcessingPhase) ∈ log (main p).1
        ∧ (∀ e, (run (disk p)).2 = Raise e →
                (ERROR, PostProcessingError e) ∈ log (main p).1)
        ∧ last (log (main p).1) = Some (INFO, Rule false)
    | Some b =>
        terminal (main p).1 = [StartupBanner]
        ∧ ((INFO, StartingPostProcessingPhase) ∉ log (main p).1)
        ∧ (INFO, ScrapingPhaseEnded (clock p 1)) ∈ log (main p).1
        ∧ ∀ e, b = AnException e →
               (ERROR, FatalErrorDuringScraping e) ∈ log (main p).1
    end.
Proof.
  cbv beta delta [main post_processing_phase post_processor].
  destruct (run (disk p)) as [st r].
  destruct (scraping p) as [[|e|name]|]; [destruct r as [o|e]| | |destruct r as [o|e]];
    cbv beta iota zeta delta [print_banner start now logger fst snd terminal log
                              ticks written app last].
  - split; [done|]. split_and!; [done|in_log|by intros e' [=]|done].
  - split; [done|]. split_and!; [done|in_log| |done].
    intros e' [= <-]. in_log.
  - split; [done|]. split_and!; [done| |in_log|].
    + rewrite !elem_of_cons, elem_of_nil. intros H. by decompose [or] H.
    + intros e' [= <-]. in_log.
  - split; [done|]. split_and!; [done| |in_log|done].
    rewrite !elem_of_cons, elem_of_nil. intros H. by decompose [or] H.
  - split; [done|]. split_and!; [done|in_log|by intros e' [=]|done].
  - split; [done|]. split_and!; [done|in_log| |done].
    intros e' [= <-]. in_log.
Qed.

(** X20. A session leaves an output table exactly when the scraping
    phase returned or was interrupted from the keyboard and the post
    processor returned that table. *)
Theorem main_writes p out :
  written (main p).1 = Some out
  ↔ (scraping p = None ∨ scraping p = Some KeyboardInterrupt)
    ∧ (run (disk p)).2 = Ok (Some out).
Proof.
  rewrite <-run_written.
  cbv beta delta [main post_processing_phase post_processor].
  destruct (run (disk p)) as [st r].
  destruct (scraping p) as [[|e|name]|]; [destruct r as [o|e]| | |destruct r as [o|e]];
    cbv beta iota zeta delta [print_banner start now logger fst snd terminal log
                              ticks written app].
  all: split; [intros Hw|intros [[Hs|Hs] Hw]]; try done.
  all: split; [by (left + right)|done].
Qed.

End entry_point.

(** ** What a run does not look at *)

Section unselected.

Implicit Types (w : world) (names : list pystr) (st : state) (f : pystr).

Lemma process_files_selected w w' image_cols (csv_files : list pystr) all_dfs st :
  (∀ f, f ∈ csv_files → files w f = files w' f) →
  process_files w image_cols csv_files all_dfs st
  = process_files w' image_cols csv_files all_dfs st.
Proof.
  revert all_dfs st. induction csv_files as [|f fs IH]; intros all_dfs st Hfiles; [done|].
  simpl.
  assert (process_csv w f image_cols = process_csv w' f image_cols) as ->.
  { unfold process_csv. by rewrite (Hfiles f) by (by left). }
  apply bind_ext_run. intros dfs st'. apply IH. intros f' ?. apply Hfiles. by right.
Qed.

(** X21. A run looks at the selected files only. Two directories with
    the same selection and the same selected files give the same run:
    the entries that are not selected, [audit_table.csv], the progress
    files and what is no CSV file, may come and go, and no file is read
    that is not selected. *)
Theorem unselected_files_ignored w w' names names' :
  input_dir w = Entries names → input_dir w' = Entries names' →
  discover names = discover names' →
  (∀ f, f ∈ discover names → files w f = files w' f) →
  write_error w = write_error w' →
  run w = run w'.
Proof.
  intros Hdir Hdir' Hsel Hfiles Hwrite. unfold run, run_post_processor.
  rewrite Hdir, Hdir'. cbv zeta. rewrite <-Hsel.
  apply bind_ext_run. intros _ st.
  destruct (discover names) as [|first rest] eqn:Hdisc; [done|].
  apply bind_ext_run. intros _ st1.
  rewrite (Hfiles first) by (by left).
  apply bind_ext_run. intros cols st2.
  apply bind_ext_run. intros _ st3.
  apply bind_ext_run. intros _ st4.
  rewrite !bind_run, (process_files_selected w w') by done.
  destruct (process_files w' _ _ _ st4) as [st5 [[|df dfs]|e]]; [done| |done].
  unfold to_csv. by rewrite Hwrite.
Qed.

End unselected.

(** ** Keys that do not repeat *)

Section distinct_keys.

Implicit Types (w : world) (st : state) (out : DataFrame) (k : pystr).


End distinct_keys.

(** ** Instances *)

Lemma all_images_ascii_witness :
  ∃ all_images,
    combine_images accented [py "image_1"] = Some all_images
    ∧ Forall printable all_images
    ∧ (∃ text, all_images = Json.lbracket :: Json.quote :: text)
    ∧ last all_images = Some Json.rbracket.
Proof.
  assert (∃ all_images, combine_images accented [py "image_1"] = Some all_images)
    as [all_images Hall] by (eexists; vm_compute; reflexivity).
  exists all_images. split; [exact Hall|].
  exact (all_images_ascii accented [py "image_1"] all_images Hall).
Defined.

Lemma all_images_injective_witness :
  (Forall well_formed (consolidated padded [py "image_1"; py "image_2"])
   ∧ Forall well_formed (consolidated plain [py "image_1"; py "image_2"])
   ∧ combine_images padded [py "image_1"; py "image_2"]
     = combine_images plain [py "image_1"; py "image_2"])
  ∧ consolidated padded [py "image_1"; py "image_2"]
    = consolidated plain [py "image_1"; py "image_2"].
Proof.
  assert (Forall well_formed (consolidated padded [py "image_1"; py "image_2"])) as H1
    by (apply (bool_decide_unpack _); vm_compute; exact I).
  assert (Forall well_formed (consolidated plain [py "image_1"; py "image_2"])) as H2
    by (apply (bool_decide_unpack _); vm_compute; exact I).
  assert (combine_images padded [py "image_1"; py "image_2"]
          = combine_images plain [py "image_1"; py "image_2"]) as H3
    by (vm_compute; reflexivity).
  split; [by split_and!|].
  exact (all_images_injective padded plain _ _ H1 H2 H3).
Defined.

Lemma process_csv_shape_witness :
  ∃ df_out,
    (read_full (files three_batches (py "batch_1.csv")) = Ok batch_1
     ∧ transform_outcome three_batches [py "image_1"; py "image_2"] (py "batch_1.csv")
       = Ok df_out)
    ∧ columns df_out
      = filter (λ c, c ∈ columns batch_1) COLUMNS_TO_KEEP ++ DERIVED_COLUMNS
    ∧ len df_out = len batch_1
    ∧ NoDup (columns df_out).
Proof.
  assert (∃ df_out, transform_outcome three_batches [py "image_1"; py "image_2"]
                                      (py "batch_1.csv") = Ok df_out)
    as [df_out Hout] by (eexists; vm_compute; reflexivity).
  exists df_out. split; [split; [reflexivity|exact Hout]|].
  exact (process_csv_shape three_batches (py "batch_1.csv") _ batch_1 df_out
                           eq_refl Hout).
Defined.




Lemma variant_path_rows_witness :
  ∃ st out,
    (run three_batches = (st, Ok (Some out))
     ∧ py "detail_variant_sku" ∈ columns (combined_table three_batches))
    ∧ ∃ with_key,
        rows out
        = with_key ++ filter (λ r, r !! py "detail_variant_sku" = None)
                             (rows (combined_table three_batches))
        ∧ with_key `sublist_of` filter (λ r, is_Some (r !! py "detail_variant_sku"))
                                       (rows (combined_table three_batches)).
Proof.
  assert (∃ st out, run three_batches = (st, Ok (Some out))) as (st & out & Hrun)
    by (eexists _, _; vm_compute; reflexivity).
  assert (py "detail_variant_sku" ∈ columns (combined_table three_batches)) as Hk
    by (apply (bool_decide_unpack _); vm_compute; exact I).
  exists st, out. split; [by split|].
  exact (variant_path_rows three_batches st out Hrun Hk).
Defined.

Lemma sku_path_rows_witness :
  ∃ st out,
    (run listing_only = (st, Ok (Some out))
     ∧ (py "detail_variant_sku" ∉ columns (combined_table listing_only))
     ∧ py "sku" ∈ columns (combined_table listing_only))
    ∧ rows out `sublist_of` rows (combined_table listing_only)
    ∧ filter (λ r, r !! py "sku" = None) (rows out)
      = take 1 (filter (λ r, r !! py "sku" = None)
                       (rows (combined_table listing_only))).
Proof.
  assert (∃ st out, run listing_only = (st, Ok (Some out))) as (st & out & Hrun)
    by (eexists _, _; vm_compute; reflexivity).
  assert (py "detail_variant_sku" ∉ columns (combined_table listing_only)) as Hv
    by (apply (bool_decide_unpack _); vm_compute; exact I).
  assert (py "sku" ∈ columns (combined_table listing_only)) as Hs
    by (apply (bool_decide_unpack _); vm_compute; exact I).
  exists st, out. split; [by split_and!|].
  exact (sku_path_rows listing_only st out Hrun Hv Hs).
Defined.

Lemma output_column_order_witness :
  ∃ st out,
    run three_batches = (st, Ok (Some out))
    ∧ NoDup (columns out)
    ∧ columns out `sublist_of` columns (combined_table three_batches)
    ∧ ((∀ df df', df ∈ tables three_batches → df' ∈ tables three_batches →
                  columns df = columns df') →
       columns out `sublist_of` COLUMNS_TO_KEEP ++ DERIVED_COLUMNS).
Proof.
  assert (∃ st out, run three_batches = (st, Ok (Some out))) as (st & out & Hrun)
    by (eexists _, _; vm_compute; reflexivity).
  exists st, out. split; [exact Hrun|].
  exact (output_column_order three_batches st out Hrun).
Defined.

Lemma console_files_witness :
  (selected three_batches = [py "batch_1.csv"; py "batch_2.csv"; py "batch_3.csv"]
   ∧ read_head (files three_batches (py "batch_1.csv")) = Ok detail_columns)
  ∧ omap processing_of (stdout (run three_batches).1) = selected three_batches
  ∧ omap rows_of (stdout (run three_batches).1)
    = omap (announced three_batches) (selected three_batches)
  ∧ omap error_of (stdout (run three_batches).1)
    = omap (failure three_batches (detected three_batches)) (selected three_batches).
Proof.
  assert (selected three_batches
          = [py "batch_1.csv"; py "batch_2.csv"; py "batch_3.csv"]) as Hsel
    by (vm_compute; reflexivity).
  split; [split; [exact Hsel|reflexivity]|].
  exact (console_files three_batches _ _ detail_columns Hsel eq_refl).
Defined.

Lemma console_counts_witness :
  ∃ st out,
    run three_batches = (st, Ok (Some out))
    ∧ sum_list (omap rows_of (stdout st)) = len (combined_table three_batches)
    ∧ Combining (len (combined_table three_batches)) ∈ stdout st
    ∧ (len out ≤ len (combined_table three_batches))%nat
    ∧ omap removed_of (stdout st)
      = (if dedup_key (combined_table three_batches) is Some _
         then [(len (combined_table three_batches) - len out)%nat] else [])
    ∧ Complete (len out) (length (columns out)) ∈ stdout st.
Proof.
  assert (∃ st out, run three_batches = (st, Ok (Some out))) as (st & out & Hrun)
    by (eexists _, _; vm_compute; reflexivity).
  exists st, out. split; [exact Hrun|].
  exact (console_counts three_batches st out Hrun).
Defined.

Lemma unselected_files_ignored_witness :
  (discover [py "batch_3.csv"; py "audit_table.csv"; py "batch_1.csv";
             py "progress.csv"; py "batch_2.csv"; py "readme.md"]
   = discover [py "batch_3.csv"; py "audit_table.csv"; py "batch_1.csv";
               py "progress.csv"; py "batch_2.csv"; py "readme.md"; py "notes.txt"]
   ∧ files three_batches (py "audit_table.csv")
     ≠ files three_batches_audited (py "audit_table.csv"))
  ∧ run three_batches = run three_batches_audited.
Proof.
  assert (discover [py "batch_3.csv"; py "audit_table.csv"; py "batch_1.csv";
                    py "progress.csv"; py "batch_2.csv"; py "readme.md"]
          = [py "batch_1.csv"; py "batch_2.csv"; py "batch_3.csv"]) as Hsel
    by (vm_compute; reflexivity).
  assert (discover [py "batch_3.csv"; py "audit_table.csv"; py "batch_1.csv";
                    py "progress.csv"; py "batch_2.csv"; py "readme.md"; py "notes.txt"]
          = [py "batch_1.csv"; py "batch_2.csv"; py "batch_3.csv"]) as Hsel'
    by (vm_compute; reflexivity).
  split; [split; [by rewrite Hsel, Hsel'|by vm_compute]|].
  refine (unselected_files_ignored three_batches three_batches_audited _ _
            eq_refl eq_refl _ _ eq_refl).
  - by rewrite Hsel, Hsel'.
  - rewrite Hsel. intros f Hf.
    repeat (apply elem_of_cons in Hf as [->|Hf]; [by vm_compute|]).
    by apply elem_of_nil in Hf.
Defined.

